(** * The DFS projection handler of api-getactivities/main.go

    A shallow embedding of the join / select / enrich / histogram / dedup
    pipeline that [getStravaData] runs for the DraftKings NFL (classic and
    showdown) and MLB pitcher contexts, together with the properties stated
    about it; and of the activities handler of unnamed/part_000.

    Conventions.
    - Go [int] and [int64] values are [Z]; Go [float64] values are the
      kernel's binary64 floats ([PrimFloat.float]), so that comparisons and
      division follow IEEE 754 exactly as the Go operators do.
    - Go maps are [gmap string _]; indexing a map at an absent key yields
      the zero value of the element type ([default zero (m !! k)]).
    - An instant ([time.Time]) is the number of nanoseconds since the Unix
      epoch.
    - A run of the handler either completes with a value or panics. *)

From Stdlib Require Import ZArith List String Ascii Bool Lia.
From Stdlib Require Import Floats DecimalString DecimalZ.
From stdpp Require Import base option list strings gmap.

Local Open Scope Z_scope.
Local Open Scope string_scope.

(** ** Outcome of a computation that may panic *)

Inductive result (A : Type) : Type :=
| Ok (a : A)
| Panic (msg : string).
Arguments Ok {A} a.
Arguments Panic {A} msg.

Definition rbind {A B} (r : result A) (k : A -> result B) : result B :=
  match r with
  | Ok a => k a
  | Panic m => Panic m
  end.

Notation "x <-! r ; k" := (rbind r (fun x => k))
  (at level 100, r at next level, right associativity, only parsing).

(** ** [for ix, a := range l { body }] with [break]

    The body reports whether it ran into [break]; a panic inside the body
    ends the loop and the enclosing computation. *)

Inductive ctl := Continue | Break.

Fixpoint range_loop {A St : Type} (body : nat -> A -> St -> result (St * ctl))
    (ix : nat) (l : list A) (st : St) : result St :=
  match l with
  | [] => Ok st
  | a :: l' =>
      match body ix a st with
      | Panic m => Panic m
      | Ok (st', Break) => Ok st'
      | Ok (st', Continue) => range_loop body (S ix) l' st'
      end
  end.

(** ** Strings: [fmt.Sprint], [strings.Contains], [strings.Split],
       [strings.ToLower] *)

(** [fmt.Sprint] of an integer operand: its decimal rendering. *)
Definition Sprint_int (z : Z) : string := NilZero.string_of_int (Z.to_int z).

Fixpoint prefixb (p s : string) : bool :=
  match p, s with
  | EmptyString, _ => true
  | String a p', String b s' => if Ascii.eqb a b then prefixb p' s' else false
  | String _ _, EmptyString => false
  end.

(** [strings.Contains s sub] *)
Fixpoint Contains (s sub : string) : bool :=
  prefixb sub s ||
  match s with
  | EmptyString => false
  | String _ s' => Contains s' sub
  end.

(** [strings.Split s sep] for a one-character separator. *)
Fixpoint Split (s : string) (sep : ascii) : list string :=
  match s with
  | EmptyString => [EmptyString]
  | String c s' =>
      if Ascii.eqb c sep then EmptyString :: Split s' sep
      else match Split s' sep with
           | [] => [String c EmptyString]
           | w :: ws => String c w :: ws
           end
  end.

Definition lower_ascii (c : ascii) : ascii :=
  let n := nat_of_ascii c in
  if (Nat.leb 65 n && Nat.leb n 90)%bool then ascii_of_nat (n + 32) else c.

(** [strings.ToLower] on the ASCII range (position codes are ASCII). *)
Fixpoint ToLower (s : string) : string :=
  match s with
  | EmptyString => EmptyString
  | String c s' => String (lower_ascii c) (ToLower s')
  end.

(** Modelled from the spec: the helper [implContains] is called by the
    handler but not defined in the sources; the spec describes its use as
    testing whether a UID "is already present in the set" of seen UIDs. *)
Fixpoint implContains (keys : list string) (key : string) : bool :=
  match keys with
  | [] => false
  | k :: keys' => if String.eqb k key then true else implContains keys' key
  end.

(** ** Histogram Builder

    The eight counters and the [if / else if] chain that every code path
    repeats verbatim (e.g. main.go 888-925). *)

Record Counters := mkCounters {
  t_lessthan0 : Z;
  t_one_nine : Z;
  t_ten_nineteen : Z;
  t_twt_twtnine : Z;
  t_thr_thrnine : Z;
  t_for_fornine : Z;
  t_fft_fftnine : Z;
  t_sixty_plus : Z
}.

Definition zeroCounters : Counters := mkCounters 0 0 0 0 0 0 0 0.

Definition count_value (c : Counters) (value : float) : Counters :=
  let '(mkCounters c0 c1 c2 c3 c4 c5 c6 c7) := c in
  if (value <=? 0)%float then mkCounters (c0 + 1) c1 c2 c3 c4 c5 c6 c7
  else if ((0 <=? value)%float && (value <? 10)%float)%bool
       then mkCounters c0 (c1 + 1) c2 c3 c4 c5 c6 c7
  else if ((10 <=? value)%float && (value <? 20)%float)%bool
       then mkCounters c0 c1 (c2 + 1) c3 c4 c5 c6 c7
  else if ((20 <=? value)%float && (value <? 30)%float)%bool
       then mkCounters c0 c1 c2 (c3 + 1) c4 c5 c6 c7
  else if ((30 <=? value)%float && (value <? 40)%float)%bool
       then mkCounters c0 c1 c2 c3 (c4 + 1) c5 c6 c7
  else if ((40 <=? value)%float && (value <? 50)%float)%bool
       then mkCounters c0 c1 c2 c3 c4 (c5 + 1) c6 c7
  else if ((50 <=? value)%float && (value <? 60)%float)%bool
       then mkCounters c0 c1 c2 c3 c4 c5 (c6 + 1) c7
  else if (60 <=? value)%float
       then mkCounters c0 c1 c2 c3 c4 c5 c6 (c7 + 1)
  else c.

Definition count_values (c : Counters) (sample : list float) : Counters :=
  fold_left count_value sample c.

(** The eight [append]s that build [tempPointsList]. *)
Definition tempPointsList (c : Counters) : list Z :=
  [t_lessthan0 c; t_one_nine c; t_ten_nineteen c; t_twt_twtnine c;
   t_thr_thrnine c; t_for_fornine c; t_fft_fftnine c; t_sixty_plus c].

Definition histogram (sample : list float) : list Z :=
  tempPointsList (count_values zeroCounters sample).

(** Index of the counter that one value increments, if any. *)
Definition bucket (value : float) : option nat :=
  if (value <=? 0)%float then Some 0%nat
  else if ((0 <=? value)%float && (value <? 10)%float)%bool then Some 1%nat
  else if ((10 <=? value)%float && (value <? 20)%float)%bool then Some 2%nat
  else if ((20 <=? value)%float && (value <? 30)%float)%bool then Some 3%nat
  else if ((30 <=? value)%float && (value <? 40)%float)%bool then Some 4%nat
  else if ((40 <=? value)%float && (value <? 50)%float)%bool then Some 5%nat
  else if ((50 <=? value)%float && (value <? 60)%float)%bool then Some 6%nat
  else if (60 <=? value)%float then Some 7%nat
  else None.

Definition sumZ (l : list Z) : Z := fold_right Z.add 0 l.

(** ** Go map indexing: an absent key yields the zero value *)

Definition index {V : Type} (zero : V) (m : gmap string V) (k : string) : V :=
  default zero (m !! k).

(** ** Inputs

    The declarations of the decoded feeds and of the output rows
    ([DKdraftables], [ServiceKey], [NFLplayersims], [NflPlayer],
    [MLBpitchers], [Pitcher], [ODDSteam], [TeamPoints]) are not part of the
    sources; the records below carry the fields the handler reads and
    assigns, under the names it uses for them, with the types the spec gives
    (sections 3 and 6: integer ids, string positions and dates, [float64]
    averages, numeric score samples).  Fields that are copied verbatim from
    a table into the output and that no stated property refers to (physical
    attributes, weather, season statistics, the rendered slate date) are
    left out of the records. *)

(** Modelled from the spec: the declaration of [DKdraftables] is missing
    from the sources.  A RosterSlotEntry has a provider player id, a display
    name, a position string, a salary, a roster-slot id and a list of game
    attributes (key/value pairs); the handler reads them as below. *)
Module DK.

Record PlayerGameAttribute := {
  Id : Z;
  Value : string
}.

Record DraftableCompetition := {
  StartTime : string
}.

Record Draftable := {
  PlayerDkId : Z;
  DisplayName : string;
  Position : string;
  Salary : Z;
  RosterSlotId : Z;
  Status : string;
  PlayerGameAttributes : list PlayerGameAttribute;
  Competition : DraftableCompetition
}.

End DK.

(** Modelled from the spec: the declaration of [ServiceKey] is missing from
    the sources.  It is one row of the Identifier Crosswalk
    ([t_nfl_dfs_id_match] / [t_mlb_dfs_id_match]), keyed in [Keys] by the
    rendered provider id; [PlayerID] is the canonical athlete id, zero in
    the zero value that an absent key yields. *)
Record ServiceKey := {
  PlayerID : Z;
  Dkid : Z
}.

Definition zeroServiceKey : ServiceKey := {| PlayerID := 0; Dkid := 0 |}.

(** ** NFL: DraftKings classic and showdown *)

(** Modelled from the spec: the declaration of [NFLplayersims] is missing
    from the sources.  An entry of the simulation table [nfl_players]
    carries, per scoring format, the mean, the raw sample of simulated
    scores, the deviation and the cumulative points, and the matchup of the
    week. *)
Module NFLsim.

Record Player := {
  Player_position : string;
  Game_team_id : Z;
  Game_team_name : string;
  Dk_classic_points_mean : float;
  Dk_classic_points_list : list float;
  Dk_classic_points_std : float;
  Dk_classic_cume_points : float;
  Dk_showdown_points_mean : float;
  Dk_showdown_points_list : list float;
  Dk_showdown_points_std : float;
  Dk_showdown_cume_points : float;
  Game_date_unix : Z;
  Game_week : Z;
  Game_opp_id : Z;
  Game_opp_name : string;
  Game_points_for : float;
  Game_points_against : float;
  Game_venue_id : Z;
  Game_venue_name : string
}.

Definition zero : Player := {|
  Player_position := ""; Game_team_id := 0; Game_team_name := "";
  Dk_classic_points_mean := 0; Dk_classic_points_list := [];
  Dk_classic_points_std := 0; Dk_classic_cume_points := 0;
  Dk_showdown_points_mean := 0; Dk_showdown_points_list := [];
  Dk_showdown_points_std := 0; Dk_showdown_cume_points := 0;
  Game_date_unix := 0; Game_week := 0; Game_opp_id := 0;
  Game_opp_name := ""; Game_points_for := 0; Game_points_against := 0;
  Game_venue_id := 0; Game_venue_name := ""
|}.

End NFLsim.

Module NFL.

(** Modelled from the spec: the declaration of [NflPlayer] is missing from
    the sources.  It is the ProjectionRecord of the NFL paths, with the
    fields the loop bodies assign. *)
Record NflPlayer := {
  Full_name : string;
  Nfl_id : string;
  Player_primary_position : string;
  Team_name : string;
  Positions : list string;
  Inlineup : bool;
  Status : string;
  Salary : Z;
  RosterSlotId : Z;
  Lineup_selected : Z;
  ProjPoints : float;
  ProjPointsList : list Z;
  Game_date_unix : Z;
  Game_gameDate : string;
  Game_game_Pk : Z;
  Game_week : Z;
  Game_opponent : Z;
  Game_opponent_name : string;
  Game_player_oddsfactor : float;
  Game_team_oddspoints : float;
  Game_opponent_oddspoints : float;
  Game_s_deviation : float;
  Games_sim_cume_points : float;
  Game_venue : Z;
  Game_venue_name : string;
  Draftable_uid : string
}.

(** [FinalNFLPlayer.Inlineup = true], then the scan of the slot's game
    attributes: attribute 100 with value "false" clears the flag. *)
Definition inlineup_of (attrs : list DK.PlayerGameAttribute) : bool :=
  fold_left
    (fun b value =>
       if (DK.Id value =? 100)%Z
       then if String.eqb (DK.Value value) "false" then false else b
       else b)
    attrs true.

Definition status_of (s : DK.Draftable) : string :=
  if (String.eqb (DK.Position s) "D" || String.eqb (DK.Position s) "DEF")%bool
  then "None" else DK.Status s.

(** [fmt.Sprint(s.PlayerDkId, "_", nfl_lookup, "_", s.Position, "_", "_",
    FinalNFLPlayer.Nfl_id, "_", FinalNFLPlayer.Salary)]: no blank is
    inserted, every pair of neighbours containing a string operand. *)
Definition uid_of (dkid lookup : Z) (position nfl_id : string) (salary : Z) : string :=
  Sprint_int dkid ++ "_" ++ Sprint_int lookup ++ "_" ++ position ++ "_" ++ "_"
    ++ nfl_id ++ "_" ++ Sprint_int salary.

Section Tables.

Variable Keys : gmap string ServiceKey.
Variable nfl_players : gmap string NFLsim.Player.

Definition nfl_lookup_of (s : DK.Draftable) : Z :=
  PlayerID (index zeroServiceKey Keys (Sprint_int (DK.PlayerDkId s))).

(** Body of the classic loop up to the gate (main.go 851-1065).  The body
    starts from a copy of [defaultNFLPlayer] and assigns every field kept
    here, so none of the default's values is left in them. *)
Definition classic_record (s : DK.Draftable) : NflPlayer :=
  let nfl_lookup := nfl_lookup_of s in
  let sim := index NFLsim.zero nfl_players (Sprint_int nfl_lookup) in
  let positions := map ToLower (Split (DK.Position s) "/") in
  let positions :=
    if (implContains positions "rb" || implContains positions "wr"
        || implContains positions "te" || implContains positions "pk"
        || implContains positions "k")%bool
    then (positions ++ ["flex"])%list else positions in
  let nfl_id := Sprint_int nfl_lookup in
  {| Full_name := DK.DisplayName s;
     Nfl_id := nfl_id;
     Player_primary_position := NFLsim.Player_position sim;
     Team_name := NFLsim.Game_team_name sim;
     Positions := positions;
     Inlineup := inlineup_of (DK.PlayerGameAttributes s);
     Status := status_of s;
     Salary := DK.Salary s;
     RosterSlotId := DK.RosterSlotId s;
     Lineup_selected := 0;
     ProjPoints := NFLsim.Dk_classic_points_mean sim;
     ProjPointsList := histogram (NFLsim.Dk_classic_points_list sim);
     Game_date_unix := NFLsim.Game_date_unix sim;
     Game_gameDate := DK.StartTime (DK.Competition s);
     Game_game_Pk := 1;
     Game_week := NFLsim.Game_week sim;
     Game_opponent := NFLsim.Game_opp_id sim;
     Game_opponent_name := NFLsim.Game_opp_name sim;
     Game_player_oddsfactor := 1;
     Game_team_oddspoints := NFLsim.Game_points_for sim;
     Game_opponent_oddspoints := NFLsim.Game_points_against sim;
     Game_s_deviation := NFLsim.Dk_classic_points_std sim;
     Games_sim_cume_points := NFLsim.Dk_classic_cume_points sim;
     Game_venue := NFLsim.Game_venue_id sim;
     Game_venue_name := NFLsim.Game_venue_name sim;
     Draftable_uid :=
       uid_of (DK.PlayerDkId s) nfl_lookup (DK.Position s) nfl_id (DK.Salary s) |}.

(** Body of the showdown loop up to the gate (main.go 1080-1299): the
    captain slot 511 and the flex slot 512 tag the positions and suffix
    the athlete id. *)
Definition showdown_record (s : DK.Draftable) : NflPlayer :=
  let nfl_lookup := nfl_lookup_of s in
  let sim := index NFLsim.zero nfl_players (Sprint_int nfl_lookup) in
  let positions := map ToLower (Split (DK.Position s) "/") in
  let nfl_id := Sprint_int nfl_lookup in
  let positions :=
    if (DK.RosterSlotId s =? 511)%Z then (positions ++ ["cpt"])%list else positions in
  let nfl_id :=
    if (DK.RosterSlotId s =? 511)%Z then Sprint_int nfl_lookup ++ "_511" else nfl_id in
  let positions :=
    if (DK.RosterSlotId s =? 512)%Z then (positions ++ ["flex"])%list else positions in
  let nfl_id :=
    if (DK.RosterSlotId s =? 512)%Z then Sprint_int nfl_lookup ++ "_512" else nfl_id in
  {| Full_name := DK.DisplayName s;
     Nfl_id := nfl_id;
     Player_primary_position := NFLsim.Player_position sim;
     Team_name := NFLsim.Game_team_name sim;
     Positions := positions;
     Inlineup := inlineup_of (DK.PlayerGameAttributes s);
     Status := status_of s;
     Salary := DK.Salary s;
     RosterSlotId := DK.RosterSlotId s;
     Lineup_selected := 0;
     ProjPoints := NFLsim.Dk_showdown_points_mean sim;
     ProjPointsList := histogram (NFLsim.Dk_showdown_points_list sim);
     Game_date_unix := NFLsim.Game_date_unix sim;
     Game_gameDate := DK.StartTime (DK.Competition s);
     Game_game_Pk := 1;
     Game_week := NFLsim.Game_week sim;
     Game_opponent := NFLsim.Game_opp_id sim;
     Game_opponent_name := NFLsim.Game_opp_name sim;
     Game_player_oddsfactor := 1;
     Game_team_oddspoints := NFLsim.Game_points_for sim;
     Game_opponent_oddspoints := NFLsim.Game_points_against sim;
     Game_s_deviation := NFLsim.Dk_showdown_points_std sim;
     Games_sim_cume_points := NFLsim.Dk_showdown_cume_points sim;
     Game_venue := NFLsim.Game_venue_id sim;
     Game_venue_name := NFLsim.Game_venue_name sim;
     Draftable_uid :=
       uid_of (DK.PlayerDkId s) nfl_lookup (DK.Position s) nfl_id (DK.Salary s) |}.

End Tables.

(** The accumulators [FinalNFLPlayerKeys] and [FinalNFLPlayers.Data]. *)
Record Acc := {
  FinalNFLPlayerKeys : list string;
  Data : list NflPlayer
}.

Definition emptyAcc : Acc := {| FinalNFLPlayerKeys := []; Data := [] |}.

(** The Dedup Gate (main.go 1067-1072, 1301-1306). *)
Definition gate (acc : Acc) (FinalNFLPlayer : NflPlayer) : Acc :=
  if implContains (FinalNFLPlayerKeys acc) (Draftable_uid FinalNFLPlayer) then acc
  else if negb (Inlineup FinalNFLPlayer) then acc
  else {| FinalNFLPlayerKeys := (FinalNFLPlayerKeys acc ++ [Draftable_uid FinalNFLPlayer])%list;
          Data := (Data acc ++ [FinalNFLPlayer])%list |}.

(** [for _, s := range draftables.Draftables { ... }] of either format,
    [assemble] being the loop body up to the gate. *)
Definition pass (assemble : DK.Draftable -> NflPlayer)
    (draftables : list DK.Draftable) (acc : Acc) : Acc :=
  fold_left (fun acc s => gate acc (assemble s)) draftables acc.

Definition classic Keys nfl_players (draftables : list DK.Draftable) : list NflPlayer :=
  Data (pass (classic_record Keys nfl_players) draftables emptyAcc).

Definition showdown Keys nfl_players (draftables : list DK.Draftable) : list NflPlayer :=
  Data (pass (showdown_record Keys nfl_players) draftables emptyAcc).

End NFL.

(** ** MLB pitchers, DraftKings *)

(** Modelled from the spec: the declaration of [ODDSteam] is missing from
    the sources.  The Team Odds Table holds, per team id, an ordered list of
    OddsEntries: a commence time in Unix seconds and the implied points. *)
Module ODDS.

Record Game := {
  Commence_time : Z;
  Points : float
}.

Record Team := {
  Games : list Game
}.

Definition zero : Team := {| Games := [] |}.

End ODDS.

(** Modelled from the spec: the declaration of [TeamPoints] is missing from
    the sources.  The Team Average Table holds, per team id, the long-run
    average of scored points, a [float64]. *)
Record TeamPoints := {
  TeamID : Z;
  Team_name : string;
  Avg_points : float
}.

Definition zeroTeamPoints : TeamPoints :=
  {| TeamID := 0; Team_name := ""; Avg_points := 0 |}.

(** Modelled from the spec: the declaration of [MLBpitchers] is missing
    from the sources.  An entry of the simulation table [pitchers] holds the
    athlete's team and the Athlete Game Ledger: per game its date, opponent,
    venue, raw sample of simulated scores and summary statistics. *)
Module MLBsim.

Record Game := {
  GameDate : string;
  Opponent : Z;
  Opponent_name : string;
  Draftkings_proj_points : float;
  Dk_points_list : list float;
  Draftkings_cume_points : float;
  Game_Pk : Z;
  Game_no : Z;
  Opp_prob_phand : string;
  Opp_prob_pitcher : Z;
  S_deviation : float;
  Sim_cume_games : Z;
  Venue : Z
}.

Record Pitcher := {
  Team_id : string;
  Team_name : string;
  Games : list Game
}.

Definition zero : Pitcher := {| Team_id := ""; Team_name := ""; Games := [] |}.

End MLBsim.

(** Instants are counted in nanoseconds. *)
Definition Hour : Z := 3600 * 1000000000.

(** Go's [int] is 64 bits wide on the targets the service is built for;
    a sum or product wraps around. *)
Definition wrap_int (z : Z) : Z := (z + 2 ^ 63) mod 2 ^ 64 - 2 ^ 63.

(** The seconds from January 1 of year 1, the origin of the seconds a
    [time.Time] holds, to the Unix epoch. *)
Definition unixToInternal : Z := 62135596800.

(** [time.Unix(sec, 0)]: the instant holds [sec + unixToInternal] as a
    64-bit integer, which wraps around for [sec] near the largest
    [int64]. *)
Definition time_Unix (sec : Z) : Z :=
  (wrap_int (sec + unixToInternal) - unixToInternal) * 1000000000.

(** [a.After(b)] *)
Definition After (a b : Z) : bool := Z.ltb b a.

(** ** Encoding of the response

    [c.IndentedJSON] renders its argument with [json.MarshalIndent] before
    it writes anything.  [encoding/json] refuses a [float64] that is NaN or
    an infinity (an [UnsupportedValueError]); the body of the response
    then stays empty. *)

Definition json_number (x : float) : bool :=
  match Prim2SF x with
  | S754_zero _ | S754_finite _ _ _ => true
  | S754_infinity _ | S754_nan => false
  end.

Inductive response (A : Type) : Type :=
| Body (data : A)
| NoBody (err : string).
Arguments Body {A} data.
Arguments NoBody {A} err.

(** [floats] lists the [float64] fields of a row. *)
Definition IndentedJSON {A : Type} (floats : A -> list float) (Data : list A)
    : response (list A) :=
  if forallb (fun row => forallb json_number (floats row)) Data
  then Body Data
  else NoBody "json: unsupported value".

Module MLB.

(** Modelled from the spec: the declaration of [Pitcher] is missing from the
    sources.  It is the ProjectionRecord of the pitchers path, with the
    fields the loop body assigns; the handler keeps one working value of it
    across the slots and appends copies to the output. *)
Record Pitcher := {
  ProbablePitcher : bool;
  LikelyPitcher : bool;
  Status : string;
  Game_gameDate : string;
  ProjPoints : float;
  ProjPointsList : list Z;
  Games_sim_cume_points : float;
  Game_game_Pk : Z;
  Game_game_no : Z;
  Game_opp_prob_phand : string;
  Game_opp_prob_pitcher : Z;
  Game_opponent : Z;
  Game_opponent_name : string;
  Game_s_deviation : float;
  Game_sim_cume_games : Z;
  Game_venue : Z;
  Game_team_oddspoints : float;
  Game_player_oddsfactor : float;
  Game_opponent_oddspoints : float;
  Full_name : string;
  Mlb_id : Z;
  Team_name : string;
  Positions : list string;
  Salary : Z;
  RosterSlotId : Z;
  Lineup_selected : Z;
  Draftable_uid : string
}.

(** [var FinalPitcher Pitcher] *)
Definition zeroPitcher : Pitcher := {|
  ProbablePitcher := false; LikelyPitcher := false; Status := "";
  Game_gameDate := ""; ProjPoints := 0; ProjPointsList := [];
  Games_sim_cume_points := 0; Game_game_Pk := 0; Game_game_no := 0;
  Game_opp_prob_phand := ""; Game_opp_prob_pitcher := 0; Game_opponent := 0;
  Game_opponent_name := ""; Game_s_deviation := 0; Game_sim_cume_games := 0;
  Game_venue := 0; Game_team_oddspoints := 0; Game_player_oddsfactor := 0;
  Game_opponent_oddspoints := 0; Full_name := ""; Mlb_id := 0; Team_name := "";
  Positions := []; Salary := 0; RosterSlotId := 0; Lineup_selected := 0;
  Draftable_uid := ""
|}.

(** The scan of the slot's game attributes (main.go 1324-1336). *)
Definition probable_of (attrs : list DK.PlayerGameAttribute) : bool :=
  fold_left
    (fun b value =>
       if (DK.Id value =? 1)%Z
       then if String.eqb (DK.Value value) "true" then true else b
       else b)
    attrs false.

Definition likely_of (attrs : list DK.PlayerGameAttribute) : bool :=
  fold_left
    (fun b value =>
       if (DK.Id value =? 1)%Z then b
       else if (DK.Id value =? 137)%Z
       then if String.eqb (DK.Value value) "true" then true else b
       else b)
    attrs false.

(** Assignments before the game loop (main.go 1324-1360).  The working
    record is declared outside the slot loop: a field this block does not
    assign keeps the value the previous slot left in it. *)
Definition reset (p : Pitcher) (s : DK.Draftable) : Pitcher :=
  {| ProbablePitcher := probable_of (DK.PlayerGameAttributes s);
     LikelyPitcher := likely_of (DK.PlayerGameAttributes s);
     Status := DK.Status s;
     Game_gameDate := "";
     ProjPoints := 0;
     ProjPointsList := ProjPointsList p;
     Games_sim_cume_points := 0;
     Game_game_Pk := 0;
     Game_game_no := 0;
     Game_opp_prob_phand := "R";
     Game_opp_prob_pitcher := 0;
     Game_opponent := 0;
     Game_opponent_name := "";
     Game_s_deviation := 0;
     Game_sim_cume_games := 0;
     Game_venue := 0;
     Game_team_oddspoints := 0;
     Game_player_oddsfactor := 0;
     Game_opponent_oddspoints := 0;
     Full_name := Full_name p;
     Mlb_id := Mlb_id p;
     Team_name := Team_name p;
     Positions := Positions p;
     Salary := Salary p;
     RosterSlotId := RosterSlotId p;
     Lineup_selected := Lineup_selected p;
     Draftable_uid := Draftable_uid p |}.

(** The three assignments of the odds scan (main.go 1372-1374). *)
Definition set_odds (p : Pitcher) (team factor opponent : float) : Pitcher :=
  {| ProbablePitcher := ProbablePitcher p;
     LikelyPitcher := LikelyPitcher p;
     Status := Status p;
     Game_gameDate := Game_gameDate p;
     ProjPoints := ProjPoints p;
     ProjPointsList := ProjPointsList p;
     Games_sim_cume_points := Games_sim_cume_points p;
     Game_game_Pk := Game_game_Pk p;
     Game_game_no := Game_game_no p;
     Game_opp_prob_phand := Game_opp_prob_phand p;
     Game_opp_prob_pitcher := Game_opp_prob_pitcher p;
     Game_opponent := Game_opponent p;
     Game_opponent_name := Game_opponent_name p;
     Game_s_deviation := Game_s_deviation p;
     Game_sim_cume_games := Game_sim_cume_games p;
     Game_venue := Game_venue p;
     Game_team_oddspoints := team;
     Game_player_oddsfactor := factor;
     Game_opponent_oddspoints := opponent;
     Full_name := Full_name p;
     Mlb_id := Mlb_id p;
     Team_name := Team_name p;
     Positions := Positions p;
     Salary := Salary p;
     RosterSlotId := RosterSlotId p;
     Lineup_selected := Lineup_selected p;
     Draftable_uid := Draftable_uid p |}.

(** The assignments of the selected game (main.go 1379-1517), in the
    DraftKings branch of the service dispatch: this path runs under
    [contextService == "draftkings"]. *)
Definition set_game (p : Pitcher) (g_value : MLBsim.Game) (c : Counters) : Pitcher :=
  {| ProbablePitcher := ProbablePitcher p;
     LikelyPitcher := LikelyPitcher p;
     Status := Status p;
     Game_gameDate := MLBsim.GameDate g_value;
     ProjPoints := MLBsim.Draftkings_proj_points g_value;
     ProjPointsList := tempPointsList c;
     Games_sim_cume_points := MLBsim.Draftkings_cume_points g_value;
     Game_game_Pk := MLBsim.Game_Pk g_value;
     Game_game_no := MLBsim.Game_no g_value;
     Game_opp_prob_phand := MLBsim.Opp_prob_phand g_value;
     Game_opp_prob_pitcher := MLBsim.Opp_prob_pitcher g_value;
     Game_opponent := MLBsim.Opponent g_value;
     Game_opponent_name := MLBsim.Opponent_name g_value;
     Game_s_deviation := MLBsim.S_deviation g_value;
     Game_sim_cume_games := MLBsim.Sim_cume_games g_value;
     Game_venue := MLBsim.Venue g_value;
     Game_team_oddspoints := Game_team_oddspoints p;
     Game_player_oddsfactor := Game_player_oddsfactor p;
     Game_opponent_oddspoints := Game_opponent_oddspoints p;
     Full_name := Full_name p;
     Mlb_id := Mlb_id p;
     Team_name := Team_name p;
     Positions := Positions p;
     Salary := Salary p;
     RosterSlotId := RosterSlotId p;
     Lineup_selected := Lineup_selected p;
     Draftable_uid := Draftable_uid p |}.

(** [fmt.Sprint(s.PlayerDkId, "_", lookup, "_", s.Position, "_", "_",
    FinalPitcher.Mlb_id, "_", FinalPitcher.Salary)] *)
Definition uid_of (dkid lookup : Z) (position : string) (mlb_id salary : Z) : string :=
  Sprint_int dkid ++ "_" ++ Sprint_int lookup ++ "_" ++ position ++ "_" ++ "_"
    ++ Sprint_int mlb_id ++ "_" ++ Sprint_int salary.

(** Assignments after the game loop (main.go 1521-1561). *)
Definition finish (p : Pitcher) (s : DK.Draftable) (lookup : Z)
    (sim : MLBsim.Pitcher) : Pitcher :=
  let positions := map ToLower (Split (DK.Position s) "/") in
  let mlb_id := lookup in
  let positions :=
    if (DK.RosterSlotId s =? 573)%Z then (positions ++ ["cpt"])%list else positions in
  let mlb_id :=
    if (DK.RosterSlotId s =? 573)%Z then wrap_int (lookup * 1000) else mlb_id in
  let positions :=
    if (DK.RosterSlotId s =? 574)%Z then (positions ++ ["util"])%list else positions in
  let mlb_id :=
    if (DK.RosterSlotId s =? 574)%Z then wrap_int (lookup * 10000) else mlb_id in
  {| ProbablePitcher := ProbablePitcher p;
     LikelyPitcher := LikelyPitcher p;
     Status := Status p;
     Game_gameDate := Game_gameDate p;
     ProjPoints := ProjPoints p;
     ProjPointsList := ProjPointsList p;
     Games_sim_cume_points := Games_sim_cume_points p;
     Game_game_Pk := Game_game_Pk p;
     Game_game_no := Game_game_no p;
     Game_opp_prob_phand := Game_opp_prob_phand p;
     Game_opp_prob_pitcher := Game_opp_prob_pitcher p;
     Game_opponent := Game_opponent p;
     Game_opponent_name := Game_opponent_name p;
     Game_s_deviation := Game_s_deviation p;
     Game_sim_cume_games := Game_sim_cume_games p;
     Game_venue := Game_venue p;
     Game_team_oddspoints := Game_team_oddspoints p;
     Game_player_oddsfactor := Game_player_oddsfactor p;
     Game_opponent_oddspoints := Game_opponent_oddspoints p;
     Full_name := DK.DisplayName s;
     Mlb_id := mlb_id;
     Team_name := MLBsim.Team_name sim;
     Positions := positions;
     Salary := DK.Salary s;
     RosterSlotId := DK.RosterSlotId s;
     Lineup_selected := 0;
     Draftable_uid :=
       uid_of (DK.PlayerDkId s) lookup (DK.Position s) mlb_id (DK.Salary s) |}.

(** The handler's variables that outlive one slot. *)
Record State := {
  FinalPitcher : Pitcher;
  FinalPitcherKeys : list string;
  Data : list Pitcher
}.

Definition initial : State :=
  {| FinalPitcher := zeroPitcher; FinalPitcherKeys := []; Data := [] |}.

(** The gate of the pitchers path (main.go 1562-1567). *)
Definition gate (keys : list string) (data : list Pitcher) (p : Pitcher) : State :=
  if implContains keys (Draftable_uid p)
  then {| FinalPitcher := p; FinalPitcherKeys := keys; Data := data |}
  else if negb (ProbablePitcher p)
  then {| FinalPitcher := p; FinalPitcherKeys := keys; Data := data |}
  else {| FinalPitcher := p;
          FinalPitcherKeys := (keys ++ [Draftable_uid p])%list;
          Data := (data ++ [p])%list |}.

Section Handler.

(** [time.Parse(time.RFC3339, _)]: the instant, or [None] for the error
    return. *)
Variable time_Parse : string -> option Z.

Variable Keys : gmap string ServiceKey.
Variable pitchers : gmap string MLBsim.Pitcher.
Variable oddsDat : gmap string ODDS.Team.
Variable TeamKeys : gmap string TeamPoints.

Definition parse_or_panic (value : string) : result Z :=
  match time_Parse value with
  | Some t => Ok t
  | None => Panic "time.Parse"
  end.

(** Body of [for ix, odds_values := range oddsGames] (main.go 1369-1377):
    it ends in an unconditional [break]. *)
Definition odds_body (tmpTeamId : string) (gameTime : Z) (g_value : MLBsim.Game)
    (ix : nat) (odds_values : ODDS.Game) (p : Pitcher) : result (Pitcher * ctl) :=
  let odds_commence_time := time_Unix (ODDS.Commence_time odds_values) in
  if After gameTime odds_commence_time then
    match ODDS.Games (index ODDS.zero oddsDat (Sprint_int (MLBsim.Opponent g_value))) !! ix with
    | Some opp =>
        Ok (set_odds p
              (ODDS.Points odds_values)
              (ODDS.Points odds_values / Avg_points (index zeroTeamPoints TeamKeys tmpTeamId))%float
              (ODDS.Points opp),
            Break)
    | None => Panic "index out of range"
    end
  else Ok (p, Break).

(** The Odds Enricher: [for ix, odds_values := range oddsGames]. *)
Definition odds_scan (tmpTeamId : string) (gameTime : Z) (g_value : MLBsim.Game)
    (p : Pitcher) : result Pitcher :=
  let oddsGames := ODDS.Games (index ODDS.zero oddsDat tmpTeamId) in
  range_loop (odds_body tmpTeamId gameTime g_value) 0 oddsGames p.

(** Body of [for _, g_value := range pitchers[...].Games]
    (main.go 1361-1520). *)
Definition game_body (tmpTeamId : string) (t : Z)
    (ix : nat) (g_value : MLBsim.Game) (pc : Pitcher * Counters)
    : result (Pitcher * Counters * ctl) :=
  let '(p, c) := pc in
  gameTime <-! parse_or_panic (MLBsim.GameDate g_value);
  let gameTime := gameTime + Hour in
  p <-! odds_scan tmpTeamId gameTime g_value p;
  if After gameTime t then
    let c := count_values c (MLBsim.Dk_points_list g_value) in
    Ok (set_game p g_value c, c, Break)
  else Ok (p, c, Continue).

(** The Game Selector: the loop over the athlete's ledger, entered with the
    slot's counters at zero. *)
Definition game_loop (tmpTeamId : string) (t : Z) (games : list MLBsim.Game)
    (p : Pitcher) : result (Pitcher * Counters) :=
  range_loop (game_body tmpTeamId t) 0 games (p, zeroCounters).

Definition is_pitcher_slot (s : DK.Draftable) : bool :=
  (Contains (DK.Position s) "SP" || Contains (DK.Position s) "RP")%bool.

(** [lookup = Keys[fmt.Sprint(s.PlayerDkId)].PlayerID] *)
Definition lookup_of (s : DK.Draftable) : Z :=
  PlayerID (index zeroServiceKey Keys (Sprint_int (DK.PlayerDkId s))).

(** [pitchers[fmt.Sprint(lookup)]] *)
Definition sim_of (s : DK.Draftable) : MLBsim.Pitcher :=
  index MLBsim.zero pitchers (Sprint_int (lookup_of s)).

(** The slot's record as it stands when the gate is reached
    (main.go 1317-1561). *)
Definition assemble (FinalPitcher : Pitcher) (s : DK.Draftable) : result Pitcher :=
  let lookup := lookup_of s in
  let tmpTeamId := MLBsim.Team_id (sim_of s) in
  t <-! parse_or_panic (DK.StartTime (DK.Competition s));
  let p := reset FinalPitcher s in
  pc <-! game_loop tmpTeamId t (MLBsim.Games (sim_of s)) p;
  Ok (finish (fst pc) s lookup (sim_of s)).

(** Body of [for _, s := range draftables.Draftables] (main.go 1313-1570). *)
Definition slot (st : State) (s : DK.Draftable) : result State :=
  if is_pitcher_slot s then
    p <-! assemble (FinalPitcher st) s;
    Ok (gate (FinalPitcherKeys st) (Data st) p)
  else Ok st.

Fixpoint slots (draftables : list DK.Draftable) (st : State) : result State :=
  match draftables with
  | [] => Ok st
  | s :: rest => st' <-! slot st s; slots rest st'
  end.

(** The pitchers path: what [c.IndentedJSON] is handed after the loop,
    or the panic that ended the request before it. *)
Definition handler (draftables : list DK.Draftable) : result (list Pitcher) :=
  st <-! slots draftables initial;
  Ok (Data st).

(** Modelled from the spec: the declaration of [Pitcher] being missing, so
    are its JSON tags; the rows are serialized with the fields of the
    ProjectionRecord (spec, section 6), the odds-derived factor among them.
    These are the [float64] fields of a row. *)
Definition floats (p : Pitcher) : list float :=
  [ProjPoints p; Games_sim_cume_points p; Game_s_deviation p;
   Game_team_oddspoints p; Game_player_oddsfactor p; Game_opponent_oddspoints p].

(** The block of the pitchers context with its last statement,
    [c.IndentedJSON(http.StatusOK, FinalPitchers)] (main.go 1312-1572). *)
Definition pitchers_draftkings (draftables : list DK.Draftable)
    : result (response (list Pitcher)) :=
  out <-! handler draftables;
  Ok (IndentedJSON floats out).

End Handler.

End MLB.

(** ** Order of binary64 values

    A key under which the comparisons of two values that are not NaN are
    the lexicographic comparisons of integers: sign class, then exponent,
    then mantissa. *)

Definition rank (f : spec_float) : Z * Z * Z :=
  match f with
  | S754_nan => (0, 0, 0)
  | S754_zero _ => (0, 0, 0)
  | S754_infinity true => (-2, 0, 0)
  | S754_infinity false => (2, 0, 0)
  | S754_finite true m e => (-1, - e, - Zpos m)
  | S754_finite false m e => (1, e, Zpos m)
  end.

Definition lt3 (r1 r2 : Z * Z * Z) : Prop :=
  let '(a1, b1, c1) := r1 in
  let '(a2, b2, c2) := r2 in
  a1 < a2 \/ (a1 = a2 /\ (b1 < b2 \/ (b1 = b2 /\ c1 < c2))).

Definition le3 (r1 r2 : Z * Z * Z) : Prop :=
  let '(a1, b1, c1) := r1 in
  let '(a2, b2, c2) := r2 in
  a1 < a2 \/ (a1 = a2 /\ (b1 < b2 \/ (b1 = b2 /\ c1 <= c2))).

Definition frank (x : float) : Z * Z * Z := rank (Prim2SF x).

(** A sample as [json.Unmarshal] can deliver it: JSON has no literal for
    NaN, so no decoded number is one. *)
Definition decoded (sample : list float) : Prop :=
  Forall (fun value => is_nan value = false) sample.

(** ** An instance of [time.Parse(time.RFC3339, _)]

    The UTC layout [YYYY-MM-DDTHH:MM:SSZ], enough to run the handler on
    concrete feeds; the statements below hold for any parser. *)

Definition digit (c : ascii) : option Z :=
  let n := Z.of_nat (nat_of_ascii c) in
  if ((48 <=? n)%Z && (n <=? 57)%Z)%bool then Some (n - 48) else None.

Fixpoint digits (cs : list ascii) (acc : Z) : option Z :=
  match cs with
  | [] => Some acc
  | c :: cs' =>
      match digit c with
      | Some d => digits cs' (10 * acc + d)
      | None => None
      end
  end.

Definition leap (y : Z) : bool :=
  ((y mod 4 =? 0)%Z && (negb (y mod 100 =? 0)%Z || (y mod 400 =? 0)%Z))%bool.

Definition days_in (y m : Z) : Z :=
  if (m =? 2)%Z then (if leap y then 29 else 28)
  else if ((m =? 4)%Z || (m =? 6)%Z || (m =? 9)%Z || (m =? 11)%Z)%bool then 30
  else 31.

(** Days from 1970-01-01 to the civil date [y]-[m]-[d]. *)
Definition days_from_civil (y m d : Z) : Z :=
  let y' := if (m <=? 2)%Z then y - 1 else y in
  let era := y' / 400 in
  let yoe := y' - era * 400 in
  let mp := if (m >? 2)%Z then m - 3 else m + 9 in
  let doy := (153 * mp + 2) / 5 + d - 1 in
  let doe := yoe * 365 + yoe / 4 - yoe / 100 + doy in
  era * 146097 + doe - 719468.

Definition parseRFC3339 (value : string) : option Z :=
  match list_ascii_of_string value with
  | [y1; y2; y3; y4; "-"; m1; m2; "-"; d1; d2; "T"; h1; h2; ":"; n1; n2; ":"; s1; s2; "Z"]%char =>
      match digits [y1; y2; y3; y4] 0, digits [m1; m2] 0, digits [d1; d2] 0,
            digits [h1; h2] 0, digits [n1; n2] 0, digits [s1; s2] 0 with
      | Some y, Some m, Some d, Some h, Some n, Some sec =>
          if ((1 <=? m)%Z && (m <=? 12)%Z && (1 <=? d)%Z && (d <=? days_in y m)%Z
              && (h <? 24)%Z && (n <? 60)%Z && (sec <? 60)%Z)%bool
          then Some ((days_from_civil y m d * 86400 + h * 3600 + n * 60 + sec) * 1000000000)
          else None
      | _, _, _, _, _, _ => None
      end
  | _ => None
  end.

(** ** Auxiliary notions for the statements *)

Definition chars (s : string) : list ascii := list_ascii_of_string s.

Definition underscore : ascii := "_"%char.

(** What the NFL accumulators satisfy throughout a pass: the key list is
    the list of the UIDs of the emitted rows, and it has no repetition. *)
Definition consistent (acc : NFL.Acc) : Prop :=
  NFL.FinalNFLPlayerKeys acc = map NFL.Draftable_uid (NFL.Data acc)
  /\ NoDup (NFL.FinalNFLPlayerKeys acc).

(** ** Concrete feeds *)

Module Feed.

Definition Keys : gmap string ServiceKey :=
  {[ "1001" := {| PlayerID := 42; Dkid := 1001 |};
     "1002" := {| PlayerID := 43; Dkid := 1002 |} ]}.

Definition nfl_players : gmap string NFLsim.Player :=
  {[ "42" := {| NFLsim.Player_position := "RB"; NFLsim.Game_team_id := 7;
                NFLsim.Game_team_name := "Bears";
                NFLsim.Dk_classic_points_mean := 12.5;
                NFLsim.Dk_classic_points_list := [(-5)%float; 0%float; 9%float; 15%float; 61%float];
                NFLsim.Dk_classic_points_std := 4; NFLsim.Dk_classic_cume_points := 30;
                NFLsim.Dk_showdown_points_mean := 14;
                NFLsim.Dk_showdown_points_list := [12.5%float; 33%float];
                NFLsim.Dk_showdown_points_std := 5; NFLsim.Dk_showdown_cume_points := 45.5;
                NFLsim.Game_date_unix := 1696179600; NFLsim.Game_week := 4;
                NFLsim.Game_opp_id := 9; NFLsim.Game_opp_name := "Lions";
                NFLsim.Game_points_for := 21.5; NFLsim.Game_points_against := 24;
                NFLsim.Game_venue_id := 3; NFLsim.Game_venue_name := "Soldier Field" |} ]}.

Definition slot (dkid : Z) (position : string) (salary rosterSlot : Z)
    (attrs : list DK.PlayerGameAttribute) (start : string) : DK.Draftable :=
  {| DK.PlayerDkId := dkid; DK.DisplayName := "Player"; DK.Position := position;
     DK.Salary := salary; DK.RosterSlotId := rosterSlot; DK.Status := "";
     DK.PlayerGameAttributes := attrs;
     DK.Competition := {| DK.StartTime := start |} |}.

Definition kickoff : string := "2023-10-01T17:00:00Z".

(** Two rows of one listing for the same athlete, position and salary; the
    first is marked as not in the lineup. *)
Definition benched : DK.Draftable :=
  slot 1001 "RB" 5000 70 [{| DK.Id := 100; DK.Value := "false" |}] kickoff.
Definition active : DK.Draftable := slot 1001 "RB" 5000 70 [] kickoff.

(** The captain and the flex row of one athlete in a showdown listing. *)
Definition captain : DK.Draftable := slot 1001 "RB" 15000 511 [] kickoff.
Definition flex : DK.Draftable := slot 1001 "RB" 10000 512 [] kickoff.

(** A row whose provider id the crosswalk does not know. *)
Definition stranger : DK.Draftable := slot 9999 "WR" 4000 70 [] kickoff.

(** The pitchers feeds.  The slate starts at [kickoff]; athlete 42 has a
    game a week before it, one an hour after it and one five days later;
    athlete 43 has no game left. *)
Definition game (date : string) (opponent : Z) (sample : list float) : MLBsim.Game :=
  {| MLBsim.GameDate := date; MLBsim.Opponent := opponent;
     MLBsim.Opponent_name := "Opponent";
     MLBsim.Draftkings_proj_points := 17.5; MLBsim.Dk_points_list := sample;
     MLBsim.Draftkings_cume_points := 35; MLBsim.Game_Pk := 717;
     MLBsim.Game_no := 1; MLBsim.Opp_prob_phand := "L";
     MLBsim.Opp_prob_pitcher := 55; MLBsim.S_deviation := 6;
     MLBsim.Sim_cume_games := 2; MLBsim.Venue := 12 |}.

Definition last_week : MLBsim.Game := game "2023-09-24T18:00:00Z" 9 [3%float].
Definition tonight : MLBsim.Game := game "2023-10-01T18:00:00Z" 9 [5%float; 25%float].
Definition next_week : MLBsim.Game := game "2023-10-06T18:00:00Z" 9 [61%float].
Definition undated : MLBsim.Game := game "TBD" 9 [].

Definition pitchers : gmap string MLBsim.Pitcher :=
  {[ "42" := {| MLBsim.Team_id := "7"; MLBsim.Team_name := "Cubs";
                MLBsim.Games := [last_week; tonight; next_week] |};
     "43" := {| MLBsim.Team_id := "8"; MLBsim.Team_name := "Reds";
                MLBsim.Games := [last_week] |} ]}.

(** The ledger of athlete 42 with an entry after tonight's game whose date
    does not parse. *)
Definition pitchers_undated : gmap string MLBsim.Pitcher :=
  {[ "42" := {| MLBsim.Team_id := "7"; MLBsim.Team_name := "Cubs";
                MLBsim.Games := [last_week; tonight; undated] |} ]}.

Definition oddsDat : gmap string ODDS.Team :=
  {[ "7" := {| ODDS.Games := [ {| ODDS.Commence_time := 1696183200; ODDS.Points := 4.5 |};
                               {| ODDS.Commence_time := 1696615200; ODDS.Points := 5.5 |} ] |};
     "9" := {| ODDS.Games := [ {| ODDS.Commence_time := 1696183200; ODDS.Points := 3.5 |} ] |} ]}.

Definition TeamKeys : gmap string TeamPoints :=
  {[ "7" := {| TeamID := 7; Team_name := "Cubs"; Avg_points := 4.5 |} ]}.

(** A team average table that has no row for team 7. *)
Definition TeamKeys_empty : gmap string TeamPoints := ∅.

Definition probable : list DK.PlayerGameAttribute := [{| DK.Id := 1; DK.Value := "true" |}].

Definition ace : DK.Draftable := slot 1001 "SP" 9800 0 probable kickoff.
Definition idle : DK.Draftable := slot 1002 "SP" 6100 0 probable kickoff.
Definition reliever : DK.Draftable :=
  slot 1001 "RP" 4000 0 [{| DK.Id := 100; DK.Value := "true" |}] kickoff.
Definition shortstop : DK.Draftable := slot 1002 "SS" 5200 0 probable "TBD".
Definition unscheduled : DK.Draftable := slot 1001 "SP" 9800 0 probable "TBD".

(** The ledger of athlete 42 with an entry before tonight's game whose date
    does not parse. *)
Definition pitchers_unreadable : gmap string MLBsim.Pitcher :=
  {[ "42" := {| MLBsim.Team_id := "7"; MLBsim.Team_name := "Cubs";
                MLBsim.Games := [last_week; undated; tonight] |} ]}.

(** [kickoff], and the start of tonight's game, as instants. *)
Definition kickoff_ns : Z := 1696179600000000000.
Definition tonight_ns : Z := 1696183200000000000.

End Feed.

(** ** Notions for the statements about the pitchers path *)

(** A ledger entry whose date parses and whose adjusted time is not after
    the reference instant, respectively is after it. *)
Definition past (time_Parse : string -> option Z) (t : Z) (g : MLBsim.Game) : Prop :=
  exists tg, time_Parse (MLBsim.GameDate g) = Some tg /\ After (tg + Hour) t = false.

Definition upcoming (time_Parse : string -> option Z) (t : Z) (g : MLBsim.Game) : Prop :=
  exists tg, time_Parse (MLBsim.GameDate g) = Some tg /\ After (tg + Hour) t = true.

(** The opponent of the entry has an odds list with an entry at index 0. *)
Definition opponent_listed (oddsDat : gmap string ODDS.Team) (g : MLBsim.Game) : Prop :=
  ODDS.Games (index ODDS.zero oddsDat (Sprint_int (MLBsim.Opponent g))) <> [].

(** The odds fields of a row. *)
Definition odds_fields (p : MLB.Pitcher) : float * float * float :=
  (MLB.Game_team_oddspoints p, MLB.Game_player_oddsfactor p, MLB.Game_opponent_oddspoints p).

(** The scalar game-context fields of a row, and the values the block
    before the game loop gives them. *)
Definition game_context (p : MLB.Pitcher)
    : string * float * float * Z * Z * string * Z * Z * string * float * Z * Z :=
  (MLB.Game_gameDate p, MLB.ProjPoints p, MLB.Games_sim_cume_points p,
   MLB.Game_game_Pk p, MLB.Game_game_no p, MLB.Game_opp_prob_phand p,
   MLB.Game_opp_prob_pitcher p, MLB.Game_opponent p, MLB.Game_opponent_name p,
   MLB.Game_s_deviation p, MLB.Game_sim_cume_games p, MLB.Game_venue p).

Definition default_context
    : string * float * float * Z * Z * string * Z * Z * string * float * Z * Z :=
  ("", 0%float, 0%float, 0, 0, "R", 0, 0, "", 0%float, 0, 0).

Definition context_of (g : MLBsim.Game)
    : string * float * float * Z * Z * string * Z * Z * string * float * Z * Z :=
  (MLBsim.GameDate g, MLBsim.Draftkings_proj_points g, MLBsim.Draftkings_cume_points g,
   MLBsim.Game_Pk g, MLBsim.Game_no g, MLBsim.Opp_prob_phand g,
   MLBsim.Opp_prob_pitcher g, MLBsim.Opponent g, MLBsim.Opponent_name g,
   MLBsim.S_deviation g, MLBsim.Sim_cume_games g, MLBsim.Venue g).

(** An odds table cut down to the entry at index 0 of every team. *)
Definition first_only (oddsDat : gmap string ODDS.Team) : gmap string ODDS.Team :=
  (fun team => {| ODDS.Games := take 1 (ODDS.Games team) |}) <$> oddsDat.

(** The slot carries the attribute that marks a probable pitcher. *)
Definition marked_probable (s : DK.Draftable) : Prop :=
  exists value, value ∈ DK.PlayerGameAttributes s
                /\ DK.Id value = 1 /\ DK.Value value = "true".

(** The scan leaves the row as it is or assigns its three odds fields. *)
Definition odds_only (p p' : MLB.Pitcher) : Prop :=
  p' = p \/ exists a b c, p' = MLB.set_odds p a b c.

(** No scan at an adjusted game time up to [bound] assigns anything: the
    team has no odds entry, or its first entry does not commence before
    [bound]. *)
Definition quiet (oddsDat : gmap string ODDS.Team) (tmpTeamId : string) (bound : Z) : Prop :=
  match ODDS.Games (index ODDS.zero oddsDat tmpTeamId) with
  | [] => True
  | odds_values :: _ => After bound (time_Unix (ODDS.Commence_time odds_values)) = false
  end.

(** The odds test succeeds at a ledger entry: its date parses and the first
    odds entry of the team commences before its adjusted time. *)
Definition matches (time_Parse : string -> option Z) (oddsDat : gmap string ODDS.Team)
    (tmpTeamId : string) (g : MLBsim.Game) : Prop :=
  exists tg odds_values rest,
    time_Parse (MLBsim.GameDate g) = Some tg
    /\ ODDS.Games (index ODDS.zero oddsDat tmpTeamId) = odds_values :: rest
    /\ After (tg + Hour) (time_Unix (ODDS.Commence_time odds_values)) = true.

(** The odds scan at a ledger entry stays within the opponent's list: where
    the odds test succeeds, the opponent has an odds entry at index 0. *)
Definition scan_completes (time_Parse : string -> option Z)
    (oddsDat : gmap string ODDS.Team) (tmpTeamId : string) (g : MLBsim.Game) : Prop :=
  matches time_Parse oddsDat tmpTeamId g -> opponent_listed oddsDat g.

(** The entries [scanned] are those that the scan of [ledger] reads: all of
    them when none is upcoming, otherwise those up to the first upcoming
    one. *)
Definition reads (time_Parse : string -> option Z) (t : Z)
    (ledger scanned : list MLBsim.Game) : Prop :=
  (Forall (past time_Parse t) ledger /\ scanned = ledger)
  \/ exists pre gs post,
       ledger = (pre ++ gs :: post)%list
       /\ Forall (past time_Parse t) pre
       /\ upcoming time_Parse t gs
       /\ scanned = (pre ++ [gs])%list.

(** ** Loading the crosswalk and the team averages

    The rows of the two queries as [rows.Scan] delivers them; of the
    crosswalk columns the two that [ServiceKey] keeps here. *)

(** Body of [for rows.Next()] in the DraftKings branches (main.go 424-432,
    446-452): the row is the pair of the scanned [key.PlayerID] and
    [playerid]. *)
Definition scan_key (Keys : gmap string ServiceKey) (row : Z * Z) : gmap string ServiceKey :=
  let '(player_id, playerid) := row in
  let key := {| PlayerID := player_id; Dkid := playerid |} in
  <[Sprint_int playerid := key]> Keys.

(** [Keys := map[string]ServiceKey{}] and the loop over the rows. *)
Definition load_Keys (rows : list (Z * Z)) : gmap string ServiceKey :=
  fold_left scan_key rows ∅.

(** Body of [for rows_team.Next()] (main.go 480-489): the row is the triple
    of the scanned [teamId], [teamKey.Team_name] and [teamKey.Avg_points]. *)
Definition scan_team (TeamKeys : gmap string TeamPoints) (row : Z * string * float)
    : gmap string TeamPoints :=
  let '(teamId, team_name, avg_points) := row in
  let teamKey := {| TeamID := teamId; Team_name := team_name; Avg_points := avg_points |} in
  <[Sprint_int teamId := teamKey]> TeamKeys.

Definition load_TeamKeys (rows : list (Z * string * float)) : gmap string TeamPoints :=
  fold_left scan_team rows ∅.

(** ** Selection of the slate and dispatch of the NFL DraftKings blocks *)

(** Modelled from the spec: the declaration of [SlatesData] is missing from
    the sources.  A slate (spec, glossary) is the set of games of one
    contest; the handler reads its draft group, rendered with [fmt.Sprint]
    and taken here to be an integer id, its game type and its date string. *)
Record Slate := {
  Draft_group : Z;
  Game_type : string;
  Date_string : string
}.

(** The values of [game_type] and [fd_game_date] after main.go 513-524. *)
Definition select_slate (contextLeague contextDraftgroup : string) (slates : list Slate)
    : string * string :=
  if String.eqb contextLeague "NFL" then
    fold_left
      (fun selected s =>
         if String.eqb (Sprint_int (Draft_group s)) contextDraftgroup
         then (Game_type s, Date_string s)
         else selected)
      slates ("", "")
  else ("Nothing", "Nothing").

(** The two DraftKings blocks of the NFL context (main.go 849-1076 and
    1078-1310), run one after the other under
    [contextPosition == "nfl_players"] and [contextService == "draftkings"].
    They share the accumulators, and each block that runs ends by writing
    the accumulated rows to the response: the result is the list of the
    bodies written, in order. *)
Definition nfl_draftkings (game_type : string) (Keys : gmap string ServiceKey)
    (nfl_players : gmap string NFLsim.Player) (draftables : list DK.Draftable)
    : list (list NFL.NflPlayer) :=
  let acc := NFL.emptyAcc in
  let written := [] in
  let acc :=
    if Contains game_type "Classic"
    then NFL.pass (NFL.classic_record Keys nfl_players) draftables acc else acc in
  let written :=
    if Contains game_type "Classic" then (written ++ [NFL.Data acc])%list else written in
  let acc :=
    if Contains game_type "Showdown"
    then NFL.pass (NFL.showdown_record Keys nfl_players) draftables acc else acc in
  let written :=
    if Contains game_type "Showdown" then (written ++ [NFL.Data acc])%list else written in
  written.

(** ** NFL: FanDuel full roster *)

(** Modelled from the spec: the declaration of [FDplayers] is missing from
    the sources.  An entry of the FanDuel listing is a roster-slot entry
    (spec, section 3) with a string id, the athlete's names, a position and
    a list of positions, a salary, and the flags the block reads. *)
Module FD.

Record Player := {
  Id : string;
  First_name : string;
  Last_name : string;
  Position : string;
  Positions : list string;
  Draftable : bool;
  Injured : bool;
  Injury_status : string;
  Salary : Z
}.

(** The FanDuel fields of an entry of [nfl_players], with the fields of the
    matchup that the full-roster block copies ([NFLsim.Player] holds the
    DraftKings ones). *)
Record Sim := {
  Player_position : string;
  Game_team_name : string;
  Fd_classic_points_mean : float;
  Fd_classic_points_list : list float;
  Fd_classic_points_std : float;
  Fd_classic_cume_points : float;
  Game_date_unix : Z;
  Game_week : Z;
  Game_opp_id : Z;
  Game_opp_name : string;
  Game_points_for : float;
  Game_points_against : float;
  Game_venue_id : Z;
  Game_venue_name : string
}.

Definition zero : Sim := {|
  Player_position := ""; Game_team_name := "";
  Fd_classic_points_mean := 0; Fd_classic_points_list := [];
  Fd_classic_points_std := 0; Fd_classic_cume_points := 0;
  Game_date_unix := 0; Game_week := 0; Game_opp_id := 0; Game_opp_name := "";
  Game_points_for := 0; Game_points_against := 0;
  Game_venue_id := 0; Game_venue_name := ""
|}.

Section Tables.

Variable Keys : gmap string ServiceKey.
Variable nfl_players : gmap string Sim.
Variable fd_game_date : string.

(** [strings.Split(s.Id, "-")[1]] *)
Definition FDidLookup (s : Player) : result string :=
  match Split (Id s) "-" with
  | _ :: segment :: _ => Ok segment
  | _ => Panic "index out of range"
  end.

(** [fmt.Sprint(s.Id, "_", nfl_lookup, "_", s.Position, "_", "_",
    FinalNFLPlayer.Nfl_id, "_", FinalNFLPlayer.Salary)] *)
Definition uid_of (id : string) (lookup : Z) (position nfl_id : string) (salary : Z)
    : string :=
  id ++ "_" ++ Sprint_int lookup ++ "_" ++ position ++ "_" ++ "_"
    ++ nfl_id ++ "_" ++ Sprint_int salary.

(** Body of the full-roster loop up to the gate (main.go 620-836). *)
Definition fullroster_record (s : Player) : result NFL.NflPlayer :=
  FDidLookup <-! FDidLookup s;
  let nfl_lookup := PlayerID (index zeroServiceKey Keys FDidLookup) in
  let sim := index zero nfl_players (Sprint_int nfl_lookup) in
  let positions :=
    map (fun p => ToLower (if String.eqb p "D" then "def" else p)) (Positions s) in
  let positions :=
    if (implContains positions "rb" || implContains positions "wr"
        || implContains positions "te" || implContains positions "pk"
        || implContains positions "k")%bool
    then (positions ++ ["flex"])%list else positions in
  let player_injury_status := if Injured s then Injury_status s else "None" in
  let nfl_id := Sprint_int nfl_lookup in
  Ok {| NFL.Full_name := First_name s ++ " " ++ Last_name s;
        NFL.Nfl_id := nfl_id;
        NFL.Player_primary_position := Player_position sim;
        NFL.Team_name := Game_team_name sim;
        NFL.Positions := positions;
        NFL.Inlineup := Draftable s;
        NFL.Status :=
          if (String.eqb (Position s) "D" || String.eqb (Position s) "DEF")%bool
          then "None" else player_injury_status;
        NFL.Salary := Salary s;
        NFL.RosterSlotId := 0;
        NFL.Lineup_selected := 0;
        NFL.ProjPoints := Fd_classic_points_mean sim;
        NFL.ProjPointsList := histogram (Fd_classic_points_list sim);
        NFL.Game_date_unix := Game_date_unix sim;
        NFL.Game_gameDate := fd_game_date;
        NFL.Game_game_Pk := 1;
        NFL.Game_week := Game_week sim;
        NFL.Game_opponent := Game_opp_id sim;
        NFL.Game_opponent_name := Game_opp_name sim;
        NFL.Game_player_oddsfactor := 1;
        NFL.Game_team_oddspoints := Game_points_for sim;
        NFL.Game_opponent_oddspoints := Game_points_against sim;
        NFL.Game_s_deviation := Fd_classic_points_std sim;
        NFL.Games_sim_cume_points := Fd_classic_cume_points sim;
        NFL.Game_venue := Game_venue_id sim;
        NFL.Game_venue_name := Game_venue_name sim;
        NFL.Draftable_uid := uid_of (Id s) nfl_lookup (Position s) nfl_id (Salary s) |}.

(** [for _, s := range players.Players { ... }] *)
Fixpoint pass (players : list Player) (acc : NFL.Acc) : result NFL.Acc :=
  match players with
  | [] => Ok acc
  | s :: rest =>
      FinalNFLPlayer <-! fullroster_record s;
      pass rest (NFL.gate acc FinalNFLPlayer)
  end.

(** The full-roster block: what [c.IndentedJSON] is handed after the loop,
    or the panic that ended the request before it. *)
Definition fullroster (players : list Player) : result (list NFL.NflPlayer) :=
  acc <-! pass players NFL.emptyAcc;
  Ok (NFL.Data acc).

End Tables.

End FD.

(** The character that separates the segments of a FanDuel id. *)
Definition dash : ascii := "-"%char.

(** ** The activities handler of the Strava service (unnamed/part_000)

    [getStravaData], from the decoded list of activities to the value handed
    to [c.IndentedJSON]. *)

(** [t.Unix()]: the seconds since the epoch of an instant. *)
Definition Unix (t : Z) : Z := t / 1000000000.

(** [float64(n)] for an integer [n]: the nearest binary64 value, ties to
    even. *)
Definition float64_of_int (n : Z) : float :=
  SF2Prim (binary_normalize prec emax n 0 false).

(** The integral part of a finite value, towards zero. *)
Definition truncate (x : float) : option Z :=
  match Prim2SF x with
  | S754_zero _ => Some 0
  | S754_finite s m e =>
      let n := if (0 <=? e)%Z then Zpos m * 2 ^ e else Zpos m / 2 ^ (- e) in
      Some (if s then - n else n)
  | S754_infinity _ | S754_nan => None
  end.

(** [math.Round]: the nearest integer, halves away from zero; zeros,
    infinities and NaN are returned as they are. *)
Definition math_Round (x : float) : float :=
  match Prim2SF x with
  | S754_finite s m e =>
      if (0 <=? e)%Z then x
      else
        let d := 2 ^ (- e) in
        let q := Zpos m / d in
        let n := if (d <=? 2 * (Zpos m mod d))%Z then q + 1 else q in
        SF2Prim (binary_normalize prec emax (if s then - n else n) 0 s)
  | S754_zero _ | S754_infinity _ | S754_nan => x
  end.

(** The verb [%.0f] of [fmt.Sprintf]: the decimal rendering of the value
    rounded to an integer, ties to even, with the sign of the value. *)
Definition Sprintf_0f (x : float) : string :=
  match Prim2SF x with
  | S754_nan => "NaN"
  | S754_infinity false => "+Inf"
  | S754_infinity true => "-Inf"
  | S754_zero false => "0"
  | S754_zero true => "-0"
  | S754_finite s m e =>
      let n :=
        if (0 <=? e)%Z then Zpos m * 2 ^ e
        else
          let d := 2 ^ (- e) in
          let q := Zpos m / d in
          let r := Zpos m mod d in
          if (d <? 2 * r)%Z then q + 1
          else if (2 * r <? d)%Z then q
          else if Z.even q then q else q + 1 in
      (if s then "-" else "") ++ Sprint_int n
  end.

(** The fields of [ActivitySummary] that the handler reads. *)
Module ActivitySummary.

Record t := {
  Distance : float;
  MovingTime : Z;
  StartDate : string;
  StartDateLocal : string;
  TimeZone : string;
  UtcOffset : Z
}.

End ActivitySummary.

Module FinalActivity.

Record t := {
  Distance : float;
  MovingTime : Z;
  StartDate : string;
  StartDateLocal : string;
  StartDateUnix : Z;
  TimeZone : string;
  UtcOffset : Z;
  Miles : float;
  Minutes : float;
  Pace : float;
  DisplayPace : string
}.

End FinalActivity.

Module Strava.

Section Handler.

(** [time.Parse(time.RFC3339, _)]: the instant, or [None] for the error
    return. *)
Variable time_Parse : string -> option Z.

(** The conversion [int(x)] of a value that no [int] represents (NaN, an
    infinity, a value out of range) succeeds with a result that depends on
    the implementation: the integer it gives. *)
Variable int_unrepresentable : float -> Z.

(** [int(x)] *)
Definition int_of_float64 (x : float) : Z :=
  match truncate x with
  | Some n => if ((- 2 ^ 63 <=? n)%Z && (n <? 2 ^ 63)%Z)%bool then n
              else int_unrepresentable x
  | None => int_unrepresentable x
  end.

(** Body of [for _, a := range athActs] up to the [append]
    (part_000 238-266).  The factor is the binary64 value of the constant
    0.000621371. *)
Definition finalAct (a : ActivitySummary.t) : result FinalActivity.t :=
  time_temp <-! MLB.parse_or_panic time_Parse (ActivitySummary.StartDateLocal a);
  let miles := (ActivitySummary.Distance a * 0x1.45c700fd4d6a9p-11)%float in
  let minutes := (float64_of_int (ActivitySummary.MovingTime a) / 60)%float in
  let pace := (minutes / miles)%float in
  let hanging_decimal := (pace - float64_of_int (int_of_float64 pace))%float in
  let seconds := math_Round (hanging_decimal * 60)%float in
  let pace_down := float64_of_int (int_of_float64 pace) in
  Ok {| FinalActivity.Distance := ActivitySummary.Distance a;
        FinalActivity.MovingTime := ActivitySummary.MovingTime a;
        FinalActivity.StartDate := ActivitySummary.StartDate a;
        FinalActivity.StartDateLocal := ActivitySummary.StartDateLocal a;
        FinalActivity.StartDateUnix := Unix time_temp;
        FinalActivity.TimeZone := ActivitySummary.TimeZone a;
        FinalActivity.UtcOffset := ActivitySummary.UtcOffset a;
        FinalActivity.Miles := miles;
        FinalActivity.Minutes := minutes;
        FinalActivity.Pace := pace;
        FinalActivity.DisplayPace :=
          if (seconds <? 10)%float
          then Sprintf_0f pace_down ++ ":0" ++ Sprintf_0f seconds
          else Sprintf_0f pace_down ++ ":" ++ Sprintf_0f seconds |}.

(** The loop over [athActs], appending to [finalActs.Data]. *)
Fixpoint finalActs (athActs : list ActivitySummary.t) (Data : list FinalActivity.t)
    : result (list FinalActivity.t) :=
  match athActs with
  | [] => Ok Data
  | a :: rest =>
      row <-! finalAct a;
      finalActs rest (Data ++ [row])%list
  end.

(** The [float64] fields of a row; each has a JSON tag. *)
Definition floats (row : FinalActivity.t) : list float :=
  [FinalActivity.Distance row; FinalActivity.Miles row;
   FinalActivity.Minutes row; FinalActivity.Pace row].

(** The loop and [c.IndentedJSON(http.StatusOK, finalActs)]: the panic that
    ended the request, or the response. *)
Definition getStravaData (athActs : list ActivitySummary.t)
    : result (response (list FinalActivity.t)) :=
  Data <-! finalActs athActs [];
  Ok (IndentedJSON floats Data).

End Handler.

End Strava.

(** The copies that a row holds of the fields of its activity. *)
Definition copied (a : ActivitySummary.t) (row : FinalActivity.t) : Prop :=
  FinalActivity.Distance row = ActivitySummary.Distance a
  /\ FinalActivity.MovingTime row = ActivitySummary.MovingTime a
  /\ FinalActivity.StartDate row = ActivitySummary.StartDate a
  /\ FinalActivity.StartDateLocal row = ActivitySummary.StartDateLocal a
  /\ FinalActivity.TimeZone row = ActivitySummary.TimeZone a
  /\ FinalActivity.UtcOffset row = ActivitySummary.UtcOffset a.

(** ** Notions for the further properties *)

(** Counter-wise sum of two sets of counters. *)
Definition addC (a b : Counters) : Counters :=
  mkCounters (t_lessthan0 a + t_lessthan0 b) (t_one_nine a + t_one_nine b)
    (t_ten_nineteen a + t_ten_nineteen b) (t_twt_twtnine a + t_twt_twtnine b)
    (t_thr_thrnine a + t_thr_thrnine b) (t_for_fornine a + t_for_fornine b)
    (t_fft_fftnine a + t_fft_fftnine b) (t_sixty_plus a + t_sixty_plus b).

(** ** Further concrete feeds *)

Module Cases.

(** An odds table without a list for team 9, the opponent in the ledgers
    of [Feed.pitchers]. *)
Definition oddsDat_home_only : gmap string ODDS.Team :=
  {[ "7" := {| ODDS.Games := [ {| ODDS.Commence_time := 1696183200; ODDS.Points := 4.5 |} ] |} ]}.


(** Athlete 42 with tonight's game as the first entry of the ledger. *)
Definition pitchers_tonight : gmap string MLBsim.Pitcher :=
  {[ "42" := {| MLBsim.Team_id := "7"; MLBsim.Team_name := "Cubs";
                MLBsim.Games := [Feed.tonight; Feed.next_week] |} ]}.

(** A pitcher whose provider id the crosswalk does not know. *)
Definition unknown_pitcher : DK.Draftable :=
  Feed.slot 9999 "SP" 7000 0 Feed.probable Feed.kickoff.

(** A crosswalk query result in which the provider id 1001 occurs twice. *)
Definition key_rows : list (Z * Z) := [(41, 1001); (43, 1002); (42, 1001)].

(** A result of the team query with two rows for team 7. *)
Definition team_rows : list (Z * string * float) :=
  [(7, "Cubs", 4.5%float); (8, "Reds", 4%float); (7, "Chicago Cubs", 5%float)].

(** Slates of which two have the draft group 98765. *)
Definition slates : list Slate :=
  [ {| Draft_group := 98765; Game_type := "Showdown Captain Mode"; Date_string := "Sun" |};
    {| Draft_group := 11111; Game_type := "Classic"; Date_string := "Mon" |};
    {| Draft_group := 98765; Game_type := "Classic"; Date_string := "Thu" |} ].

(** FanDuel listings: an entry with a two-segment id, and one whose id has
    no dash. *)
Definition fd_keys : gmap string ServiceKey :=
  {[ "5501" := {| PlayerID := 42; Dkid := 1001 |} ]}.

Definition fd_sims : gmap string FD.Sim :=
  {[ "42" := {| FD.Player_position := "RB"; FD.Game_team_name := "Bears";
                FD.Fd_classic_points_mean := 11; FD.Fd_classic_points_list := [9%float; 15%float];
                FD.Fd_classic_points_std := 4; FD.Fd_classic_cume_points := 30;
                FD.Game_date_unix := 1696179600; FD.Game_week := 4;
                FD.Game_opp_id := 9; FD.Game_opp_name := "Lions";
                FD.Game_points_for := 21.5; FD.Game_points_against := 24;
                FD.Game_venue_id := 3; FD.Game_venue_name := "Soldier Field" |} ]}.

Definition fd_player (id : string) : FD.Player :=
  {| FD.Id := id; FD.First_name := "Walter"; FD.Last_name := "Payton";
     FD.Position := "RB"; FD.Positions := ["RB"]; FD.Draftable := true;
     FD.Injured := false; FD.Injury_status := ""; FD.Salary := 8000 |}.

(** Activities: a run of 5 km in 25 minutes, an entry without distance or
    time, an entry without distance, and one whose local start does not
    parse. *)
Definition activity (distance : float) (moving_time : Z) (start_local : string)
    : ActivitySummary.t :=
  {| ActivitySummary.Distance := distance; ActivitySummary.MovingTime := moving_time;
     ActivitySummary.StartDate := "2023-10-01T15:00:00Z";
     ActivitySummary.StartDateLocal := start_local;
     ActivitySummary.TimeZone := "(GMT+01:00) Europe/Paris";
     ActivitySummary.UtcOffset := 7200 |}.

Definition run : ActivitySummary.t := activity 5000 1500 "2023-10-01T17:00:00Z".
Definition jog : ActivitySummary.t := activity 8000 3000 "2023-10-02T07:30:00Z".
Definition empty_entry : ActivitySummary.t := activity 0 0 "2023-10-01T17:00:00Z".
Definition standing : ActivitySummary.t := activity 0 600 "2023-10-01T17:00:00Z".
Definition undated_run : ActivitySummary.t := activity 5000 1500 "yesterday".

(** The result of [int(x)] for an unrepresentable [x] on amd64. *)
Definition int_amd64 (x : float) : Z := - 2 ^ 63.

(** An odds table whose list for team 7 starts with an entry that commences
    five days after tonight's game. *)
Definition oddsDat_later : gmap string ODDS.Team :=
  {[ "7" := {| ODDS.Games := [ {| ODDS.Commence_time := 1696615200; ODDS.Points := 5.5 |} ] |};
     "9" := {| ODDS.Games := [ {| ODDS.Commence_time := 1696615200; ODDS.Points := 3.5 |} ] |} ]}.

(** An odds table whose list for team 7 starts with an entry that commences
    exactly one hour after the start of tonight's game. *)
Definition oddsDat_on_the_hour : gmap string ODDS.Team :=
  {[ "7" := {| ODDS.Games := [ {| ODDS.Commence_time := 1696186800; ODDS.Points := 5.5 |} ] |};
     "9" := {| ODDS.Games := [ {| ODDS.Commence_time := 1696186800; ODDS.Points := 3.5 |} ] |} ]}.



(** An odds table whose entry for team 7 carries the largest [int64] as its
    commence time. *)
Definition oddsDat_wrapped : gmap string ODDS.Team :=
  {[ "7" := {| ODDS.Games := [ {| ODDS.Commence_time := 9223372036854775807;
                                  ODDS.Points := 4.5 |} ] |};
     "9" := {| ODDS.Games := [ {| ODDS.Commence_time := 1696183200; ODDS.Points := 3.5 |} ] |} ]}.

(** A simulation table with an entry under the key of the athlete id 0. *)
Definition nfl_players_zero : gmap string NFLsim.Player :=
  {[ "0" := {| NFLsim.Player_position := "QB"; NFLsim.Game_team_id := 5;
               NFLsim.Game_team_name := "Jets";
               NFLsim.Dk_classic_points_mean := 18;
               NFLsim.Dk_classic_points_list := [25%float];
               NFLsim.Dk_classic_points_std := 3; NFLsim.Dk_classic_cume_points := 18;
               NFLsim.Dk_showdown_points_mean := 20;
               NFLsim.Dk_showdown_points_list := [25%float];
               NFLsim.Dk_showdown_points_std := 3; NFLsim.Dk_showdown_cume_points := 20;
               NFLsim.Game_date_unix := 1696179600; NFLsim.Game_week := 4;
               NFLsim.Game_opp_id := 6; NFLsim.Game_opp_name := "Bills";
               NFLsim.Game_points_for := 20; NFLsim.Game_points_against := 23;
               NFLsim.Game_venue_id := 2; NFLsim.Game_venue_name := "MetLife" |} ]}.

(** A team average table in which team 7 has the average zero with the
    negative sign. *)
Definition TeamKeys_negzero : gmap string TeamPoints :=
  {[ "7" := {| TeamID := 7; Team_name := "Cubs"; Avg_points := (-0)%float |} ]}.


End Cases.

(* ===================================================================== *)
(** * Properties *)
(* ===================================================================== *)

(** ** Comparisons of binary64 values *)

Lemma SFcompare_rank f1 f2 :
  f1 <> S754_nan -> f2 <> S754_nan ->
  match SFcompare f1 f2 with
  | Some Lt => lt3 (rank f1) (rank f2)
  | Some Eq => rank f1 = rank f2
  | Some Gt => lt3 (rank f2) (rank f1)
  | None => False
  end.
Proof.
  intros H1 H2.
  destruct f1 as [s1|s1| |s1 m1 e1], f2 as [s2|s2| |s2 m2 e2]; try congruence;
    try destruct s1; try destruct s2; simpl; try lia; try reflexivity.
  - destruct (Z.compare_spec e1 e2); simpl; try lia.
    change (Pos.compare_cont Eq m1 m2) with (Pos.compare m1 m2).
    destruct (Pos.compare_spec m1 m2); simpl; subst; try lia. reflexivity.
  - destruct (Z.compare_spec e1 e2); simpl; try lia.
    change (Pos.compare_cont Eq m1 m2) with (Pos.compare m1 m2).
    destruct (Pos.compare_spec m1 m2); simpl; subst; try lia. reflexivity.
Qed.

Lemma is_nan_Prim2SF x : is_nan x = false <-> Prim2SF x <> S754_nan.
Proof.
  unfold is_nan. rewrite FloatAxioms.eqb_spec. unfold SFeqb.
  split.
  - intros H E. rewrite E in H. simpl in H. discriminate.
  - intros H. pose proof (SFcompare_rank _ _ H H) as C.
    destruct (SFcompare (Prim2SF x) (Prim2SF x)) as [[]|];
      simpl; try reflexivity; try contradiction;
      exfalso; destruct (rank (Prim2SF x)) as [[a b] c]; simpl in C; lia.
Qed.

Lemma ltb_rank x y :
  is_nan x = false -> is_nan y = false ->
  ((x <? y)%float = true <-> lt3 (frank x) (frank y)).
Proof.
  intros Hx Hy. apply is_nan_Prim2SF in Hx, Hy.
  rewrite FloatAxioms.ltb_spec. unfold SFltb, frank.
  pose proof (SFcompare_rank _ _ Hx Hy) as C.
  destruct (SFcompare (Prim2SF x) (Prim2SF y)) as [[]|]; try contradiction;
    destruct (rank (Prim2SF x)) as [[a b] c], (rank (Prim2SF y)) as [[a' b'] c'];
    simpl in *; split; intros; try congruence; try lia.
  inversion C; lia.
Qed.

Lemma leb_rank x y :
  is_nan x = false -> is_nan y = false ->
  ((x <=? y)%float = true <-> le3 (frank x) (frank y)).
Proof.
  intros Hx Hy. apply is_nan_Prim2SF in Hx, Hy.
  rewrite FloatAxioms.leb_spec. unfold SFleb, frank.
  pose proof (SFcompare_rank _ _ Hx Hy) as C.
  destruct (SFcompare (Prim2SF x) (Prim2SF y)) as [[]|]; try contradiction;
    destruct (rank (Prim2SF x)) as [[a b] c], (rank (Prim2SF y)) as [[a' b'] c'];
    simpl in *; split; intros; try congruence; try lia; inversion C; lia.
Qed.

Lemma ltb_true_not_nan x y :
  (x <? y)%float = true -> is_nan x = false /\ is_nan y = false.
Proof.
  rewrite FloatAxioms.ltb_spec. unfold SFltb. intros H.
  split; apply is_nan_Prim2SF; intros E; rewrite E in H; simpl in H; try discriminate.
  destruct (Prim2SF x); discriminate.
Qed.

Lemma leb_true_not_nan x y :
  (x <=? y)%float = true -> is_nan x = false /\ is_nan y = false.
Proof.
  rewrite FloatAxioms.leb_spec. unfold SFleb. intros H.
  split; apply is_nan_Prim2SF; intros E; rewrite E in H; simpl in H; try discriminate.
  destruct (Prim2SF x); discriminate.
Qed.

(** Every test of the chain, read on the key of a value that is not NaN. *)
Ltac float_tests value Hnan :=
  repeat match goal with
  | H : (?x <? ?y)%float = true |- _ =>
      apply (proj1 (ltb_rank x y ltac:(first [exact Hnan | reflexivity])
                                  ltac:(first [exact Hnan | reflexivity]))) in H
  | H : (?x <=? ?y)%float = true |- _ =>
      apply (proj1 (leb_rank x y ltac:(first [exact Hnan | reflexivity])
                                  ltac:(first [exact Hnan | reflexivity]))) in H
  | H : (?x <? ?y)%float = false |- _ =>
      apply not_true_iff_false in H;
      rewrite (ltb_rank x y ltac:(first [exact Hnan | reflexivity])
                            ltac:(first [exact Hnan | reflexivity])) in H
  | H : (?x <=? ?y)%float = false |- _ =>
      apply not_true_iff_false in H;
      rewrite (leb_rank x y ltac:(first [exact Hnan | reflexivity])
                            ltac:(first [exact Hnan | reflexivity])) in H
  end.

Local Open Scope list_scope.

(** ** Histogram Builder *)

Lemma frank_consts :
  frank 0 = (0, 0, 0) /\ frank 10 = (1, -49, 5629499534213120) /\
  frank 20 = (1, -48, 5629499534213120) /\ frank 30 = (1, -48, 8444249301319680) /\
  frank 40 = (1, -47, 5629499534213120) /\ frank 50 = (1, -47, 7036874417766400) /\
  frank 60 = (1, -47, 8444249301319680).
Proof. vm_compute. repeat split. Qed.

(** Decides a combination of outcomes of the chain's tests on one value by
    integer arithmetic on its key. *)
Ltac float_lia value Hnan :=
  float_tests value Hnan;
  destruct frank_consts as (K0 & K10 & K20 & K30 & K40 & K50 & K60);
  rewrite ?K0, ?K10, ?K20, ?K30, ?K40, ?K50, ?K60 in *;
  destruct (frank value) as [[?a ?b] ?c];
  cbv [lt3 le3] in *; lia.

(** One pass of the chain increments the counter [bucket] names, and only
    that one. *)
Lemma count_value_bucket c value :
  tempPointsList (count_value c value) =
  match bucket value with
  | Some k => alter (fun n => n + 1) k (tempPointsList c)
  | None => tempPointsList c
  end.
Proof.
  unfold count_value, bucket. destruct c as [c0 c1 c2 c3 c4 c5 c6 c7].
  repeat match goal with
  | |- context [if ?b then _ else _] => destruct b
  end; reflexivity.
Qed.

Lemma bucket_decoded value :
  is_nan value = false -> exists k, bucket value = Some k /\ (k < 8)%nat.
Proof.
  intros Hnan. unfold bucket.
  destruct (value <=? 0)%float eqn:E0; [eexists; split; [reflexivity|lia]|].
  destruct (0 <=? value)%float eqn:F0; [|exfalso; float_lia value Hnan].
  destruct (value <? 10)%float eqn:E1; [eexists; split; [reflexivity|lia]|].
  destruct (10 <=? value)%float eqn:F1; [|exfalso; float_lia value Hnan].
  destruct (value <? 20)%float eqn:E2; [eexists; split; [reflexivity|lia]|].
  destruct (20 <=? value)%float eqn:F2; [|exfalso; float_lia value Hnan].
  destruct (value <? 30)%float eqn:E3; [eexists; split; [reflexivity|lia]|].
  destruct (30 <=? value)%float eqn:F3; [|exfalso; float_lia value Hnan].
  destruct (value <? 40)%float eqn:E4; [eexists; split; [reflexivity|lia]|].
  destruct (40 <=? value)%float eqn:F4; [|exfalso; float_lia value Hnan].
  destruct (value <? 50)%float eqn:E5; [eexists; split; [reflexivity|lia]|].
  destruct (50 <=? value)%float eqn:F5; [|exfalso; float_lia value Hnan].
  destruct (value <? 60)%float eqn:E6; [eexists; split; [reflexivity|lia]|].
  destruct (60 <=? value)%float eqn:F6; [|exfalso; float_lia value Hnan].
  eexists; split; [reflexivity|lia].
Qed.

Lemma sumZ_alter_succ (l : list Z) (k : nat) :
  (k < length l)%nat -> sumZ (alter (fun n => n + 1) k l) = sumZ l + 1.
Proof.
  unfold sumZ. revert k.
  induction l as [|x l IH]; intros k Hk; simpl in Hk; [lia|].
  destruct k as [|k]; simpl; [lia|].
  specialize (IH k ltac:(lia)).
  change (alter (fun n : Z => n + 1) k l) with (list_alter (fun n : Z => n + 1) k l) in IH.
  lia.
Qed.

Lemma count_value_sum c value :
  is_nan value = false ->
  sumZ (tempPointsList (count_value c value)) = sumZ (tempPointsList c) + 1.
Proof.
  intros Hnan. rewrite count_value_bucket.
  destruct (bucket_decoded value Hnan) as (k & -> & Hk).
  apply sumZ_alter_succ. simpl. exact Hk.
Qed.

Lemma count_values_sum sample c :
  decoded sample ->
  sumZ (tempPointsList (count_values c sample))
  = sumZ (tempPointsList c) + Z.of_nat (length sample).
Proof.
  unfold decoded. revert c.
  induction sample as [|value sample IH]; intros c H.
  - simpl. lia.
  - inversion H as [|? ? Hv Hs]; subst.
    change (count_values c (value :: sample))
      with (count_values (count_value c value) sample).
    rewrite IH by exact Hs. rewrite count_value_sum by exact Hv.
    rewrite length_cons. lia.
Qed.

(** C4. For every score sample of any length, the empty one included, the
    Histogram Builder yields eight counts whose sum is the length of the
    sample: every value is counted in exactly one bucket.  The sample is one
    that the JSON decoder can deliver ([decoded]): it holds no NaN. *)
Theorem histogram_conservation (sample : list float) :
  decoded sample ->
  length (histogram sample) = 8%nat
  /\ sumZ (histogram sample) = Z.of_nat (length sample).
Proof.
  intros H. split; [reflexivity|].
  unfold histogram. rewrite count_values_sum by exact H. reflexivity.
Qed.

Lemma histogram_conservation_witness :
  decoded [(-5)%float; 0%float; 9%float; 15%float; 61%float]
  /\ length (histogram [(-5)%float; 0%float; 9%float; 15%float; 61%float]) = 8%nat
  /\ sumZ (histogram [(-5)%float; 0%float; 9%float; 15%float; 61%float]) = 5.
Proof.
  assert (H : decoded [(-5)%float; 0%float; 9%float; 15%float; 61%float])
    by (repeat constructor).
  split; [exact H|].
  exact (histogram_conservation _ H).
Defined.

(** The conservation law depends on the sample being decoded: a NaN passes
    every test of the chain and is counted nowhere. *)
Example histogram_nan : histogram [nan] = [0; 0; 0; 0; 0; 0; 0; 0].
Proof. vm_compute. reflexivity. Qed.

(** C5. Bucket assignment follows the fixed scheme: a value [<= 0] goes to
    bucket 0 (so 0 itself goes to bucket 0, not 1), a value in (0,10) to
    bucket 1, a value in [10k, 10k+10) for k = 1..5 to bucket k+1, a value
    [>= 60] (so 60 itself) to the last bucket; the chain increments exactly
    the counter of that bucket; and the sample [-5, 0, 9, 15, 61] yields
    [2,1,1,0,0,0,0,1]. *)
Theorem bucket_scheme (value : float) :
  ((value <=? 0)%float = true -> bucket value = Some 0%nat)
  /\ ((0 <? value)%float = true -> (value <? 10)%float = true -> bucket value = Some 1%nat)
  /\ ((10 <=? value)%float = true -> (value <? 20)%float = true -> bucket value = Some 2%nat)
  /\ ((20 <=? value)%float = true -> (value <? 30)%float = true -> bucket value = Some 3%nat)
  /\ ((30 <=? value)%float = true -> (value <? 40)%float = true -> bucket value = Some 4%nat)
  /\ ((40 <=? value)%float = true -> (value <? 50)%float = true -> bucket value = Some 5%nat)
  /\ ((50 <=? value)%float = true -> (value <? 60)%float = true -> bucket value = Some 6%nat)
  /\ ((60 <=? value)%float = true -> bucket value = Some 7%nat)
  /\ (forall c, tempPointsList (count_value c value) =
                match bucket value with
                | Some k => alter (fun n => n + 1) k (tempPointsList c)
                | None => tempPointsList c
                end)
  /\ bucket 0 = Some 0%nat
  /\ bucket 60 = Some 7%nat
  /\ histogram [(-5)%float; 0%float; 9%float; 15%float; 61%float] = [2; 1; 1; 0; 0; 0; 0; 1].
Proof.
  split; [intros H; unfold bucket; rewrite H; reflexivity|].
  split.
  { intros H1 H2. pose proof (proj1 (ltb_true_not_nan _ _ H2)) as Hnan.
    unfold bucket.
    destruct (value <=? 0)%float eqn:E0; [exfalso; float_lia value Hnan|].
    destruct (0 <=? value)%float eqn:F0; [|exfalso; float_lia value Hnan].
    rewrite H2. reflexivity. }
  split.
  { intros H1 H2. pose proof (proj1 (ltb_true_not_nan _ _ H2)) as Hnan.
    unfold bucket.
    destruct (value <=? 0)%float eqn:E0; [exfalso; float_lia value Hnan|].
    destruct (value <? 10)%float eqn:E1; [exfalso; float_lia value Hnan|].
    rewrite H1, H2, andb_false_r. reflexivity. }
  split.
  { intros H1 H2. pose proof (proj1 (ltb_true_not_nan _ _ H2)) as Hnan.
    unfold bucket.
    destruct (value <=? 0)%float eqn:E0; [exfalso; float_lia value Hnan|].
    destruct (value <? 10)%float eqn:E1; [exfalso; float_lia value Hnan|].
    destruct (value <? 20)%float eqn:E2; [exfalso; float_lia value Hnan|].
    rewrite H1, H2, !andb_false_r. reflexivity. }
  split.
  { intros H1 H2. pose proof (proj1 (ltb_true_not_nan _ _ H2)) as Hnan.
    unfold bucket.
    destruct (value <=? 0)%float eqn:E0; [exfalso; float_lia value Hnan|].
    destruct (value <? 10)%float eqn:E1; [exfalso; float_lia value Hnan|].
    destruct (value <? 20)%float eqn:E2; [exfalso; float_lia value Hnan|].
    destruct (value <? 30)%float eqn:E3; [exfalso; float_lia value Hnan|].
    rewrite H1, H2, !andb_false_r. reflexivity. }
  split.
  { intros H1 H2. pose proof (proj1 (ltb_true_not_nan _ _ H2)) as Hnan.
    unfold bucket.
    destruct (value <=? 0)%float eqn:E0; [exfalso; float_lia value Hnan|].
    destruct (value <? 10)%float eqn:E1; [exfalso; float_lia value Hnan|].
    destruct (value <? 20)%float eqn:E2; [exfalso; float_lia value Hnan|].
    destruct (value <? 30)%float eqn:E3; [exfalso; float_lia value Hnan|].
    destruct (value <? 40)%float eqn:E4; [exfalso; float_lia value Hnan|].
    rewrite H1, H2, !andb_false_r. reflexivity. }
  split.
  { intros H1 H2. pose proof (proj1 (ltb_true_not_nan _ _ H2)) as Hnan.
    unfold bucket.
    destruct (value <=? 0)%float eqn:E0; [exfalso; float_lia value Hnan|].
    destruct (value <? 10)%float eqn:E1; [exfalso; float_lia value Hnan|].
    destruct (value <? 20)%float eqn:E2; [exfalso; float_lia value Hnan|].
    destruct (value <? 30)%float eqn:E3; [exfalso; float_lia value Hnan|].
    destruct (value <? 40)%float eqn:E4; [exfalso; float_lia value Hnan|].
    destruct (value <? 50)%float eqn:E5; [exfalso; float_lia value Hnan|].
    rewrite H1, H2, !andb_false_r. reflexivity. }
  split.
  { intros H1. pose proof (proj2 (leb_true_not_nan _ _ H1)) as Hnan.
    unfold bucket.
    destruct (value <=? 0)%float eqn:E0; [exfalso; float_lia value Hnan|].
    destruct (value <? 10)%float eqn:E1; [exfalso; float_lia value Hnan|].
    destruct (value <? 20)%float eqn:E2; [exfalso; float_lia value Hnan|].
    destruct (value <? 30)%float eqn:E3; [exfalso; float_lia value Hnan|].
    destruct (value <? 40)%float eqn:E4; [exfalso; float_lia value Hnan|].
    destruct (value <? 50)%float eqn:E5; [exfalso; float_lia value Hnan|].
    destruct (value <? 60)%float eqn:E6; [exfalso; float_lia value Hnan|].
    rewrite H1, !andb_false_r. reflexivity. }
  split; [intros c; apply count_value_bucket|].
  vm_compute. repeat split.
Qed.

Lemma bucket_scheme_witness :
  bucket 15 = Some 2%nat /\ bucket 9.5 = Some 1%nat /\ bucket 75 = Some 7%nat.
Proof.
  split; [|split].
  - apply (proj1 (proj2 (proj2 (bucket_scheme 15)))); reflexivity.
  - apply (proj1 (proj2 (bucket_scheme 9.5))); reflexivity.
  - apply (proj1 (proj2 (proj2 (proj2 (proj2 (proj2 (proj2 (proj2 (bucket_scheme 75)))))))));
      reflexivity.
Defined.

(** ** Dedup Gate *)

Lemma implContains_elem (keys : list string) (key : string) :
  implContains keys key = true <-> key ∈ keys.
Proof.
  induction keys as [|k keys IH]; simpl.
  - split; [discriminate | intros H; inversion H].
  - destruct (String.eqb_spec k key) as [->|Hne].
    + split; [intros _; left | reflexivity].
    + rewrite IH. split; [intros H; right; exact H|].
      intros H. apply elem_of_cons in H as [H|H]; [congruence | exact H].
Qed.

Lemma implContains_not_elem (keys : list string) (key : string) :
  implContains keys key = false <-> key ∉ keys.
Proof.
  rewrite <- implContains_elem. destruct (implContains keys key); split; congruence.
Qed.

Lemma gate_eq acc r :
  NFL.gate acc r =
  if (negb (implContains (NFL.FinalNFLPlayerKeys acc) (NFL.Draftable_uid r))
      && NFL.Inlineup r)%bool
  then {| NFL.FinalNFLPlayerKeys := NFL.FinalNFLPlayerKeys acc ++ [NFL.Draftable_uid r];
          NFL.Data := NFL.Data acc ++ [r] |}
  else acc.
Proof.
  unfold NFL.gate.
  destruct (implContains _ _); simpl; [reflexivity|].
  destruct (NFL.Inlineup r); reflexivity.
Qed.

Lemma gate_consistent acc r : consistent acc -> consistent (NFL.gate acc r).
Proof.
  intros [Hk Hn]. rewrite gate_eq.
  destruct (implContains _ _) eqn:E; simpl; [split; assumption|].
  destruct (NFL.Inlineup r); simpl; [|split; assumption].
  split; simpl.
  - rewrite map_app, Hk. reflexivity.
  - apply NoDup_app. split; [exact Hn|]. split.
    + intros x Hx Hx'. apply list_elem_of_singleton in Hx'. subst x.
      apply implContains_not_elem in E. contradiction.
    + apply NoDup_singleton.
Qed.

Lemma gate_keys_mono acc r k :
  k ∈ NFL.FinalNFLPlayerKeys acc -> k ∈ NFL.FinalNFLPlayerKeys (NFL.gate acc r).
Proof.
  intros H. rewrite gate_eq. destruct (_ && _)%bool; simpl; [|exact H].
  apply elem_of_app. left. exact H.
Qed.

Lemma gate_eligible_seen acc r :
  NFL.Inlineup r = true ->
  NFL.Draftable_uid r ∈ NFL.FinalNFLPlayerKeys (NFL.gate acc r).
Proof.
  intros He. rewrite gate_eq, He, andb_true_r.
  destruct (implContains _ _) eqn:E; simpl.
  - apply implContains_elem, E.
  - apply elem_of_app. right. left.
Qed.

Lemma gate_seen_skip acc r :
  NFL.Draftable_uid r ∈ NFL.FinalNFLPlayerKeys acc -> NFL.gate acc r = acc.
Proof.
  intros H. apply implContains_elem in H. unfold NFL.gate. rewrite H. reflexivity.
Qed.

Section Pass.

Variable assemble : DK.Draftable -> NFL.NflPlayer.

Lemma pass_app l1 l2 acc :
  NFL.pass assemble (l1 ++ l2) acc = NFL.pass assemble l2 (NFL.pass assemble l1 acc).
Proof. unfold NFL.pass. apply fold_left_app. Qed.

Lemma pass_consistent l acc : consistent acc -> consistent (NFL.pass assemble l acc).
Proof.
  revert acc. induction l as [|s l IH]; intros acc H; simpl; [exact H|].
  apply IH, gate_consistent, H.
Qed.

Lemma pass_keys_mono l acc k :
  k ∈ NFL.FinalNFLPlayerKeys acc ->
  k ∈ NFL.FinalNFLPlayerKeys (NFL.pass assemble l acc).
Proof.
  revert acc. induction l as [|s l IH]; intros acc H; simpl; [exact H|].
  apply IH, gate_keys_mono, H.
Qed.

Lemma pass_eligible_seen l acc s :
  s ∈ l -> NFL.Inlineup (assemble s) = true ->
  NFL.Draftable_uid (assemble s) ∈ NFL.FinalNFLPlayerKeys (NFL.pass assemble l acc).
Proof.
  revert acc. induction l as [|s' l IH]; intros acc Hin He; [inversion Hin|].
  simpl. apply elem_of_cons in Hin as [->|Hin].
  - apply pass_keys_mono, gate_eligible_seen, He.
  - apply IH; assumption.
Qed.

Lemma pass_later_duplicate pre a mid b acc :
  NFL.Draftable_uid (assemble a) = NFL.Draftable_uid (assemble b) ->
  NFL.Inlineup (assemble a) = true ->
  NFL.pass assemble (pre ++ a :: mid ++ [b]) acc = NFL.pass assemble (pre ++ a :: mid) acc.
Proof.
  intros Hu He.
  replace (pre ++ a :: mid ++ [b]) with ((pre ++ a :: mid) ++ [b])
    by (rewrite <- app_assoc; reflexivity).
  rewrite pass_app. simpl. apply gate_seen_skip.
  rewrite <- Hu. apply pass_eligible_seen; [|exact He].
  apply elem_of_app. right. left.
Qed.

Lemma pass_uids_NoDup l :
  NoDup (map NFL.Draftable_uid (NFL.Data (NFL.pass assemble l NFL.emptyAcc))).
Proof.
  destruct (pass_consistent l NFL.emptyAcc) as [Hk Hn].
  - split; [reflexivity | apply NoDup_nil_2].
  - rewrite <- Hk. exact Hn.
Qed.

(** An eligible row of the listing has its UID on an emitted row. *)
Lemma pass_eligible_emitted l s :
  s ∈ l -> NFL.Inlineup (assemble s) = true ->
  exists r, r ∈ NFL.Data (NFL.pass assemble l NFL.emptyAcc)
            /\ NFL.Draftable_uid r = NFL.Draftable_uid (assemble s).
Proof.
  intros Hin He.
  pose proof (pass_eligible_seen l NFL.emptyAcc s Hin He) as Hk.
  destruct (pass_consistent l NFL.emptyAcc) as [Hm _];
    [split; [reflexivity | apply NoDup_nil_2]|].
  rewrite Hm in Hk. apply list_elem_of_fmap in Hk as (r & Hr & Hin').
  exists r. split; [exact Hin' | symmetry; exact Hr].
Qed.

End Pass.

Lemma consistent_empty : consistent NFL.emptyAcc.
Proof. split; [reflexivity | apply NoDup_nil_2]. Qed.

Lemma gate_not_eligible acc r : NFL.Inlineup r = false -> NFL.gate acc r = acc.
Proof. intros H. rewrite gate_eq, H, andb_false_r. reflexivity. Qed.

Lemma pass_emits (assemble : DK.Draftable -> NFL.NflPlayer) l :
  forall acc, exists out,
    NFL.Data (NFL.pass assemble l acc) = NFL.Data acc ++ out
    /\ out `sublist_of` List.filter NFL.Inlineup (map assemble l).
Proof.
  induction l as [|s l IH]; intros acc.
  - exists []. split; [symmetry; apply app_nil_r | constructor].
  - cbn [NFL.pass fold_left map List.filter].
    change (fold_left (fun acc0 s0 => NFL.gate acc0 (assemble s0)) l
              (NFL.gate acc (assemble s)))
      with (NFL.pass assemble l (NFL.gate acc (assemble s))).
    destruct (IH (NFL.gate acc (assemble s))) as (out & E & Hs).
    rewrite E, gate_eq.
    destruct (NFL.Inlineup (assemble s)) eqn:He.
    + destruct (implContains _ _); cbn [negb andb NFL.Data].
      * exists out. split; [reflexivity | apply sublist_cons, Hs].
      * exists (assemble s :: out). split; [rewrite <- app_assoc; reflexivity|].
        apply sublist_skip, Hs.
    + rewrite andb_false_r. exists out. split; [reflexivity | exact Hs].
Qed.

Lemma NoDup_fmap_eq {A B} (f : A -> B) (l : list A) x y :
  NoDup (map f l) -> x ∈ l -> y ∈ l -> f x = f y -> x = y.
Proof.
  induction l as [|a l IH]; intros Hn Hx Hy E; [inversion Hx|].
  cbn [map] in Hn. apply NoDup_cons in Hn as [Ha Hn].
  apply elem_of_cons in Hx as [->|Hx]; apply elem_of_cons in Hy as [->|Hy].
  - reflexivity.
  - exfalso. apply Ha. rewrite E. apply (list_elem_of_fmap_2 f), Hy.
  - exfalso. apply Ha. rewrite <- E. apply (list_elem_of_fmap_2 f), Hx.
  - apply IH; assumption.
Qed.

Lemma pass_keys_eligible (assemble : DK.Draftable -> NFL.NflPlayer) l k :
  k ∈ NFL.FinalNFLPlayerKeys (NFL.pass assemble l NFL.emptyAcc) ->
  exists s, s ∈ l /\ NFL.Inlineup (assemble s) = true
            /\ NFL.Draftable_uid (assemble s) = k.
Proof.
  intros Hk.
  destruct (pass_consistent assemble l NFL.emptyAcc consistent_empty) as [Hm _].
  rewrite Hm in Hk. apply list_elem_of_fmap in Hk as (r & -> & Hr).
  destruct (pass_emits assemble l NFL.emptyAcc) as (out & E & Hs).
  rewrite E in Hr. cbn [NFL.Data NFL.emptyAcc app] in Hr.
  apply (elem_of_sublist _ _ _ Hr) in Hs. clear - Hs.
  apply list_elem_of_In, filter_In in Hs as [Hin He].
  apply in_map_iff in Hin as (s & <- & Hin).
  exists s. split; [apply list_elem_of_In, Hin | auto].
Qed.

Lemma pass_data_mono assemble l acc r :
  r ∈ NFL.Data acc -> r ∈ NFL.Data (NFL.pass assemble l acc).
Proof.
  revert acc. induction l as [|s l IH]; intros acc H; simpl; [exact H|].
  apply IH. rewrite gate_eq. destruct (_ && _)%bool; simpl; [|exact H].
  apply elem_of_app. left. exact H.
Qed.

(** An in-lineup slot that no in-lineup slot with the same UID precedes has
    its own row in the output, and no other row of the output has its UID. *)
Lemma pass_first_eligible (assemble : DK.Draftable -> NFL.NflPlayer)
    (pre post : list DK.Draftable) (s : DK.Draftable) :
  NFL.Inlineup (assemble s) = true ->
  (forall s', s' ∈ pre -> NFL.Inlineup (assemble s') = true ->
              NFL.Draftable_uid (assemble s') <> NFL.Draftable_uid (assemble s)) ->
  assemble s ∈ NFL.Data (NFL.pass assemble (pre ++ s :: post) NFL.emptyAcc)
  /\ forall r, r ∈ NFL.Data (NFL.pass assemble (pre ++ s :: post) NFL.emptyAcc) ->
               NFL.Draftable_uid r = NFL.Draftable_uid (assemble s) ->
               r = assemble s.
Proof.
  intros He Hpre.
  assert (Hin : assemble s ∈ NFL.Data (NFL.pass assemble (pre ++ s :: post) NFL.emptyAcc)).
  { rewrite pass_app. cbn [NFL.pass fold_left].
    apply pass_data_mono.
    rewrite gate_eq, He, andb_true_r.
    destruct (implContains _ _) eqn:E; cbn [negb NFL.Data].
    - apply implContains_elem, pass_keys_eligible in E as (s' & Hs' & He' & Hu).
      destruct (Hpre s' Hs' He' Hu).
    - apply elem_of_app. right. left. }
  split; [exact Hin|].
  intros r Hr Hu.
  apply (NoDup_fmap_eq NFL.Draftable_uid
           (NFL.Data (NFL.pass assemble (pre ++ s :: post) NFL.emptyAcc)));
    [apply pass_uids_NoDup | exact Hr | exact Hin | exact Hu].
Qed.

(** C3, as the code has it.  The gate appends a candidate exactly when its
    UID is not among the seen ones and its eligibility flag is true, and on
    appending adds the UID to the seen ones; hence no two rows emitted in
    one pass share a UID; of two rows of the listing that share a UID the
    later one is never emitted when the earlier one is eligible; and the
    first eligible one in input order is the one that appears: an eligible
    slot that no eligible slot with its UID precedes has its own row in the
    output, the only row there with that UID. *)
Theorem dedup_gate_first_eligible (Keys : gmap string ServiceKey)
    (nfl_players : gmap string NFLsim.Player) :
  (forall acc r,
     NFL.gate acc r =
     if (negb (implContains (NFL.FinalNFLPlayerKeys acc) (NFL.Draftable_uid r))
         && NFL.Inlineup r)%bool
     then {| NFL.FinalNFLPlayerKeys := NFL.FinalNFLPlayerKeys acc ++ [NFL.Draftable_uid r];
             NFL.Data := NFL.Data acc ++ [r] |}
     else acc)
  /\ (forall draftables,
        NoDup (map NFL.Draftable_uid (NFL.classic Keys nfl_players draftables)))
  /\ (forall pre a mid b,
        NFL.Draftable_uid (NFL.classic_record Keys nfl_players a)
        = NFL.Draftable_uid (NFL.classic_record Keys nfl_players b) ->
        NFL.Inlineup (NFL.classic_record Keys nfl_players a) = true ->
        NFL.classic Keys nfl_players (pre ++ a :: mid ++ [b])
        = NFL.classic Keys nfl_players (pre ++ a :: mid))
  /\ (forall pre s post,
        NFL.Inlineup (NFL.classic_record Keys nfl_players s) = true ->
        (forall s', s' ∈ pre ->
                    NFL.Inlineup (NFL.classic_record Keys nfl_players s') = true ->
                    NFL.Draftable_uid (NFL.classic_record Keys nfl_players s')
                    <> NFL.Draftable_uid (NFL.classic_record Keys nfl_players s)) ->
        NFL.classic_record Keys nfl_players s
          ∈ NFL.classic Keys nfl_players (pre ++ s :: post)
        /\ forall r, r ∈ NFL.classic Keys nfl_players (pre ++ s :: post) ->
                     NFL.Draftable_uid r
                     = NFL.Draftable_uid (NFL.classic_record Keys nfl_players s) ->
                     r = NFL.classic_record Keys nfl_players s).
Proof.
  split; [exact gate_eq|]. split; [|split].
  - intros draftables. apply pass_uids_NoDup.
  - intros pre a mid b Hu He. unfold NFL.classic.
    rewrite (pass_later_duplicate _ pre a mid b _ Hu He). reflexivity.
  - intros pre s post He Hpre. unfold NFL.classic.
    apply pass_first_eligible; assumption.
Qed.

Lemma dedup_gate_first_eligible_witness :
  NFL.classic Feed.Keys Feed.nfl_players ([] ++ Feed.active :: [] ++ [Feed.active])
  = NFL.classic Feed.Keys Feed.nfl_players ([] ++ Feed.active :: [])
  /\ NFL.classic_record Feed.Keys Feed.nfl_players Feed.active
       ∈ NFL.classic Feed.Keys Feed.nfl_players
           ([Feed.benched; Feed.stranger] ++ Feed.active :: [Feed.active]).
Proof.
  split.
  - apply (proj1 (proj2 (proj2 (dedup_gate_first_eligible Feed.Keys Feed.nfl_players)))
             [] Feed.active [] Feed.active); reflexivity.
  - apply (proj2 (proj2 (proj2 (dedup_gate_first_eligible Feed.Keys Feed.nfl_players)))
             [Feed.benched; Feed.stranger] Feed.active [Feed.active]).
    + reflexivity.
    + intros s' Hs' He'.
      apply elem_of_cons in Hs' as [->|Hs'].
      * vm_compute in He'. discriminate He'.
      * apply list_elem_of_singleton in Hs'. subst s'. vm_compute. discriminate.
Defined.

(** C3, as stated, fails: two rows share a UID, the first is not in the
    lineup, and it is the second that is emitted. *)
Lemma dedup_gate_second_emitted :
  NFL.Draftable_uid (NFL.classic_record Feed.Keys Feed.nfl_players Feed.benched)
  = NFL.Draftable_uid (NFL.classic_record Feed.Keys Feed.nfl_players Feed.active)
  /\ NFL.Inlineup (NFL.classic_record Feed.Keys Feed.nfl_players Feed.benched) = false
  /\ NFL.classic Feed.Keys Feed.nfl_players [Feed.benched; Feed.active]
     = [NFL.classic_record Feed.Keys Feed.nfl_players Feed.active].
Proof. vm_compute. repeat split. Qed.

(** ** Showdown slots *)

Lemma chars_app (s1 s2 : string) : chars (s1 ++ s2)%string = chars s1 ++ chars s2.
Proof. induction s1 as [|c s1 IH]; simpl; [reflexivity | f_equal; exact IH]. Qed.

Lemma string_of_uint_no_underscore d : underscore ∉ chars (NilEmpty.string_of_uint d).
Proof.
  induction d; simpl; try (intros H; inversion H; fail);
    intros H; apply elem_of_cons in H as [H|H]; try discriminate H; contradiction.
Qed.

Lemma Sprint_int_no_underscore z : underscore ∉ chars (Sprint_int z).
Proof.
  unfold Sprint_int, NilZero.string_of_int.
  destruct (Z.to_int z) as [d|d]; unfold NilZero.string_of_uint.
  - destruct d; try apply string_of_uint_no_underscore.
    simpl. intros H. apply elem_of_cons in H as [H|H]; [discriminate H | inversion H].
  - simpl. intros H. apply elem_of_cons in H as [H|H]; [discriminate H|].
    revert H. destruct d; try apply string_of_uint_no_underscore.
    simpl. intros H. apply elem_of_cons in H as [H|H]; [discriminate H | inversion H].
Qed.

Lemma first_underscore (a b r1 r2 : list ascii) :
  underscore ∉ a -> underscore ∉ b ->
  a ++ underscore :: r1 = b ++ underscore :: r2 -> a = b /\ r1 = r2.
Proof.
  revert b. induction a as [|x a IH]; intros [|y b] Ha Hb E; simpl in E.
  - inversion E. split; reflexivity.
  - inversion E; subst. exfalso. apply Hb. left.
  - inversion E; subst. exfalso. apply Ha. left.
  - inversion E; subst. destruct (IH b) as [-> ->]; auto.
    + intros H. apply Ha. right. exact H.
    + intros H. apply Hb. right. exact H.
Qed.

(** Two renderings that end in [_511_<salary>] and [_512_<salary'>] differ,
    whatever precedes the suffix and whatever the salaries. *)
Lemma slot_suffix_distinct (x1 x2 : string) (s1 s2 : Z) :
  (x1 ++ "_511" ++ "_" ++ Sprint_int s1)%string
  <> (x2 ++ "_512" ++ "_" ++ Sprint_int s2)%string.
Proof.
  intros E. apply (f_equal chars) in E. rewrite !chars_app in E.
  apply (f_equal (@rev ascii)) in E. rewrite !rev_app_distr in E.
  cbn [chars list_ascii_of_string rev app] in E.
  rewrite <- !app_assoc in E. cbn [app] in E.
  apply first_underscore in E as [_ E].
  - discriminate E.
  - rewrite list_elem_of_In, <- in_rev, <- list_elem_of_In.
    apply Sprint_int_no_underscore.
  - rewrite list_elem_of_In, <- in_rev, <- list_elem_of_In.
    apply Sprint_int_no_underscore.
Qed.
Lemma showdown_uid_511 Keys nfl_players s :
  DK.RosterSlotId s = 511 ->
  NFL.Nfl_id (NFL.showdown_record Keys nfl_players s)
  = (Sprint_int (NFL.nfl_lookup_of Keys s) ++ "_511")%string
  /\ NFL.Draftable_uid (NFL.showdown_record Keys nfl_players s)
     = NFL.uid_of (DK.PlayerDkId s) (NFL.nfl_lookup_of Keys s) (DK.Position s)
         (Sprint_int (NFL.nfl_lookup_of Keys s) ++ "_511")%string (DK.Salary s).
Proof.
  intros H. unfold NFL.showdown_record. rewrite H. simpl. split; reflexivity.
Qed.

Lemma showdown_uid_512 Keys nfl_players s :
  DK.RosterSlotId s = 512 ->
  NFL.Nfl_id (NFL.showdown_record Keys nfl_players s)
  = (Sprint_int (NFL.nfl_lookup_of Keys s) ++ "_512")%string
  /\ NFL.Draftable_uid (NFL.showdown_record Keys nfl_players s)
     = NFL.uid_of (DK.PlayerDkId s) (NFL.nfl_lookup_of Keys s) (DK.Position s)
         (Sprint_int (NFL.nfl_lookup_of Keys s) ++ "_512")%string (DK.Salary s).
Proof.
  intros H. unfold NFL.showdown_record. rewrite H. simpl. split; reflexivity.
Qed.

Lemma append_assoc (a b c : string) : ((a ++ b) ++ c = a ++ (b ++ c))%string.
Proof.
  induction a as [|x a IH]; [reflexivity|].
  change (String x ((a ++ b) ++ c) = String x (a ++ (b ++ c)))%string.
  rewrite IH. reflexivity.
Qed.

Lemma uid_of_suffix dkid lookup position prefix suffix salary :
  NFL.uid_of dkid lookup position (prefix ++ suffix)%string salary
  = ((Sprint_int dkid ++ "_" ++ Sprint_int lookup ++ "_" ++ position ++ "_" ++ "_" ++ prefix)
       ++ suffix ++ "_" ++ Sprint_int salary)%string.
Proof.
  unfold NFL.uid_of. rewrite !append_assoc. reflexivity.
Qed.

(** C6. In showdown format the captain row (roster slot 511) and the flex
    row (roster slot 512) of one canonical athlete get the slot id suffixed
    onto the athlete-id component of their UIDs, the two UIDs differ, and,
    both rows being eligible, both are emitted: the second is not collapsed
    by the gate. *)
Theorem showdown_captain_flex (Keys : gmap string ServiceKey)
    (nfl_players : gmap string NFLsim.Player) (c f : DK.Draftable) :
  DK.RosterSlotId c = 511 ->
  DK.RosterSlotId f = 512 ->
  NFL.nfl_lookup_of Keys c = NFL.nfl_lookup_of Keys f ->
  let rc := NFL.showdown_record Keys nfl_players c in
  let rf := NFL.showdown_record Keys nfl_players f in
  NFL.Nfl_id rc = (Sprint_int (NFL.nfl_lookup_of Keys c) ++ "_511")%string
  /\ NFL.Nfl_id rf = (Sprint_int (NFL.nfl_lookup_of Keys c) ++ "_512")%string
  /\ NFL.Draftable_uid rc <> NFL.Draftable_uid rf
  /\ (NFL.Inlineup rc = true -> NFL.Inlineup rf = true ->
      NFL.showdown Keys nfl_players [c; f] = [rc; rf]
      /\ forall draftables, c ∈ draftables -> f ∈ draftables ->
         exists r1 r2,
           r1 ∈ NFL.showdown Keys nfl_players draftables
           /\ r2 ∈ NFL.showdown Keys nfl_players draftables
           /\ NFL.Draftable_uid r1 = NFL.Draftable_uid rc
           /\ NFL.Draftable_uid r2 = NFL.Draftable_uid rf
           /\ r1 <> r2).
Proof.
  intros Hc Hf Hsame rc rf.
  destruct (showdown_uid_511 Keys nfl_players c Hc) as [Hidc Huc].
  destruct (showdown_uid_512 Keys nfl_players f Hf) as [Hidf Huf].
  assert (Hne : NFL.Draftable_uid rc <> NFL.Draftable_uid rf).
  { subst rc rf. rewrite Huc, Huf, !uid_of_suffix. apply slot_suffix_distinct. }
  split; [exact Hidc|]. split; [rewrite Hsame; exact Hidf|]. split; [exact Hne|].
  intros Ec Ef. split.
  - assert (G1 : NFL.gate NFL.emptyAcc rc
                 = {| NFL.FinalNFLPlayerKeys := [NFL.Draftable_uid rc];
                      NFL.Data := [rc] |}).
    { rewrite gate_eq. cbn [NFL.FinalNFLPlayerKeys NFL.emptyAcc implContains negb andb].
      rewrite Ec. reflexivity. }
    assert (G2 : NFL.gate {| NFL.FinalNFLPlayerKeys := [NFL.Draftable_uid rc];
                             NFL.Data := [rc] |} rf
                 = {| NFL.FinalNFLPlayerKeys := [NFL.Draftable_uid rc; NFL.Draftable_uid rf];
                      NFL.Data := [rc; rf] |}).
    { rewrite gate_eq. cbn [NFL.FinalNFLPlayerKeys implContains].
      destruct (String.eqb_spec (NFL.Draftable_uid rc) (NFL.Draftable_uid rf)) as [E|_];
        [contradiction|].
      cbn [negb andb]. rewrite Ef. reflexivity. }
    unfold NFL.showdown, NFL.pass. cbn [fold_left]. fold rc rf.
    rewrite G1, G2. reflexivity.
  - intros draftables Hinc Hinf.
    destruct (pass_eligible_emitted (NFL.showdown_record Keys nfl_players) draftables c Hinc Ec) as (r1 & H1 & U1).
    destruct (pass_eligible_emitted (NFL.showdown_record Keys nfl_players) draftables f Hinf Ef) as (r2 & H2 & U2).
    exists r1, r2. split; [exact H1|]. split; [exact H2|]. split; [exact U1|]. split; [exact U2|].
    intros E. subst r2. apply Hne. fold rc in U1. fold rf in U2. congruence.
Qed.

Lemma showdown_captain_flex_witness :
  NFL.Draftable_uid (NFL.showdown_record Feed.Keys Feed.nfl_players Feed.captain)
  <> NFL.Draftable_uid (NFL.showdown_record Feed.Keys Feed.nfl_players Feed.flex)
  /\ NFL.showdown Feed.Keys Feed.nfl_players [Feed.captain; Feed.flex]
     = [NFL.showdown_record Feed.Keys Feed.nfl_players Feed.captain;
        NFL.showdown_record Feed.Keys Feed.nfl_players Feed.flex].
Proof.
  pose proof (showdown_captain_flex Feed.Keys Feed.nfl_players Feed.captain Feed.flex
                eq_refl eq_refl eq_refl) as (_ & _ & Hne & H).
  split; [exact Hne|].
  exact (proj1 (H eq_refl eq_refl)).
Defined.

(** ** The pitchers path *)

Lemma range_loop_inv {A St : Type} (body : nat -> A -> St -> result (St * ctl))
    (I : St -> Prop) :
  (forall ix a st st' k, I st -> body ix a st = Ok (st', k) -> I st') ->
  forall l ix st st', I st -> range_loop body ix l st = Ok st' -> I st'.
Proof.
  intros Hbody l. induction l as [|a l IH]; intros ix st st' Hst H; simpl in H.
  - inversion H; subst. exact Hst.
  - destruct (body ix a st) as [[st1 [|]]|m] eqn:E; try discriminate.
    + eapply IH; [|exact H]. eapply Hbody; eassumption.
    + inversion H; subst. eapply Hbody; eassumption.
Qed.

Lemma probable_of_marked (s : DK.Draftable) :
  MLB.probable_of (DK.PlayerGameAttributes s) = true <-> marked_probable s.
Proof.
  unfold marked_probable, MLB.probable_of.
  generalize (DK.PlayerGameAttributes s). intros attrs.
  assert (G : forall b, fold_left
     (fun (b : bool) value =>
        if (DK.Id value =? 1)%Z
        then if String.eqb (DK.Value value) "true" then true else b
        else b) attrs b = true
     <-> b = true \/ exists value, value ∈ attrs /\ DK.Id value = 1 /\ DK.Value value = "true").
  { induction attrs as [|a attrs IH]; intros b; simpl.
    - split; [auto|]. intros [H|(v & H & _)]; [exact H | inversion H].
    - rewrite IH. split.
      + intros [H|(v & Hin & H1 & H2)].
        * destruct (Z.eqb_spec (DK.Id a) 1) as [E1|]; [|auto].
          destruct (String.eqb_spec (DK.Value a) "true") as [E2|]; [|auto].
          right. exists a. split; [left|auto].
        * right. exists v. split; [right; exact Hin|auto].
      + intros [H|(v & Hin & H1 & H2)].
        * left. subst b. destruct (_ =? _)%Z; [|reflexivity].
          destruct (String.eqb _ _); reflexivity.
        * apply elem_of_cons in Hin as [->|Hin].
          -- left. rewrite H1, H2. reflexivity.
          -- right. exists v. auto. }
  rewrite G. split; [intros [H|H]; [discriminate|exact H] | auto].
Qed.

Section Pitchers.

Variable time_Parse : string -> option Z.
Variable Keys : gmap string ServiceKey.
Variable pitchers : gmap string MLBsim.Pitcher.
Variable oddsDat : gmap string ODDS.Team.
Variable TeamKeys : gmap string TeamPoints.

#[local] Abbreviation odds_scan := (MLB.odds_scan oddsDat TeamKeys).
#[local] Abbreviation game_body := (MLB.game_body time_Parse oddsDat TeamKeys).
#[local] Abbreviation game_loop := (MLB.game_loop time_Parse oddsDat TeamKeys).
#[local] Abbreviation assemble := (MLB.assemble time_Parse Keys pitchers oddsDat TeamKeys).
#[local] Abbreviation slot := (MLB.slot time_Parse Keys pitchers oddsDat TeamKeys).
#[local] Abbreviation slots := (MLB.slots time_Parse Keys pitchers oddsDat TeamKeys).
#[local] Abbreviation handler := (MLB.handler time_Parse Keys pitchers oddsDat TeamKeys).

(** What the odds scan computes: it reads the entry at index 0 of the
    team's list, and of the opponent's. *)
Lemma odds_scan_eq tmpTeamId gameTime g p :
  odds_scan tmpTeamId gameTime g p =
  match ODDS.Games (index ODDS.zero oddsDat tmpTeamId) with
  | [] => Ok p
  | odds_values :: _ =>
      if After gameTime (time_Unix (ODDS.Commence_time odds_values)) then
        match ODDS.Games (index ODDS.zero oddsDat (Sprint_int (MLBsim.Opponent g))) with
        | opp :: _ =>
            Ok (MLB.set_odds p (ODDS.Points odds_values)
                  (ODDS.Points odds_values
                   / Avg_points (index zeroTeamPoints TeamKeys tmpTeamId))%float
                  (ODDS.Points opp))
        | [] => Panic "index out of range"
        end
      else Ok p
  end.
Proof.
  unfold MLB.odds_scan.
  destruct (ODDS.Games (index ODDS.zero oddsDat tmpTeamId)) as [|ov rest]; [reflexivity|].
  simpl. unfold MLB.odds_body.
  destruct (After _ _); [|reflexivity].
  destruct (ODDS.Games (index ODDS.zero oddsDat (Sprint_int (MLBsim.Opponent g))));
    reflexivity.
Qed.

Lemma odds_only_refl p : odds_only p p.
Proof. left. reflexivity. Qed.

Lemma odds_only_trans p1 p2 p3 : odds_only p1 p2 -> odds_only p2 p3 -> odds_only p1 p3.
Proof.
  intros [->|(a & b & c & ->)] [->|(a' & b' & c' & ->)].
  - left. reflexivity.
  - right. eauto.
  - right. eauto.
  - right. exists a', b', c'. reflexivity.
Qed.

Lemma odds_scan_only tmpTeamId gameTime g p p' :
  odds_scan tmpTeamId gameTime g p = Ok p' -> odds_only p p'.
Proof.
  rewrite odds_scan_eq.
  destruct (ODDS.Games _) as [|ov rest]; [intros [= <-]; apply odds_only_refl|].
  destruct (After _ _); [|intros [= <-]; apply odds_only_refl].
  destruct (ODDS.Games _) as [|og rest']; [discriminate|].
  intros [= <-]. right. eauto.
Qed.

Lemma odds_scan_quiet tmpTeamId bound gameTime g p :
  quiet oddsDat tmpTeamId bound -> gameTime <= bound ->
  odds_scan tmpTeamId gameTime g p = Ok p.
Proof.
  unfold quiet. intros Hq Hle. rewrite odds_scan_eq.
  destruct (ODDS.Games _) as [|ov rest]; [reflexivity|].
  unfold After in *. apply Z.ltb_ge in Hq.
  destruct (Z.ltb_spec (time_Unix (ODDS.Commence_time ov)) gameTime); [lia|reflexivity].
Qed.

Lemma odds_scan_listed tmpTeamId gameTime g p :
  opponent_listed oddsDat g -> exists p', odds_scan tmpTeamId gameTime g p = Ok p'.
Proof.
  unfold opponent_listed. intros Hl. rewrite odds_scan_eq.
  destruct (ODDS.Games (index ODDS.zero oddsDat tmpTeamId)) as [|ov rest]; [eauto|].
  destruct (After _ _); [|eauto].
  destruct (ODDS.Games _) as [|og rest']; [contradiction|eauto].
Qed.

Lemma game_body_eq tmpTeamId t ix g p c :
  game_body tmpTeamId t ix g (p, c) =
  match time_Parse (MLBsim.GameDate g) with
  | None => Panic "time.Parse"
  | Some tg =>
      match odds_scan tmpTeamId (tg + Hour) g p with
      | Panic m => Panic m
      | Ok p' =>
          if After (tg + Hour) t
          then Ok (MLB.set_game p' g (count_values c (MLBsim.Dk_points_list g)),
                   count_values c (MLBsim.Dk_points_list g), Break)
          else Ok (p', c, Continue)
      end
  end.
Proof.
  unfold MLB.game_body, MLB.parse_or_panic, rbind.
  destruct (time_Parse _); reflexivity.
Qed.

(** The entries before the selected one: each is parsed, scanned for odds
    and passed over. *)
Lemma game_loop_past tmpTeamId t pre :
  Forall (past time_Parse t) pre ->
  Forall (opponent_listed oddsDat) pre ->
  forall ix p c, exists p1,
    odds_only p p1
    /\ (forall bound, t <= bound -> quiet oddsDat tmpTeamId bound -> p1 = p)
    /\ forall rest, exists ix',
         range_loop (game_body tmpTeamId t) ix (pre ++ rest) (p, c)
         = range_loop (game_body tmpTeamId t) ix' rest (p1, c).
Proof.
  induction pre as [|g pre IH]; intros Hpast Hlisted ix p c.
  - exists p. split; [apply odds_only_refl|]. split; [reflexivity|].
    intros rest. exists ix. reflexivity.
  - inversion Hpast as [|? ? (tg & Hparse & Hnot) Hpast']; subst.
    inversion Hlisted as [|? ? Hl Hlisted']; subst.
    destruct (odds_scan_listed tmpTeamId (tg + Hour) g p Hl) as [p0 Hscan].
    destruct (IH Hpast' Hlisted' (S ix) p0 c) as (p1 & Honly & Hquiet & Hloop).
    exists p1. split; [|split].
    + eapply odds_only_trans; [|exact Honly]. eapply odds_scan_only; exact Hscan.
    + intros bound Hb Hq.
      assert (p0 = p) as ->.
      { rewrite (odds_scan_quiet tmpTeamId bound) in Hscan; [congruence|exact Hq|].
        unfold After in Hnot. apply Z.ltb_ge in Hnot. lia. }
      eapply Hquiet; eassumption.
    + intros rest. destruct (Hloop rest) as [ix' E]. exists ix'.
      cbn [app range_loop]. rewrite game_body_eq, Hparse, Hscan, Hnot. exact E.
Qed.

(** The Game Selector on a ledger whose first upcoming entry is [gs]. *)
Lemma game_loop_selected tmpTeamId t pre gs post ts p :
  Forall (past time_Parse t) pre ->
  time_Parse (MLBsim.GameDate gs) = Some ts ->
  After (ts + Hour) t = true ->
  Forall (opponent_listed oddsDat) (pre ++ [gs]) ->
  exists p1,
    game_loop tmpTeamId t (pre ++ gs :: post) p
    = Ok (MLB.set_game p1 gs (count_values zeroCounters (MLBsim.Dk_points_list gs)),
          count_values zeroCounters (MLBsim.Dk_points_list gs))
    /\ match ODDS.Games (index ODDS.zero oddsDat tmpTeamId) with
       | [] => p1 = p
       | odds_values :: _ =>
           if After (ts + Hour) (time_Unix (ODDS.Commence_time odds_values))
           then exists opp rest,
                  ODDS.Games (index ODDS.zero oddsDat (Sprint_int (MLBsim.Opponent gs)))
                  = opp :: rest
                  /\ p1 = MLB.set_odds p (ODDS.Points odds_values)
                            (ODDS.Points odds_values
                             / Avg_points (index zeroTeamPoints TeamKeys tmpTeamId))%float
                            (ODDS.Points opp)
           else p1 = p
       end.
Proof.
  intros Hpast Hparse Hafter Hlisted.
  apply Forall_app in Hlisted as [Hlpre Hlgs].
  inversion Hlgs as [|? ? Hl _]; subst.
  destruct (game_loop_past tmpTeamId t pre Hpast Hlpre 0%nat p zeroCounters)
    as (p0 & Honly & Hquiet & Hloop).
  destruct (Hloop (gs :: post)) as [ix' E].
  unfold MLB.game_loop. rewrite E. cbn [range_loop].
  rewrite game_body_eq, Hparse, Hafter.
  assert (Hlt : t <= ts + Hour) by (unfold After in Hafter; apply Z.ltb_lt in Hafter; lia).
  pose proof (Hquiet (ts + Hour) Hlt) as Hq. unfold quiet in Hq.
  rewrite odds_scan_eq. unfold opponent_listed in Hl.
  destruct (ODDS.Games (index ODDS.zero oddsDat tmpTeamId)) as [|ov rest].
  - exists p0. split; [reflexivity|]. apply Hq. exact I.
  - destruct (After (ts + Hour) (time_Unix (ODDS.Commence_time ov))) eqn:Hc.
    + destruct (ODDS.Games (index ODDS.zero oddsDat (Sprint_int (MLBsim.Opponent gs))))
        as [|og rest'] eqn:Hopp; [contradiction|].
      eexists. split; [reflexivity|].
      exists og, rest'. split; [reflexivity|].
      destruct Honly as [->|(a & b & c & ->)]; reflexivity.
    + exists p0. split; [reflexivity|]. apply Hq. reflexivity.
Qed.

(** The Game Selector on a ledger without an upcoming entry. *)
Lemma game_loop_none tmpTeamId t games p :
  Forall (past time_Parse t) games ->
  Forall (opponent_listed oddsDat) games ->
  exists p1, odds_only p p1 /\ game_loop tmpTeamId t games p = Ok (p1, zeroCounters).
Proof.
  intros Hpast Hlisted.
  destruct (game_loop_past tmpTeamId t games Hpast Hlisted 0%nat p zeroCounters)
    as (p1 & Honly & _ & Hloop).
  exists p1. split; [exact Honly|].
  destruct (Hloop []) as [ix' E]. rewrite app_nil_r in E.
  unfold MLB.game_loop. rewrite E. reflexivity.
Qed.


Lemma assemble_eq FinalPitcher s t :
  time_Parse (DK.StartTime (DK.Competition s)) = Some t ->
  assemble FinalPitcher s =
  match game_loop (MLBsim.Team_id (MLB.sim_of Keys pitchers s)) t
          (MLBsim.Games (MLB.sim_of Keys pitchers s)) (MLB.reset FinalPitcher s) with
  | Ok pc => Ok (MLB.finish (fst pc) s (MLB.lookup_of Keys s) (MLB.sim_of Keys pitchers s))
  | Panic m => Panic m
  end.
Proof.
  intros H. unfold MLB.assemble, MLB.parse_or_panic, rbind. rewrite H. reflexivity.
Qed.

End Pitchers.

(** ** Division by a zero average *)

Lemma Prim2SF_zero : Prim2SF 0 = S754_zero false.
Proof. reflexivity. Qed.

Lemma div_zero_not_zero (x : float) : (x / 0 =? 0)%float = false.
Proof.
  rewrite FloatAxioms.eqb_spec, div_spec, Prim2SF_zero.
  destruct (Prim2SF x) as [s|s| |s m e]; try destruct s; reflexivity.
Qed.

Lemma div_zero_positive (x : float) : (0 <? x)%float = true -> (x / 0)%float = infinity.
Proof.
  rewrite FloatAxioms.ltb_spec, Prim2SF_zero. intros H.
  apply Prim2SF_inj. rewrite div_spec, Prim2SF_zero.
  destruct (Prim2SF x) as [s|s| |s m e]; try discriminate H;
    destruct s; try discriminate H; reflexivity.
Qed.

Lemma div_zero_of_zero (x : float) : (x =? 0)%float = true -> is_nan (x / 0)%float = true.
Proof.
  rewrite FloatAxioms.eqb_spec, Prim2SF_zero. intros H.
  unfold is_nan. rewrite FloatAxioms.eqb_spec, div_spec, Prim2SF_zero.
  destruct (Prim2SF x) as [s|s| |s m e]; try discriminate H;
    try destruct s; try discriminate H; reflexivity.
Qed.

Lemma div_zero_negative (x : float) : (x <? 0)%float = true -> (x / 0)%float = neg_infinity.
Proof.
  rewrite FloatAxioms.ltb_spec, Prim2SF_zero. intros H.
  apply Prim2SF_inj. rewrite div_spec, Prim2SF_zero.
  destruct (Prim2SF x) as [s|s| |s m e]; try discriminate H;
    destruct s; try discriminate H; reflexivity.
Qed.

(** ** The odds table beyond index 0 *)

(** A divisor that compares equal to zero is one of the two zeros. *)
Lemma eqb_zero_Prim2SF (z : float) :
  (z =? 0)%float = true -> exists sz, Prim2SF z = S754_zero sz.
Proof.
  rewrite FloatAxioms.eqb_spec, Prim2SF_zero.
  destruct (Prim2SF z) as [sz|sz| |sz m e]; try destruct sz; try discriminate; eauto.
Qed.

Lemma div_by_zero_unsupported (x z : float) :
  (z =? 0)%float = true ->
  json_number (x / z) = false /\ (x / z =? 0)%float = false.
Proof.
  intros Hz. destruct (eqb_zero_Prim2SF z Hz) as [sz E].
  unfold json_number. rewrite FloatAxioms.eqb_spec, div_spec, E, Prim2SF_zero.
  destruct (Prim2SF x) as [s|s| |s m e]; split; try reflexivity;
    destruct s, sz; reflexivity.
Qed.

Lemma div_negzero_positive (x : float) :
  (0 <? x)%float = true -> (x / (-0))%float = neg_infinity.
Proof.
  intros H. apply Prim2SF_inj. rewrite div_spec.
  rewrite FloatAxioms.ltb_spec, Prim2SF_zero in H.
  change (Prim2SF (-0)) with (S754_zero true).
  destruct (Prim2SF x) as [s|s| |s m e]; try discriminate H;
    destruct s; try discriminate H; reflexivity.
Qed.

Lemma div_negzero_negative (x : float) :
  (x <? 0)%float = true -> (x / (-0))%float = infinity.
Proof.
  intros H. apply Prim2SF_inj. rewrite div_spec.
  rewrite FloatAxioms.ltb_spec, Prim2SF_zero in H.
  change (Prim2SF (-0)) with (S754_zero true).
  destruct (Prim2SF x) as [s|s| |s m e]; try discriminate H;
    destruct s; try discriminate H; reflexivity.
Qed.

Lemma div_of_zero_nan (x z : float) :
  (x =? 0)%float = true -> (z =? 0)%float = true -> is_nan (x / z)%float = true.
Proof.
  intros Hx Hz.
  destruct (eqb_zero_Prim2SF x Hx) as [sx Ex]. destruct (eqb_zero_Prim2SF z Hz) as [sz Ez].
  assert (E : (x / z)%float = nan).
  { apply Prim2SF_inj. rewrite div_spec, Ex, Ez. reflexivity. }
  rewrite E. reflexivity.
Qed.

(** One value that the encoder refuses leaves the response without body. *)
Lemma IndentedJSON_unsupported {A : Type} (floats : A -> list float)
    (Data : list A) (row : A) (x : float) :
  row ∈ Data -> x ∈ floats row -> json_number x = false ->
  IndentedJSON floats Data = NoBody "json: unsupported value".
Proof.
  intros Hrow Hx Hno. unfold IndentedJSON.
  destruct (forallb _ Data) eqn:E; [|reflexivity].
  rewrite forallb_forall in E.
  specialize (E row (proj1 (list_elem_of_In _ _) Hrow)).
  rewrite forallb_forall in E.
  specialize (E x (proj1 (list_elem_of_In _ _) Hx)). congruence.
Qed.

Lemma first_only_Games oddsDat k :
  ODDS.Games (index ODDS.zero (first_only oddsDat) k)
  = take 1 (ODDS.Games (index ODDS.zero oddsDat k)).
Proof.
  unfold index, first_only. rewrite lookup_fmap.
  destruct (oddsDat !! k); reflexivity.
Qed.

Lemma odds_scan_first_only oddsDat TeamKeys tmpTeamId gameTime g p :
  MLB.odds_scan (first_only oddsDat) TeamKeys tmpTeamId gameTime g p
  = MLB.odds_scan oddsDat TeamKeys tmpTeamId gameTime g p.
Proof.
  rewrite !odds_scan_eq, !first_only_Games.
  destruct (ODDS.Games (index ODDS.zero oddsDat tmpTeamId)) as [|ov rest]; [reflexivity|].
  cbn [take]. destruct (After _ _); [|reflexivity].
  destruct (ODDS.Games (index ODDS.zero oddsDat (Sprint_int (MLBsim.Opponent g))));
    reflexivity.
Qed.

Lemma range_loop_ext {A St : Type} (body body' : nat -> A -> St -> result (St * ctl)) :
  (forall ix a st, body ix a st = body' ix a st) ->
  forall l ix st, range_loop body ix l st = range_loop body' ix l st.
Proof.
  intros H l. induction l as [|a l IH]; intros ix st; simpl; [reflexivity|].
  rewrite H. destruct (body' ix a st) as [[st' [|]]|m]; auto.
Qed.

Lemma assemble_first_only time_Parse Keys pitchers oddsDat TeamKeys FinalPitcher s :
  MLB.assemble time_Parse Keys pitchers (first_only oddsDat) TeamKeys FinalPitcher s
  = MLB.assemble time_Parse Keys pitchers oddsDat TeamKeys FinalPitcher s.
Proof.
  unfold MLB.assemble, MLB.game_loop.
  destruct (MLB.parse_or_panic time_Parse _) as [t|m]; [|reflexivity].
  unfold rbind at 1 3.
  rewrite (range_loop_ext
             (MLB.game_body time_Parse (first_only oddsDat) TeamKeys
                (MLBsim.Team_id (MLB.sim_of Keys pitchers s)) t)
             (MLB.game_body time_Parse oddsDat TeamKeys
                (MLBsim.Team_id (MLB.sim_of Keys pitchers s)) t)); [reflexivity|].
  intros ix g [p c]. rewrite !game_body_eq.
  destruct (time_Parse _); [|reflexivity].
  rewrite odds_scan_first_only. reflexivity.
Qed.

Section PitcherClaims.

Variable time_Parse : string -> option Z.
Variable Keys : gmap string ServiceKey.
Variable pitchers : gmap string MLBsim.Pitcher.
Variable oddsDat : gmap string ODDS.Team.
Variable TeamKeys : gmap string TeamPoints.

#[local] Abbreviation game_loop := (MLB.game_loop time_Parse oddsDat TeamKeys).
#[local] Abbreviation assemble := (MLB.assemble time_Parse Keys pitchers oddsDat TeamKeys).
#[local] Abbreviation slot := (MLB.slot time_Parse Keys pitchers oddsDat TeamKeys).
#[local] Abbreviation slots := (MLB.slots time_Parse Keys pitchers oddsDat TeamKeys).
#[local] Abbreviation handler := (MLB.handler time_Parse Keys pitchers oddsDat TeamKeys).
#[local] Abbreviation sim_of := (MLB.sim_of Keys pitchers).
#[local] Abbreviation team_of := (fun s => MLBsim.Team_id (MLB.sim_of Keys pitchers s)).
#[local] Abbreviation odds_of := (fun k => ODDS.Games (index ODDS.zero oddsDat k)).

(** The row of a slot whose ledger has [gs] as its first upcoming entry. *)
Lemma assemble_selected FinalPitcher s t pre gs post ts :
  time_Parse (DK.StartTime (DK.Competition s)) = Some t ->
  MLBsim.Games (sim_of s) = pre ++ gs :: post ->
  Forall (past time_Parse t) pre ->
  time_Parse (MLBsim.GameDate gs) = Some ts ->
  After (ts + Hour) t = true ->
  Forall (opponent_listed oddsDat) (pre ++ [gs]) ->
  exists r,
    assemble FinalPitcher s = Ok r
    /\ game_context r = context_of gs
    /\ MLB.ProjPointsList r = histogram (MLBsim.Dk_points_list gs)
    /\ match odds_of (team_of s) with
       | [] => odds_fields r = (0, 0, 0)%float
       | odds_values :: _ =>
           if After (ts + Hour) (time_Unix (ODDS.Commence_time odds_values))
           then exists opp rest,
                  odds_of (Sprint_int (MLBsim.Opponent gs)) = opp :: rest
                  /\ odds_fields r =
                     (ODDS.Points odds_values,
                      (ODDS.Points odds_values
                       / Avg_points (index zeroTeamPoints TeamKeys (team_of s)))%float,
                      ODDS.Points opp)
           else odds_fields r = (0, 0, 0)%float
       end.
Proof.
  intros Ht Hg Hpast Hparse Hafter Hlisted.
  rewrite (assemble_eq _ _ _ _ _ _ _ t Ht), Hg.
  destruct (game_loop_selected time_Parse oddsDat TeamKeys (team_of s) t pre gs post ts
              (MLB.reset FinalPitcher s) Hpast Hparse Hafter Hlisted) as (p1 & -> & Hodds).
  eexists. split; [reflexivity|]. split; [reflexivity|]. split; [reflexivity|].
  cbn [fst].
  destruct (ODDS.Games (index ODDS.zero oddsDat (team_of s))) as [|ov rest].
  - subst p1. reflexivity.
  - destruct (After (ts + Hour) (time_Unix (ODDS.Commence_time ov))).
    + destruct Hodds as (opp & rest' & Hopp & ->).
      exists opp, rest'. split; [exact Hopp | reflexivity].
    + subst p1. reflexivity.
Qed.

(** The row of a slot whose ledger has no upcoming entry. *)
Lemma assemble_none FinalPitcher s t :
  time_Parse (DK.StartTime (DK.Competition s)) = Some t ->
  Forall (past time_Parse t) (MLBsim.Games (sim_of s)) ->
  Forall (opponent_listed oddsDat) (MLBsim.Games (sim_of s)) ->
  exists r,
    assemble FinalPitcher s = Ok r
    /\ game_context r = default_context
    /\ MLB.ProjPointsList r = MLB.ProjPointsList FinalPitcher.
Proof.
  intros Ht Hpast Hlisted.
  rewrite (assemble_eq _ _ _ _ _ _ _ t Ht).
  destruct (game_loop_none time_Parse oddsDat TeamKeys (team_of s) t _
              (MLB.reset FinalPitcher s) Hpast Hlisted) as (p1 & Honly & ->).
  eexists. split; [reflexivity|]. cbn [fst].
  destruct Honly as [->|(a & b & c & ->)]; split; reflexivity.
Qed.

(** *** The scan of a ledger, entry by entry

    The odds scan runs at every entry that the ledger scan reads, before the
    test that selects a game. *)

Lemma not_matches_no_odds tmpTeamId g :
  ODDS.Games (index ODDS.zero oddsDat tmpTeamId) = [] ->
  ~ matches time_Parse oddsDat tmpTeamId g.
Proof. intros Hodds (tg & ov & rest & _ & E & _). rewrite Hodds in E. discriminate E. Qed.

Lemma not_matches_later tmpTeamId g tg odds_values rest :
  time_Parse (MLBsim.GameDate g) = Some tg ->
  ODDS.Games (index ODDS.zero oddsDat tmpTeamId) = odds_values :: rest ->
  After (tg + Hour) (time_Unix (ODDS.Commence_time odds_values)) = false ->
  ~ matches time_Parse oddsDat tmpTeamId g.
Proof.
  intros Hparse Hodds Hc (tg' & ov' & rest' & Hp & E & Hc').
  rewrite Hparse in Hp. injection Hp as <-.
  rewrite Hodds in E. injection E as <- <-. congruence.
Qed.

Lemma scan_step tmpTeamId g tg p :
  time_Parse (MLBsim.GameDate g) = Some tg ->
  scan_completes time_Parse oddsDat tmpTeamId g ->
  (~ matches time_Parse oddsDat tmpTeamId g
   /\ MLB.odds_scan oddsDat TeamKeys tmpTeamId (tg + Hour) g p = Ok p)
  \/ (matches time_Parse oddsDat tmpTeamId g
      /\ exists odds_values rest opp rest',
           ODDS.Games (index ODDS.zero oddsDat tmpTeamId) = odds_values :: rest
           /\ ODDS.Games (index ODDS.zero oddsDat (Sprint_int (MLBsim.Opponent g)))
              = opp :: rest'
           /\ MLB.odds_scan oddsDat TeamKeys tmpTeamId (tg + Hour) g p
              = Ok (MLB.set_odds p (ODDS.Points odds_values)
                      (ODDS.Points odds_values
                       / Avg_points (index zeroTeamPoints TeamKeys tmpTeamId))%float
                      (ODDS.Points opp))).
Proof.
  intros Hparse Hsc. rewrite odds_scan_eq.
  destruct (ODDS.Games (index ODDS.zero oddsDat tmpTeamId)) as [|ov rest] eqn:Hodds.
  - left. split; [apply not_matches_no_odds, Hodds | reflexivity].
  - destruct (After (tg + Hour) (time_Unix (ODDS.Commence_time ov))) eqn:Hc.
    + assert (Hm : matches time_Parse oddsDat tmpTeamId g)
        by (exists tg, ov, rest; auto).
      pose proof (Hsc Hm) as Hl. unfold opponent_listed in Hl.
      destruct (ODDS.Games (index ODDS.zero oddsDat (Sprint_int (MLBsim.Opponent g))))
        as [|opp rest'] eqn:Hopp; [contradiction|].
      right. split; [exact Hm|]. exists ov, rest, opp, rest'. auto.
    + left. split; [|reflexivity].
      apply (not_matches_later tmpTeamId g tg ov rest Hparse Hodds Hc).
Qed.

(** The odds test succeeds at an entry whose opponent has no odds list: the
    index expression panics. *)
Lemma scan_unlisted tmpTeamId g tg odds_values rest p :
  ODDS.Games (index ODDS.zero oddsDat tmpTeamId) = odds_values :: rest ->
  After (tg + Hour) (time_Unix (ODDS.Commence_time odds_values)) = true ->
  ODDS.Games (index ODDS.zero oddsDat (Sprint_int (MLBsim.Opponent g))) = [] ->
  MLB.odds_scan oddsDat TeamKeys tmpTeamId (tg + Hour) g p = Panic "index out of range".
Proof. intros Hodds Hc Hopp. rewrite odds_scan_eq, Hodds, Hc, Hopp. reflexivity. Qed.

(** The entries before the first upcoming one: the row leaves them as it
    entered, or with the odds fields that the last of them at which the test
    succeeded gave it. *)
Lemma game_loop_prefix tmpTeamId t pre :
  Forall (past time_Parse t) pre ->
  Forall (scan_completes time_Parse oddsDat tmpTeamId) pre ->
  forall ix p c, exists p1,
    (forall rest, exists ix',
       range_loop (MLB.game_body time_Parse oddsDat TeamKeys tmpTeamId t) ix
         (pre ++ rest) (p, c)
       = range_loop (MLB.game_body time_Parse oddsDat TeamKeys tmpTeamId t) ix'
           rest (p1, c))
    /\ ((~ Exists (matches time_Parse oddsDat tmpTeamId) pre /\ p1 = p)
        \/ exists g odds_values rest opp rest',
             g ∈ pre
             /\ matches time_Parse oddsDat tmpTeamId g
             /\ ODDS.Games (index ODDS.zero oddsDat tmpTeamId) = odds_values :: rest
             /\ ODDS.Games (index ODDS.zero oddsDat (Sprint_int (MLBsim.Opponent g)))
                = opp :: rest'
             /\ p1 = MLB.set_odds p (ODDS.Points odds_values)
                       (ODDS.Points odds_values
                        / Avg_points (index zeroTeamPoints TeamKeys tmpTeamId))%float
                       (ODDS.Points opp)).
Proof.
  induction pre as [|g pre IH]; intros Hpast Hsc ix p c.
  - exists p. split; [intros rest; exists ix; reflexivity|].
    left. split; [intros H; inversion H | reflexivity].
  - inversion Hpast as [|? ? (tg & Hparse & Hnot) Hpast']; subst.
    inversion Hsc as [|? ? Hg Hsc']; subst.
    destruct (scan_step tmpTeamId g tg p Hparse Hg)
      as [[Hnm Hscan]|(Hm & ov & rest & opp & rest' & Hodds & Hopp & Hscan)].
    + destruct (IH Hpast' Hsc' (S ix) p c) as (p1 & Hloop & Hcase).
      exists p1. split.
      * intros rest. destruct (Hloop rest) as [ix' E]. exists ix'.
        cbn [app range_loop]. rewrite game_body_eq, Hparse, Hscan, Hnot. exact E.
      * destruct Hcase as [[Hno ->]|(g' & ov & rest & opp & rest' & Hin & Hm & Ho & Hopp & ->)].
        -- left. split; [|reflexivity]. intros H. apply Exists_cons in H as [H|H]; auto.
        -- right. exists g', ov, rest, opp, rest'.
           split; [right; exact Hin|]. auto.
    + destruct (IH Hpast' Hsc' (S ix)
                  (MLB.set_odds p (ODDS.Points ov)
                     (ODDS.Points ov / Avg_points (index zeroTeamPoints TeamKeys tmpTeamId))%float
                     (ODDS.Points opp)) c) as (p1 & Hloop & Hcase).
      exists p1. split.
      * intros rest0. destruct (Hloop rest0) as [ix' E]. exists ix'.
        cbn [app range_loop]. rewrite game_body_eq, Hparse, Hscan, Hnot. exact E.
      * right.
        destruct Hcase as [[Hno ->]|(g' & ov' & rest0 & opp' & rest0' & Hin & Hm' & Ho & Hopp' & ->)].
        -- exists g, ov, rest, opp, rest'. split; [left|]. auto.
        -- exists g', ov', rest0, opp', rest0'. split; [right; exact Hin|].
           split; [exact Hm'|]. split; [exact Ho|]. split; [exact Hopp'|]. reflexivity.
Qed.

(** The row of a slot whose ledger has [gs] as its first upcoming entry. *)
Lemma assemble_scan_selected FinalPitcher s t pre gs post ts :
  time_Parse (DK.StartTime (DK.Competition s)) = Some t ->
  MLBsim.Games (sim_of s) = pre ++ gs :: post ->
  Forall (past time_Parse t) pre ->
  time_Parse (MLBsim.GameDate gs) = Some ts ->
  After (ts + Hour) t = true ->
  Forall (scan_completes time_Parse oddsDat (team_of s)) (pre ++ [gs]) ->
  exists r,
    assemble FinalPitcher s = Ok r
    /\ game_context r = context_of gs
    /\ MLB.ProjPointsList r = histogram (MLBsim.Dk_points_list gs)
    /\ (matches time_Parse oddsDat (team_of s) gs ->
        exists odds_values rest opp rest',
          ODDS.Games (index ODDS.zero oddsDat (team_of s)) = odds_values :: rest
          /\ ODDS.Games (index ODDS.zero oddsDat (Sprint_int (MLBsim.Opponent gs)))
             = opp :: rest'
          /\ odds_fields r =
             (ODDS.Points odds_values,
              (ODDS.Points odds_values
               / Avg_points (index zeroTeamPoints TeamKeys (team_of s)))%float,
              ODDS.Points opp))
    /\ (~ Exists (matches time_Parse oddsDat (team_of s)) (pre ++ [gs]) ->
        odds_fields r = (0, 0, 0)%float)
    /\ (Exists (matches time_Parse oddsDat (team_of s)) (pre ++ [gs]) ->
        exists g odds_values rest opp rest',
          g ∈ pre ++ [gs]
          /\ matches time_Parse oddsDat (team_of s) g
          /\ ODDS.Games (index ODDS.zero oddsDat (team_of s)) = odds_values :: rest
          /\ ODDS.Games (index ODDS.zero oddsDat (Sprint_int (MLBsim.Opponent g)))
             = opp :: rest'
          /\ odds_fields r =
             (ODDS.Points odds_values,
              (ODDS.Points odds_values
               / Avg_points (index zeroTeamPoints TeamKeys (team_of s)))%float,
              ODDS.Points opp)).
Proof.
  intros Ht Hg Hpast Hparse Hafter Hsc.
  apply Forall_app in Hsc as [Hscpre Hscgs].
  inversion Hscgs as [|? ? Hgs _]; subst.
  destruct (game_loop_prefix (team_of s) t pre Hpast Hscpre 0%nat
              (MLB.reset FinalPitcher s) zeroCounters) as (p1 & Hloop & Hcase).
  destruct (Hloop (gs :: post)) as [ix' E].
  rewrite (assemble_eq _ _ _ _ _ _ _ t Ht), Hg. unfold MLB.game_loop. rewrite E.
  cbn [range_loop]. rewrite game_body_eq, Hparse.
  destruct (scan_step (team_of s) gs ts p1 Hparse Hgs)
    as [[Hnm Hscan]|(Hm & ov & rest & opp & rest' & Hodds & Hopp & Hscan)];
    rewrite Hscan, Hafter; cbn [fst]; eexists; (split; [reflexivity|]).
  - split; [reflexivity|]. split; [reflexivity|].
    split; [intros Hm; contradiction|].
    destruct Hcase as [[Hno ->]|(g & ov & rest & opp & rest' & Hin & Hm & Ho & Hopp & ->)].
    + split; [reflexivity|].
      intros H. apply Exists_app in H as [H|H]; [contradiction|].
      apply Exists_cons in H as [H|H]; [contradiction | inversion H].
    + split.
      * intros Hno. exfalso. apply Hno, Exists_app. left.
        apply Exists_exists. exists g. split; [exact Hin | exact Hm].
      * intros _. exists g, ov, rest, opp, rest'.
        split; [apply elem_of_app; left; exact Hin|]. auto.
  - split; [reflexivity|]. split; [reflexivity|].
    split; [intros _; exists ov, rest, opp, rest'; auto|].
    split.
    + intros Hno. exfalso. apply Hno, Exists_app. right. left. exact Hm.
    + intros _. exists gs, ov, rest, opp, rest'.
      split; [apply elem_of_app; right; left|]. auto.
Qed.

(** The row of a slot whose ledger has no upcoming entry. *)
Lemma assemble_scan_none FinalPitcher s t :
  time_Parse (DK.StartTime (DK.Competition s)) = Some t ->
  Forall (past time_Parse t) (MLBsim.Games (sim_of s)) ->
  Forall (scan_completes time_Parse oddsDat (team_of s)) (MLBsim.Games (sim_of s)) ->
  exists r,
    assemble FinalPitcher s = Ok r
    /\ game_context r = default_context
    /\ MLB.ProjPointsList r = MLB.ProjPointsList FinalPitcher
    /\ (~ Exists (matches time_Parse oddsDat (team_of s)) (MLBsim.Games (sim_of s)) ->
        odds_fields r = (0, 0, 0)%float)
    /\ (Exists (matches time_Parse oddsDat (team_of s)) (MLBsim.Games (sim_of s)) ->
        exists g odds_values rest opp rest',
          g ∈ MLBsim.Games (sim_of s)
          /\ matches time_Parse oddsDat (team_of s) g
          /\ ODDS.Games (index ODDS.zero oddsDat (team_of s)) = odds_values :: rest
          /\ ODDS.Games (index ODDS.zero oddsDat (Sprint_int (MLBsim.Opponent g)))
             = opp :: rest'
          /\ odds_fields r =
             (ODDS.Points odds_values,
              (ODDS.Points odds_values
               / Avg_points (index zeroTeamPoints TeamKeys (team_of s)))%float,
              ODDS.Points opp)).
Proof.
  intros Ht Hpast Hsc.
  destruct (game_loop_prefix (team_of s) t _ Hpast Hsc 0%nat
              (MLB.reset FinalPitcher s) zeroCounters) as (p1 & Hloop & Hcase).
  destruct (Hloop []) as [ix' E]. rewrite app_nil_r in E.
  rewrite (assemble_eq _ _ _ _ _ _ _ t Ht). unfold MLB.game_loop. rewrite E.
  cbn [range_loop fst]. eexists. split; [reflexivity|].
  destruct Hcase as [[Hno ->]|(g & ov & rest & opp & rest' & Hin & Hm & Ho & Hopp & ->)].
  - split; [reflexivity|]. split; [reflexivity|].
    split; [reflexivity | intros H; contradiction].
  - split; [reflexivity|]. split; [reflexivity|]. split.
    + intros Hno. exfalso. apply Hno, Exists_exists.
      exists g. split; [exact Hin | exact Hm].
    + intros _. exists g, ov, rest, opp, rest'. auto.
Qed.

(** The odds fields of a row, from the entries that the scan read. *)
Lemma assemble_reads FinalPitcher s t scanned :
  time_Parse (DK.StartTime (DK.Competition s)) = Some t ->
  reads time_Parse t (MLBsim.Games (sim_of s)) scanned ->
  Forall (scan_completes time_Parse oddsDat (team_of s)) scanned ->
  exists r,
    assemble FinalPitcher s = Ok r
    /\ (~ Exists (matches time_Parse oddsDat (team_of s)) scanned ->
        odds_fields r = (0, 0, 0)%float)
    /\ (Exists (matches time_Parse oddsDat (team_of s)) scanned ->
        exists g odds_values rest opp rest',
          g ∈ scanned
          /\ matches time_Parse oddsDat (team_of s) g
          /\ ODDS.Games (index ODDS.zero oddsDat (team_of s)) = odds_values :: rest
          /\ ODDS.Games (index ODDS.zero oddsDat (Sprint_int (MLBsim.Opponent g)))
             = opp :: rest'
          /\ odds_fields r =
             (ODDS.Points odds_values,
              (ODDS.Points odds_values
               / Avg_points (index zeroTeamPoints TeamKeys (team_of s)))%float,
              ODDS.Points opp)).
Proof.
  intros Ht [[Hpast ->]|(pre & gs & post & Hg & Hpast & (ts & Hparse & Hafter) & ->)] Hsc.
  - destruct (assemble_scan_none FinalPitcher s t Ht Hpast Hsc)
      as (r & Hr & _ & _ & H0 & H1).
    exists r. auto.
  - destruct (assemble_scan_selected FinalPitcher s t pre gs post ts
                Ht Hg Hpast Hparse Hafter Hsc) as (r & Hr & _ & _ & _ & H0 & H1).
    exists r. auto.
Qed.

(** An entry that lies in the past cannot pass the odds test when the
    first upcoming one does not. *)
Lemma not_matches_scanned tmpTeamId t pre gs ts odds_values rest :
  Forall (past time_Parse t) pre ->
  time_Parse (MLBsim.GameDate gs) = Some ts ->
  After (ts + Hour) t = true ->
  ODDS.Games (index ODDS.zero oddsDat tmpTeamId) = odds_values :: rest ->
  After (ts + Hour) (time_Unix (ODDS.Commence_time odds_values)) = false ->
  ~ Exists (matches time_Parse oddsDat tmpTeamId) (pre ++ [gs]).
Proof.
  intros Hpast Hparse Hafter Hodds Hc H.
  apply Exists_exists in H as (g & Hin & Hm).
  apply elem_of_app in Hin as [Hin|Hin];
    [|apply list_elem_of_singleton in Hin; subst g].
  - rewrite Forall_forall in Hpast. destruct (Hpast g Hin) as (tg & Hp & Hnot).
    revert Hm. apply (not_matches_later tmpTeamId g tg odds_values rest Hp Hodds).
    unfold After in *. apply Z.ltb_ge in Hnot, Hc. apply Z.ltb_lt in Hafter.
    apply Z.ltb_ge. lia.
  - revert Hm. apply (not_matches_later tmpTeamId gs ts odds_values rest Hparse Hodds Hc).
Qed.

(** C1, as the code has it.  The Odds Enricher reads the team's odds list
    at index 0 only.  For a slot whose ledger has [gs] as the selected game
    and whose team has an odds list with at least one entry: if the instant
    that [time.Unix] makes of the first entry's commence time is strictly
    before the game's time plus one hour, the row records that entry's
    points as the team's projected points, their quotient by the team
    average as the odds factor, and the points of the opponent's entry at
    index 0; otherwise the three fields stay at zero.  Cutting every odds
    list down to its first entry changes nothing, whether or not the time
    condition matched.  The opponent's list is indexed without a test: when
    the condition matched and the opponent has no odds entry, the request
    panics.  (The scan runs in the same way at the ledger entries before the
    selected one: their dates parse, and where the condition matches there
    the opponent has an odds entry.) *)
Theorem odds_enricher_first_entry :
  (forall FinalPitcher s t pre gs post ts odds_values rest,
     time_Parse (DK.StartTime (DK.Competition s)) = Some t ->
     MLBsim.Games (sim_of s) = pre ++ gs :: post ->
     Forall (past time_Parse t) pre ->
     time_Parse (MLBsim.GameDate gs) = Some ts ->
     After (ts + Hour) t = true ->
     Forall (scan_completes time_Parse oddsDat (team_of s)) (pre ++ [gs]) ->
     odds_of (team_of s) = odds_values :: rest ->
     exists r,
       assemble FinalPitcher s = Ok r
       /\ if After (ts + Hour) (time_Unix (ODDS.Commence_time odds_values))
          then exists opp rest',
                 odds_of (Sprint_int (MLBsim.Opponent gs)) = opp :: rest'
                 /\ odds_fields r =
                    (ODDS.Points odds_values,
                     (ODDS.Points odds_values
                      / Avg_points (index zeroTeamPoints TeamKeys (team_of s)))%float,
                     ODDS.Points opp)
          else odds_fields r = (0, 0, 0)%float)
  /\ (forall FinalPitcher s,
        MLB.assemble time_Parse Keys pitchers (first_only oddsDat) TeamKeys FinalPitcher s
        = assemble FinalPitcher s)
  /\ (forall FinalPitcher s t pre gs post ts odds_values rest,
        time_Parse (DK.StartTime (DK.Competition s)) = Some t ->
        MLBsim.Games (sim_of s) = pre ++ gs :: post ->
        Forall (past time_Parse t) pre ->
        Forall (scan_completes time_Parse oddsDat (team_of s)) pre ->
        time_Parse (MLBsim.GameDate gs) = Some ts ->
        odds_of (team_of s) = odds_values :: rest ->
        After (ts + Hour) (time_Unix (ODDS.Commence_time odds_values)) = true ->
        odds_of (Sprint_int (MLBsim.Opponent gs)) = [] ->
        assemble FinalPitcher s = Panic "index out of range").
Proof.
  split; [|split].
  - intros FinalPitcher s t pre gs post ts ov rest Ht Hg Hpast Hparse Hafter Hsc Hodds.
    cbv beta in Hodds.
    destruct (assemble_scan_selected FinalPitcher s t pre gs post ts
                Ht Hg Hpast Hparse Hafter Hsc) as (r & Hr & _ & _ & Hm & Hno & _).
    exists r. split; [exact Hr|].
    destruct (After (ts + Hour) (time_Unix (ODDS.Commence_time ov))) eqn:Hc.
    + destruct Hm as (ov' & rest0 & opp & rest' & Ho & Hopp & Hf).
      { exists ts, ov, rest. auto. }
      rewrite Hodds in Ho. injection Ho as <- <-.
      exists opp, rest'. split; [exact Hopp | exact Hf].
    + apply Hno. apply (not_matches_scanned _ t pre gs ts ov rest); assumption.
  - intros FinalPitcher s. apply assemble_first_only.
  - intros FinalPitcher s t pre gs post ts ov rest Ht Hg Hpast Hsc Hparse Hodds Hc Hopp.
    cbv beta in Hodds, Hopp.
    destruct (game_loop_prefix (team_of s) t pre Hpast Hsc 0%nat
                (MLB.reset FinalPitcher s) zeroCounters) as (p1 & Hloop & _).
    destruct (Hloop (gs :: post)) as [ix' E].
    rewrite (assemble_eq _ _ _ _ _ _ _ t Ht), Hg. unfold MLB.game_loop. rewrite E.
    cbn [range_loop]. rewrite game_body_eq, Hparse.
    rewrite (scan_unlisted (team_of s) gs ts ov rest p1 Hodds Hc Hopp). reflexivity.
Qed.


(** A row of the output whose odds factor the encoder refuses leaves the
    response of the pitchers block without body. *)
Lemma pitchers_unsupported draftables out r :
  handler draftables = Ok out ->
  r ∈ out ->
  json_number (MLB.Game_player_oddsfactor r) = false ->
  MLB.pitchers_draftkings time_Parse Keys pitchers oddsDat TeamKeys draftables
  = Ok (NoBody "json: unsupported value").
Proof.
  intros Hout Hr Hno. unfold MLB.pitchers_draftkings. rewrite Hout. cbn [rbind].
  f_equal.
  apply (IndentedJSON_unsupported MLB.floats out r (MLB.Game_player_oddsfactor r) Hr);
    [|exact Hno].
  unfold MLB.floats. do 4 right. left.
Qed.

(** C7, as the code has it.  The division that yields the odds factor is
    not guarded.  For a slot whose team's average is a zero and at one of
    whose ledger entries, among those the scan reads, the odds test
    succeeded, the factor is the IEEE 754 quotient of the implied points by
    that zero.  It is never zero: it is an infinity for points other than
    zero (+Inf for positive and -Inf for negative points over the zero of
    positive sign, the opposite over the zero of negative sign) and NaN for
    zero points.  The division raises no panic and the quotient is stored
    in the row; the encoder refuses it, so the response of a request whose
    output holds a row with that factor has no body.  (The slot is one
    whose scan completes: the start time and the ledger dates read parse
    and, where the odds test succeeds, the opponent has an odds entry at
    index 0.) *)
Theorem odds_factor_unguarded FinalPitcher s t scanned g odds_values rest :
  time_Parse (DK.StartTime (DK.Competition s)) = Some t ->
  reads time_Parse t (MLBsim.Games (sim_of s)) scanned ->
  Forall (scan_completes time_Parse oddsDat (team_of s)) scanned ->
  g ∈ scanned ->
  matches time_Parse oddsDat (team_of s) g ->
  odds_of (team_of s) = odds_values :: rest ->
  (Avg_points (index zeroTeamPoints TeamKeys (team_of s)) =? 0)%float = true ->
  exists r,
    assemble FinalPitcher s = Ok r
    /\ MLB.Game_player_oddsfactor r
       = (ODDS.Points odds_values
          / Avg_points (index zeroTeamPoints TeamKeys (team_of s)))%float
    /\ (MLB.Game_player_oddsfactor r =? 0)%float = false
    /\ json_number (MLB.Game_player_oddsfactor r) = false
    /\ (Avg_points (index zeroTeamPoints TeamKeys (team_of s)) = 0%float ->
        ((0 <? ODDS.Points odds_values)%float = true ->
         MLB.Game_player_oddsfactor r = infinity)
        /\ ((ODDS.Points odds_values <? 0)%float = true ->
            MLB.Game_player_oddsfactor r = neg_infinity))
    /\ (Avg_points (index zeroTeamPoints TeamKeys (team_of s)) = (-0)%float ->
        ((0 <? ODDS.Points odds_values)%float = true ->
         MLB.Game_player_oddsfactor r = neg_infinity)
        /\ ((ODDS.Points odds_values <? 0)%float = true ->
            MLB.Game_player_oddsfactor r = infinity))
    /\ ((ODDS.Points odds_values =? 0)%float = true ->
        is_nan (MLB.Game_player_oddsfactor r) = true)
    /\ (forall draftables out r',
          handler draftables = Ok out ->
          r' ∈ out ->
          MLB.Game_player_oddsfactor r' = MLB.Game_player_oddsfactor r ->
          MLB.pitchers_draftkings time_Parse Keys pitchers oddsDat TeamKeys draftables
          = Ok (NoBody "json: unsupported value")).
Proof.
  intros Ht Hreads Hsc Hin Hm Hodds Havg. cbv beta in Hodds.
  destruct (assemble_reads FinalPitcher s t scanned Ht Hreads Hsc) as (r & Hr & _ & H).
  destruct H as (g' & ov & rest0 & opp & rest' & _ & _ & Ho & _ & Hf).
  { apply Exists_exists. exists g. split; [exact Hin | exact Hm]. }
  rewrite Hodds in Ho. injection Ho as <- <-.
  exists r. split; [exact Hr|].
  assert (Hq : MLB.Game_player_oddsfactor r
               = (ODDS.Points odds_values
                  / Avg_points (index zeroTeamPoints TeamKeys (team_of s)))%float)
    by (unfold odds_fields in Hf; congruence).
  split; [exact Hq|].
  destruct (div_by_zero_unsupported (ODDS.Points odds_values) _ Havg) as [Hj Hz].
  rewrite <- Hq in Hj, Hz.
  split; [exact Hz|]. split; [exact Hj|]. split; [|split; [|split]].
  - intros E. rewrite Hq, E. split; [apply div_zero_positive | apply div_zero_negative].
  - intros E. rewrite Hq, E. split; [apply div_negzero_positive | apply div_negzero_negative].
  - intros Hp. rewrite Hq. apply div_of_zero_nan; assumption.
  - intros draftables out r' Hout Hr' E.
    apply (pitchers_unsupported draftables out r' Hout Hr'). rewrite E. exact Hj.
Qed.

(** A start time that does not parse ends the slot, and a ledger date that
    the scan reaches and that does not parse ends it too. *)
Lemma assemble_unparsed_start FinalPitcher s :
  time_Parse (DK.StartTime (DK.Competition s)) = None ->
  assemble FinalPitcher s = Panic "time.Parse".
Proof.
  intros H. unfold MLB.assemble, MLB.parse_or_panic. rewrite H. reflexivity.
Qed.

Lemma game_loop_unparsed tmpTeamId t pre g post :
  Forall (fun g' => forall tg, time_Parse (MLBsim.GameDate g') = Some tg ->
                               After (tg + Hour) t = false) pre ->
  time_Parse (MLBsim.GameDate g) = None ->
  forall ix pc, exists m,
    range_loop (MLB.game_body time_Parse oddsDat TeamKeys tmpTeamId t) ix
      (pre ++ g :: post) pc = Panic m.
Proof.
  intros Hpre Hg. induction Hpre as [|g' pre Hg' _ IH]; intros ix [p c].
  - cbn [app range_loop]. rewrite game_body_eq, Hg. eauto.
  - cbn [app range_loop]. rewrite game_body_eq.
    destruct (time_Parse (MLBsim.GameDate g')) as [tg|] eqn:E; [|eauto].
    destruct (MLB.odds_scan oddsDat TeamKeys tmpTeamId (tg + Hour) g' p); [|eauto].
    rewrite (Hg' tg eq_refl). apply IH.
Qed.

Lemma assemble_unparsed_game FinalPitcher s t pre g post :
  time_Parse (DK.StartTime (DK.Competition s)) = Some t ->
  MLBsim.Games (sim_of s) = pre ++ g :: post ->
  Forall (fun g' => forall tg, time_Parse (MLBsim.GameDate g') = Some tg ->
                               After (tg + Hour) t = false) pre ->
  time_Parse (MLBsim.GameDate g) = None ->
  exists m, assemble FinalPitcher s = Panic m.
Proof.
  intros Ht Hgames Hpre Hg.
  rewrite (assemble_eq _ _ _ _ _ _ _ t Ht), Hgames. unfold MLB.game_loop.
  destruct (game_loop_unparsed (team_of s) t pre g post Hpre Hg 0%nat
              (MLB.reset FinalPitcher s, zeroCounters)) as [m ->].
  eauto.
Qed.

Lemma slots_panic draftables s :
  s ∈ draftables ->
  (forall st, exists m, slot st s = Panic m) ->
  forall st, exists m, slots draftables st = Panic m.
Proof.
  intros Hin Hs. induction draftables as [|s' l IH]; intros st; [inversion Hin|].
  cbn [MLB.slots]. apply elem_of_cons in Hin as [<-|Hin].
  - destruct (Hs st) as [m ->]. simpl. eauto.
  - destruct (slot st s') as [st'|m]; simpl; [apply IH; exact Hin | eauto].
Qed.

Lemma handler_panic draftables s :
  s ∈ draftables ->
  (forall st, exists m, slot st s = Panic m) ->
  exists m, handler draftables = Panic m.
Proof.
  intros Hin Hs. unfold MLB.handler.
  destruct (slots_panic draftables s Hin Hs MLB.initial) as [m ->]. simpl. eauto.
Qed.

(** C9, as the code has it.  If the competition start time of a slot that
    the pitchers path processes (its position names a pitcher) does not
    parse, or the date of a ledger entry that the scan of such a slot
    reaches (no earlier entry having been selected) does not parse, the
    handler panics: the request is aborted and no row is output for any
    slot. *)
Theorem malformed_timestamp_aborts :
  (forall draftables s,
     s ∈ draftables ->
     MLB.is_pitcher_slot s = true ->
     time_Parse (DK.StartTime (DK.Competition s)) = None ->
     exists m, handler draftables = Panic m)
  /\ (forall draftables s t pre g post,
        s ∈ draftables ->
        MLB.is_pitcher_slot s = true ->
        time_Parse (DK.StartTime (DK.Competition s)) = Some t ->
        MLBsim.Games (sim_of s) = pre ++ g :: post ->
        Forall (fun g' => forall tg, time_Parse (MLBsim.GameDate g') = Some tg ->
                                     After (tg + Hour) t = false) pre ->
        time_Parse (MLBsim.GameDate g) = None ->
        exists m, handler draftables = Panic m).
Proof.
  split.
  - intros draftables s Hin Hpos Hstart.
    apply (handler_panic draftables s Hin). intros st.
    unfold MLB.slot. rewrite Hpos, (assemble_unparsed_start _ s Hstart). simpl. eauto.
  - intros draftables s t pre g post Hin Hpos Hstart Hgames Hpre Hg.
    apply (handler_panic draftables s Hin). intros st.
    unfold MLB.slot. rewrite Hpos.
    destruct (assemble_unparsed_game (MLB.FinalPitcher st) s t pre g post Hstart Hgames Hpre Hg)
      as [m ->].
    simpl. eauto.
Qed.

(** The probable-pitcher flag of a row is the one computed from the slot's
    attributes: neither loop nor the later assignments touch it. *)
Lemma assemble_probable FinalPitcher s r :
  assemble FinalPitcher s = Ok r ->
  MLB.ProbablePitcher r = MLB.probable_of (DK.PlayerGameAttributes s).
Proof.
  unfold MLB.assemble, MLB.parse_or_panic.
  destruct (time_Parse _) as [t|]; [|discriminate]. cbn [rbind].
  destruct (game_loop _ t _ _) as [pc|m] eqn:E; [|discriminate].
  cbn [rbind]. intros [= <-].
  change (MLB.ProbablePitcher (fst pc) = MLB.ProbablePitcher (MLB.reset FinalPitcher s)).
  unfold MLB.game_loop in E.
  apply (range_loop_inv _
           (fun pc => MLB.ProbablePitcher (fst pc)
                      = MLB.ProbablePitcher (MLB.reset FinalPitcher s))) in E;
    [exact E| |reflexivity].
  intros ix g [p c] [p' c'] k Hp Hbody. rewrite game_body_eq in Hbody.
  destruct (time_Parse _) as [tg|]; [|discriminate].
  destruct (MLB.odds_scan _ _ _ _ _ p) as [p0|m] eqn:Hscan; [|discriminate].
  apply odds_scan_only in Hscan.
  assert (H0 : MLB.ProbablePitcher p0 = MLB.ProbablePitcher p)
    by (destruct Hscan as [->|(a & b & c0 & ->)]; reflexivity).
  destruct (After _ _); inversion Hbody; subst; simpl in *; congruence.
Qed.

Lemma pitcher_gate_eq keys data p :
  MLB.gate keys data p =
  if (negb (implContains keys (MLB.Draftable_uid p)) && MLB.ProbablePitcher p)%bool
  then {| MLB.FinalPitcher := p;
          MLB.FinalPitcherKeys := keys ++ [MLB.Draftable_uid p];
          MLB.Data := data ++ [p] |}
  else {| MLB.FinalPitcher := p; MLB.FinalPitcherKeys := keys; MLB.Data := data |}.
Proof.
  unfold MLB.gate. destruct (implContains _ _); [reflexivity|].
  destruct (MLB.ProbablePitcher p); reflexivity.
Qed.

Lemma slot_emits st s st' :
  slot st s = Ok st' ->
  MLB.Data st' = MLB.Data st
  \/ exists r, MLB.Data st' = MLB.Data st ++ [r]
               /\ MLB.ProbablePitcher r = true
               /\ marked_probable s.
Proof.
  unfold MLB.slot. destruct (MLB.is_pitcher_slot s); [|intros [= <-]; left; reflexivity].
  destruct (assemble (MLB.FinalPitcher st) s) as [r|m] eqn:E; [|discriminate].
  cbn [rbind]. rewrite pitcher_gate_eq. intros [= <-].
  destruct (negb _ && MLB.ProbablePitcher r)%bool eqn:G; [|left; reflexivity].
  apply andb_true_iff in G as [_ G].
  right. exists r. split; [reflexivity|]. split; [exact G|].
  apply probable_of_marked. rewrite <- (assemble_probable _ _ _ E). exact G.
Qed.

Lemma slots_probable draftables :
  forall st st',
    Forall (fun r => MLB.ProbablePitcher r = true) (MLB.Data st) ->
    slots draftables st = Ok st' ->
    Forall (fun r => MLB.ProbablePitcher r = true) (MLB.Data st').
Proof.
  induction draftables as [|s l IH]; intros st st' Hst H; cbn [MLB.slots] in H.
  - inversion H; subst. exact Hst.
  - destruct (slot st s) as [st1|m] eqn:E; [|discriminate]. cbn [rbind] in H.
    apply (IH st1 st'); [|exact H].
    destruct (slot_emits _ _ _ E) as [->|(r & -> & Hr & _)]; [exact Hst|].
    apply Forall_app. split; [exact Hst|]. constructor; [exact Hr | constructor].
Qed.

(** C10. In the pitchers path the gate tests the probable-pitcher flag, not
    the lineup flag: a slot appends a row only if it carries the game
    attribute with id 1 and value "true", every row appended, and so every
    row of the output, has [ProbablePitcher = true], and a slot without that
    attribute appends nothing, whatever its other attributes say. *)
Theorem pitcher_gate_probable :
  (forall keys data p,
     MLB.gate keys data p =
     if (negb (implContains keys (MLB.Draftable_uid p)) && MLB.ProbablePitcher p)%bool
     then {| MLB.FinalPitcher := p;
             MLB.FinalPitcherKeys := keys ++ [MLB.Draftable_uid p];
             MLB.Data := data ++ [p] |}
     else {| MLB.FinalPitcher := p; MLB.FinalPitcherKeys := keys; MLB.Data := data |})
  /\ (forall st s st',
        slot st s = Ok st' ->
        MLB.Data st' = MLB.Data st
        \/ exists r, MLB.Data st' = MLB.Data st ++ [r]
                     /\ MLB.ProbablePitcher r = true
                     /\ marked_probable s)
  /\ (forall st s st',
        ~ marked_probable s -> slot st s = Ok st' -> MLB.Data st' = MLB.Data st)
  /\ (forall draftables out,
        handler draftables = Ok out ->
        Forall (fun r => MLB.ProbablePitcher r = true) out).
Proof.
  split; [exact pitcher_gate_eq|]. split; [exact slot_emits|]. split.
  - intros st s st' Hno H.
    destruct (slot_emits _ _ _ H) as [E|(r & _ & _ & Hm)]; [exact E | contradiction].
  - intros draftables out H. unfold MLB.handler in H.
    destruct (slots draftables MLB.initial) as [st|m] eqn:E; [|discriminate].
    cbn [rbind] in H. inversion H; subst.
    apply (slots_probable draftables MLB.initial st); [constructor | exact E].
Qed.

End PitcherClaims.

(** ** The properties on the concrete feeds *)

Lemma odds_enricher_first_entry_witness :
  (exists r,
     MLB.assemble parseRFC3339 Feed.Keys Feed.pitchers Feed.oddsDat Feed.TeamKeys
       MLB.zeroPitcher Feed.ace = Ok r
     /\ odds_fields r = (4.5, 1, 3.5)%float)
  /\ (exists r,
        MLB.assemble parseRFC3339 Feed.Keys Feed.pitchers Cases.oddsDat_later Feed.TeamKeys
          MLB.zeroPitcher Feed.ace = Ok r
        /\ odds_fields r = (0, 0, 0)%float)
  /\ (exists r,
        MLB.assemble parseRFC3339 Feed.Keys Feed.pitchers Cases.oddsDat_wrapped Feed.TeamKeys
          MLB.zeroPitcher Feed.ace = Ok r
        /\ odds_fields r = (4.5, 1, 3.5)%float)
  /\ (exists r,
        MLB.assemble parseRFC3339 Feed.Keys Feed.pitchers Cases.oddsDat_on_the_hour
          Feed.TeamKeys MLB.zeroPitcher Feed.ace = Ok r
        /\ odds_fields r = (0, 0, 0)%float).
Proof.
  split; [|split; [|split]].
  - destruct (proj1 (odds_enricher_first_entry parseRFC3339 Feed.Keys Feed.pitchers
                       Feed.oddsDat Feed.TeamKeys)
                MLB.zeroPitcher Feed.ace Feed.kickoff_ns
                [Feed.last_week] Feed.tonight [Feed.next_week] Feed.tonight_ns
                {| ODDS.Commence_time := 1696183200; ODDS.Points := 4.5 |}
                [{| ODDS.Commence_time := 1696615200; ODDS.Points := 5.5 |}])
      as (r & Hr & H).
    + reflexivity.
    + reflexivity.
    + constructor; [|constructor]. eexists. split; reflexivity.
    + reflexivity.
    + reflexivity.
    + repeat (constructor; [intros _; discriminate|]). constructor.
    + reflexivity.
    + exists r. split; [exact Hr|].
      vm_compute in H. destruct H as (opp & rest' & E & H).
      injection E as <- <-. exact H.
  - destruct (proj1 (odds_enricher_first_entry parseRFC3339 Feed.Keys Feed.pitchers
                       Cases.oddsDat_later Feed.TeamKeys)
                MLB.zeroPitcher Feed.ace Feed.kickoff_ns
                [Feed.last_week] Feed.tonight [Feed.next_week] Feed.tonight_ns
                {| ODDS.Commence_time := 1696615200; ODDS.Points := 5.5 |} [])
      as (r & Hr & H).
    + reflexivity.
    + reflexivity.
    + constructor; [|constructor]. eexists. split; reflexivity.
    + reflexivity.
    + reflexivity.
    + repeat (constructor; [intros _; discriminate|]). constructor.
    + reflexivity.
    + exists r. split; [exact Hr|]. vm_compute in H. exact H.
  - destruct (proj1 (odds_enricher_first_entry parseRFC3339 Feed.Keys Feed.pitchers
                       Cases.oddsDat_wrapped Feed.TeamKeys)
                MLB.zeroPitcher Feed.ace Feed.kickoff_ns
                [Feed.last_week] Feed.tonight [Feed.next_week] Feed.tonight_ns
                {| ODDS.Commence_time := 9223372036854775807; ODDS.Points := 4.5 |} [])
      as (r & Hr & H).
    + reflexivity.
    + reflexivity.
    + constructor; [|constructor]. eexists. split; reflexivity.
    + reflexivity.
    + reflexivity.
    + repeat (constructor; [intros _; discriminate|]). constructor.
    + reflexivity.
    + exists r. split; [exact Hr|].
      vm_compute in H. destruct H as (opp & rest' & E & H).
      injection E as <- <-. exact H.
  - destruct (proj1 (odds_enricher_first_entry parseRFC3339 Feed.Keys Feed.pitchers
                       Cases.oddsDat_on_the_hour Feed.TeamKeys)
                MLB.zeroPitcher Feed.ace Feed.kickoff_ns
                [Feed.last_week] Feed.tonight [Feed.next_week] Feed.tonight_ns
                {| ODDS.Commence_time := 1696186800; ODDS.Points := 5.5 |} [])
      as (r & Hr & H).
    + reflexivity.
    + reflexivity.
    + constructor; [|constructor]. eexists. split; reflexivity.
    + reflexivity.
    + reflexivity.
    + repeat (constructor; [intros _; discriminate|]). constructor.
    + reflexivity.
    + exists r. split; [exact Hr|]. vm_compute in H. exact H.
Defined.

(** C1, as stated, fails.  Team 7 has an odds list with one entry, which
    commences before the selected game's time plus one hour; the odds table
    has no list for the opponent, team 9.  The three fields are not
    recorded: the request panics. *)
Lemma odds_enricher_unlisted_opponent_panics :
  ODDS.Games (index ODDS.zero Cases.oddsDat_home_only "7")
  = [{| ODDS.Commence_time := 1696183200; ODDS.Points := 4.5 |}]
  /\ MLBsim.Games (MLB.sim_of Feed.Keys Cases.pitchers_tonight Feed.ace)
     = [Feed.tonight; Feed.next_week]
  /\ parseRFC3339 (MLBsim.GameDate Feed.tonight) = Some Feed.tonight_ns
  /\ After (Feed.tonight_ns + Hour) Feed.kickoff_ns = true
  /\ After (Feed.tonight_ns + Hour) (time_Unix 1696183200) = true
  /\ ODDS.Games (index ODDS.zero Cases.oddsDat_home_only
                   (Sprint_int (MLBsim.Opponent Feed.tonight))) = []
  /\ MLB.handler parseRFC3339 Feed.Keys Cases.pitchers_tonight Cases.oddsDat_home_only
       Feed.TeamKeys [Feed.ace] = Panic "index out of range".
Proof. vm_compute. repeat split. Qed.



Lemma odds_factor_unguarded_witness :
  (exists r,
     MLB.assemble parseRFC3339 Feed.Keys Feed.pitchers Feed.oddsDat Feed.TeamKeys_empty
       MLB.zeroPitcher Feed.ace = Ok r
     /\ MLB.Game_player_oddsfactor r = infinity)
  /\ (exists r,
        MLB.assemble parseRFC3339 Feed.Keys Feed.pitchers Feed.oddsDat Cases.TeamKeys_negzero
          MLB.zeroPitcher Feed.ace = Ok r
        /\ MLB.Game_player_oddsfactor r = neg_infinity)
  /\ MLB.pitchers_draftkings parseRFC3339 Feed.Keys Feed.pitchers Feed.oddsDat
       Feed.TeamKeys_empty [Feed.ace]
     = Ok (NoBody "json: unsupported value").
Proof.
  assert (Hreads : reads parseRFC3339 Feed.kickoff_ns
                     (MLBsim.Games (MLB.sim_of Feed.Keys Feed.pitchers Feed.ace))
                     [Feed.last_week; Feed.tonight]).
  { right. exists [Feed.last_week], Feed.tonight, [Feed.next_week].
    split; [reflexivity|]. split.
    - constructor; [|constructor]. eexists. split; reflexivity.
    - split; [|reflexivity]. exists Feed.tonight_ns. split; reflexivity. }
  assert (Hm : matches parseRFC3339 Feed.oddsDat "7" Feed.tonight).
  { exists Feed.tonight_ns, {| ODDS.Commence_time := 1696183200; ODDS.Points := 4.5 |},
      [{| ODDS.Commence_time := 1696615200; ODDS.Points := 5.5 |}].
    repeat split. }
  destruct (odds_factor_unguarded parseRFC3339 Feed.Keys Feed.pitchers
              Feed.oddsDat Feed.TeamKeys_empty
              MLB.zeroPitcher Feed.ace Feed.kickoff_ns
              [Feed.last_week; Feed.tonight] Feed.tonight
              {| ODDS.Commence_time := 1696183200; ODDS.Points := 4.5 |}
              [{| ODDS.Commence_time := 1696615200; ODDS.Points := 5.5 |}])
    as (r & Hr & _ & _ & _ & Hpos & _ & _ & Hbody).
  { reflexivity. }
  { exact Hreads. }
  { repeat (constructor; [intros _; discriminate|]). constructor. }
  { right. left. }
  { exact Hm. }
  { reflexivity. }
  { reflexivity. }
  destruct (odds_factor_unguarded parseRFC3339 Feed.Keys Feed.pitchers
              Feed.oddsDat Cases.TeamKeys_negzero
              MLB.zeroPitcher Feed.ace Feed.kickoff_ns
              [Feed.last_week; Feed.tonight] Feed.tonight
              {| ODDS.Commence_time := 1696183200; ODDS.Points := 4.5 |}
              [{| ODDS.Commence_time := 1696615200; ODDS.Points := 5.5 |}])
    as (r' & Hr' & _ & _ & _ & _ & Hneg & _ & _).
  { reflexivity. }
  { exact Hreads. }
  { repeat (constructor; [intros _; discriminate|]). constructor. }
  { right. left. }
  { exact Hm. }
  { reflexivity. }
  { reflexivity. }
  split; [|split].
  - exists r. split; [exact Hr|]. apply (proj1 (Hpos eq_refl)). reflexivity.
  - exists r'. split; [exact Hr'|]. apply (proj1 (Hneg eq_refl)). reflexivity.
  - assert (Hrow : MLB.handler parseRFC3339 Feed.Keys Feed.pitchers Feed.oddsDat
                     Feed.TeamKeys_empty [Feed.ace] = Ok [r]).
    { assert (Hv := Hr). vm_compute in Hv. injection Hv as <-. vm_compute. reflexivity. }
    apply (Hbody [Feed.ace] [r] r Hrow); [left | reflexivity].
Defined.

(** C7, as stated, fails.  Team 7 has no row in the average table, so its
    average reads as zero; the factor recorded for the slot is +Inf, not
    zero. *)
Lemma odds_factor_zero_average_is_infinite :
  Avg_points (index zeroTeamPoints Feed.TeamKeys_empty "7") = 0%float
  /\ match MLB.handler parseRFC3339 Feed.Keys Feed.pitchers Feed.oddsDat Feed.TeamKeys_empty
             [Feed.ace] with
     | Ok [r] =>
         MLB.Game_team_oddspoints r = 4.5%float
         /\ MLB.Game_player_oddsfactor r = infinity
         /\ (MLB.Game_player_oddsfactor r =? 0)%float = false
     | _ => False
     end.
Proof. vm_compute. repeat split. Qed.

Lemma malformed_timestamp_aborts_witness :
  (exists m, MLB.handler parseRFC3339 Feed.Keys Feed.pitchers Feed.oddsDat Feed.TeamKeys
               [Feed.ace; Feed.unscheduled] = Panic m)
  /\ (exists m, MLB.handler parseRFC3339 Feed.Keys Feed.pitchers_unreadable Feed.oddsDat
                  Feed.TeamKeys [Feed.ace] = Panic m).
Proof.
  split.
  - apply (proj1 (malformed_timestamp_aborts parseRFC3339 Feed.Keys Feed.pitchers
                    Feed.oddsDat Feed.TeamKeys)
             [Feed.ace; Feed.unscheduled] Feed.unscheduled).
    + right. left.
    + reflexivity.
    + reflexivity.
  - apply (proj2 (malformed_timestamp_aborts parseRFC3339 Feed.Keys Feed.pitchers_unreadable
                    Feed.oddsDat Feed.TeamKeys)
             [Feed.ace] Feed.ace Feed.kickoff_ns
             [Feed.last_week] Feed.undated [Feed.tonight]).
    + left.
    + reflexivity.
    + reflexivity.
    + reflexivity.
    + constructor; [|constructor]. intros tg E. injection E as <-. reflexivity.
    + reflexivity.
Defined.

(** C9, as stated, fails.  The ledger of athlete 42 holds an entry whose
    date does not parse, after the entry that is selected; the listing
    holds a slot whose start time does not parse, at a position the
    pitchers path does not process.  The request completes and outputs the
    pitcher's row. *)
Lemma malformed_timestamp_unread :
  Feed.undated ∈ MLBsim.Games (MLB.sim_of Feed.Keys Feed.pitchers_undated Feed.ace)
  /\ parseRFC3339 (MLBsim.GameDate Feed.undated) = None
  /\ parseRFC3339 (DK.StartTime (DK.Competition Feed.shortstop)) = None
  /\ match MLB.handler parseRFC3339 Feed.Keys Feed.pitchers_undated Feed.oddsDat
             Feed.TeamKeys [Feed.ace; Feed.shortstop] with
     | Ok [r] => MLB.Game_gameDate r = MLBsim.GameDate Feed.tonight
     | _ => False
     end.
Proof.
  split; [|vm_compute; repeat split].
  change (Feed.undated ∈ [Feed.last_week; Feed.tonight; Feed.undated]).
  right. right. left.
Qed.

Lemma pitcher_gate_probable_witness :
  exists out,
    MLB.handler parseRFC3339 Feed.Keys Feed.pitchers Feed.oddsDat Feed.TeamKeys
      [Feed.ace; Feed.reliever; Feed.idle] = Ok out
    /\ length out = 2%nat
    /\ Forall (fun r => MLB.ProbablePitcher r = true) out.
Proof.
  eexists. split; [vm_compute; reflexivity|]. split; [reflexivity|].
  apply (proj2 (proj2 (proj2 (pitcher_gate_probable parseRFC3339 Feed.Keys Feed.pitchers
                                Feed.oddsDat Feed.TeamKeys)))
           [Feed.ace; Feed.reliever; Feed.idle]).
  vm_compute. reflexivity.
Defined.

(** ** A provider id without a crosswalk row *)

(** C8, as the code has it.  A slot whose provider id has no crosswalk row
    resolves to the athlete id 0, and the lookups in the simulation table
    are made under the key "0": every field read from the table is the one
    of the entry under that key.  When the table has no entry under "0",
    these are zero or empty, and the row is assembled without a fault:
    opponent, venue, projected points of team and opponent, projection,
    deviation and histogram are zeroed.  (When the table has an entry under
    "0", the row takes that entry's values.)  The odds factor is not
    zeroed: this path sets it to the constant 1 on every row, as it sets
    the game pk to 1 and the game date to the slot's start time.  The row
    goes through the gate like any other (it is emitted when eligible and
    not yet seen), and the slots after it are processed. *)
Theorem unresolved_slot_defaults (Keys : gmap string ServiceKey)
    (nfl_players : gmap string NFLsim.Player) (s : DK.Draftable) :
  Keys !! Sprint_int (DK.PlayerDkId s) = None ->
  let r := NFL.classic_record Keys nfl_players s in
  let sim := index NFLsim.zero nfl_players "0" in
  NFL.nfl_lookup_of Keys s = 0
  /\ NFL.Nfl_id r = "0"
  /\ (NFL.Team_name r = NFLsim.Game_team_name sim
      /\ NFL.Player_primary_position r = NFLsim.Player_position sim
      /\ NFL.ProjPoints r = NFLsim.Dk_classic_points_mean sim
      /\ NFL.ProjPointsList r = histogram (NFLsim.Dk_classic_points_list sim)
      /\ NFL.Game_s_deviation r = NFLsim.Dk_classic_points_std sim
      /\ NFL.Games_sim_cume_points r = NFLsim.Dk_classic_cume_points sim
      /\ NFL.Game_date_unix r = NFLsim.Game_date_unix sim
      /\ NFL.Game_week r = NFLsim.Game_week sim
      /\ NFL.Game_opponent r = NFLsim.Game_opp_id sim
      /\ NFL.Game_opponent_name r = NFLsim.Game_opp_name sim
      /\ NFL.Game_venue r = NFLsim.Game_venue_id sim
      /\ NFL.Game_venue_name r = NFLsim.Game_venue_name sim
      /\ NFL.Game_team_oddspoints r = NFLsim.Game_points_for sim
      /\ NFL.Game_opponent_oddspoints r = NFLsim.Game_points_against sim)
  /\ (nfl_players !! "0" = None ->
      NFL.Team_name r = ""
      /\ NFL.Player_primary_position r = ""
      /\ NFL.ProjPoints r = 0%float
      /\ NFL.ProjPointsList r = [0; 0; 0; 0; 0; 0; 0; 0]
      /\ NFL.Game_s_deviation r = 0%float
      /\ NFL.Games_sim_cume_points r = 0%float
      /\ NFL.Game_date_unix r = 0
      /\ NFL.Game_week r = 0
      /\ NFL.Game_opponent r = 0
      /\ NFL.Game_opponent_name r = ""
      /\ NFL.Game_venue r = 0
      /\ NFL.Game_venue_name r = ""
      /\ NFL.Game_team_oddspoints r = 0%float
      /\ NFL.Game_opponent_oddspoints r = 0%float)
  /\ NFL.Game_player_oddsfactor r = 1%float
  /\ NFL.Game_game_Pk r = 1
  /\ NFL.Game_gameDate r = DK.StartTime (DK.Competition s)
  /\ (forall pre post,
        NFL.classic Keys nfl_players (pre ++ s :: post)
        = NFL.Data (NFL.pass (NFL.classic_record Keys nfl_players) post
                      (NFL.gate (NFL.pass (NFL.classic_record Keys nfl_players) pre
                                   NFL.emptyAcc) r)))
  /\ (forall pre post,
        NFL.Inlineup r = true ->
        NFL.Draftable_uid r ∉
          NFL.FinalNFLPlayerKeys (NFL.pass (NFL.classic_record Keys nfl_players) pre
                                    NFL.emptyAcc) ->
        r ∈ NFL.classic Keys nfl_players (pre ++ s :: post)).
Proof.
  intros HK r sim.
  assert (Hl : NFL.nfl_lookup_of Keys s = 0)
    by (unfold NFL.nfl_lookup_of, index; rewrite HK; reflexivity).
  assert (Hz : index NFLsim.zero nfl_players (Sprint_int (NFL.nfl_lookup_of Keys s)) = sim).
  { rewrite Hl. reflexivity. }
  assert (Hfold : forall pre post,
            NFL.classic Keys nfl_players (pre ++ s :: post)
            = NFL.Data (NFL.pass (NFL.classic_record Keys nfl_players) post
                          (NFL.gate (NFL.pass (NFL.classic_record Keys nfl_players) pre
                                       NFL.emptyAcc) r))).
  { intros pre post. unfold NFL.classic. rewrite pass_app. reflexivity. }
  assert (Htable :
            NFL.Team_name r = NFLsim.Game_team_name sim
            /\ NFL.Player_primary_position r = NFLsim.Player_position sim
            /\ NFL.ProjPoints r = NFLsim.Dk_classic_points_mean sim
            /\ NFL.ProjPointsList r = histogram (NFLsim.Dk_classic_points_list sim)
            /\ NFL.Game_s_deviation r = NFLsim.Dk_classic_points_std sim
            /\ NFL.Games_sim_cume_points r = NFLsim.Dk_classic_cume_points sim
            /\ NFL.Game_date_unix r = NFLsim.Game_date_unix sim
            /\ NFL.Game_week r = NFLsim.Game_week sim
            /\ NFL.Game_opponent r = NFLsim.Game_opp_id sim
            /\ NFL.Game_opponent_name r = NFLsim.Game_opp_name sim
            /\ NFL.Game_venue r = NFLsim.Game_venue_id sim
            /\ NFL.Game_venue_name r = NFLsim.Game_venue_name sim
            /\ NFL.Game_team_oddspoints r = NFLsim.Game_points_for sim
            /\ NFL.Game_opponent_oddspoints r = NFLsim.Game_points_against sim).
  { subst r. unfold NFL.classic_record.
    cbn [NFL.Team_name NFL.Player_primary_position NFL.ProjPoints
         NFL.ProjPointsList NFL.Game_s_deviation NFL.Games_sim_cume_points
         NFL.Game_date_unix NFL.Game_week NFL.Game_opponent NFL.Game_opponent_name
         NFL.Game_venue NFL.Game_venue_name NFL.Game_team_oddspoints
         NFL.Game_opponent_oddspoints].
    rewrite Hz. repeat (split; [reflexivity|]). reflexivity. }
  split; [exact Hl|].
  split; [subst r; unfold NFL.classic_record; cbn [NFL.Nfl_id]; rewrite Hl; reflexivity|].
  split; [exact Htable|].
  split.
  { intros Hsim.
    assert (E : sim = NFLsim.zero) by (subst sim; unfold index; rewrite Hsim; reflexivity).
    destruct Htable as (H1 & H2 & H3 & H4 & H5 & H6 & H7 & H8 & H9 & H10 & H11 & H12
                        & H13 & H14).
    rewrite E in H1, H2, H3, H4, H5, H6, H7, H8, H9, H10, H11, H12, H13, H14.
    repeat (split; [assumption|]). assumption. }
  split; [reflexivity|]. split; [reflexivity|]. split; [reflexivity|].
  split; [exact Hfold|].
  intros pre post He Hnew. rewrite Hfold. apply pass_data_mono.
  rewrite gate_eq, He, andb_true_r.
  apply implContains_not_elem in Hnew. rewrite Hnew. simpl.
  apply elem_of_app. right. left.
Qed.

Lemma unresolved_slot_defaults_witness :
  NFL.classic_record Feed.Keys Feed.nfl_players Feed.stranger
    ∈ NFL.classic Feed.Keys Feed.nfl_players ([Feed.active] ++ Feed.stranger :: [Feed.active])
  /\ NFL.Team_name (NFL.classic_record Feed.Keys Feed.nfl_players Feed.stranger) = ""
  /\ NFL.Team_name (NFL.classic_record Feed.Keys Cases.nfl_players_zero Feed.stranger)
     = "Jets".
Proof.
  pose proof (unresolved_slot_defaults Feed.Keys Feed.nfl_players Feed.stranger eq_refl)
    as (_ & _ & _ & Hzero & _ & _ & _ & _ & Hin).
  pose proof (unresolved_slot_defaults Feed.Keys Cases.nfl_players_zero Feed.stranger eq_refl)
    as (_ & _ & (Hteam & _) & _).
  split; [|split].
  - apply Hin.
    + reflexivity.
    + vm_compute. intros H. apply list_elem_of_In in H. simpl in H.
      destruct H as [H|H]; [discriminate H | exact H].
  - apply (proj1 (Hzero eq_refl)).
  - exact Hteam.
Defined.

(** C8, as stated, fails.  The crosswalk has no row for the provider id
    9999; the row assembled for the slot has the odds factor 1, not 0. *)
Lemma unresolved_slot_odds_factor_one :
  Feed.Keys !! Sprint_int (DK.PlayerDkId Feed.stranger) = None
  /\ NFL.Game_player_oddsfactor
       (NFL.classic_record Feed.Keys Feed.nfl_players Feed.stranger) = 1%float
  /\ NFL.Game_game_Pk (NFL.classic_record Feed.Keys Feed.nfl_players Feed.stranger) = 1
  /\ NFL.classic Feed.Keys Feed.nfl_players [Feed.stranger]
     = [NFL.classic_record Feed.Keys Feed.nfl_players Feed.stranger].
Proof. vm_compute. repeat split. Qed.

(** * Further properties *)

(** ** Histogram Builder: NaN, concatenation, order of the sample *)

Lemma is_nan_true_Prim2SF x : is_nan x = true -> Prim2SF x = S754_nan.
Proof.
  intros H. destruct (Prim2SF x) eqn:E; try reflexivity;
    assert (Hn : is_nan x = false) by (apply is_nan_Prim2SF; rewrite E; discriminate);
    congruence.
Qed.

Lemma nan_tests value other :
  is_nan value = true ->
  (value <=? other)%float = false /\ (other <=? value)%float = false
  /\ (value <? other)%float = false.
Proof.
  intros H. apply is_nan_true_Prim2SF in H.
  rewrite !FloatAxioms.leb_spec, FloatAxioms.ltb_spec, H.
  unfold SFleb, SFltb. simpl. destruct (Prim2SF other); auto.
Qed.

Lemma count_value_nan c value : is_nan value = true -> count_value c value = c.
Proof.
  intros H. unfold count_value. destruct c as [c0 c1 c2 c3 c4 c5 c6 c7].
  destruct (nan_tests value 0 H) as (-> & -> & _).
  destruct (nan_tests value 10 H) as (_ & -> & _).
  destruct (nan_tests value 20 H) as (_ & -> & _).
  destruct (nan_tests value 30 H) as (_ & -> & _).
  destruct (nan_tests value 40 H) as (_ & -> & _).
  destruct (nan_tests value 50 H) as (_ & -> & _).
  destruct (nan_tests value 60 H) as (_ & -> & _).
  reflexivity.
Qed.

(** X1. The counts of a histogram add up to the number of values of the
    sample that are not NaN: a NaN passes every test of the chain and is
    counted nowhere, every other value (the infinities included) is counted
    once. *)
Theorem histogram_counts_numbers (sample : list float) :
  sumZ (histogram sample)
  = Z.of_nat (length (List.filter (fun value => negb (is_nan value)) sample)).
Proof.
  unfold histogram.
  assert (G : forall c,
            sumZ (tempPointsList (count_values c sample))
            = sumZ (tempPointsList c)
              + Z.of_nat (length (List.filter (fun value => negb (is_nan value)) sample))).
  { induction sample as [|value sample IH]; intros c.
    - simpl. lia.
    - change (count_values c (value :: sample))
        with (count_values (count_value c value) sample).
      rewrite IH. cbn [List.filter].
      destruct (is_nan value) eqn:E; cbn [negb].
      + rewrite count_value_nan by exact E. reflexivity.
      + rewrite count_value_sum by exact E. rewrite length_cons. lia. }
  rewrite G. reflexivity.
Qed.

Lemma count_value_add c value :
  count_value c value = addC c (count_value zeroCounters value).
Proof.
  destruct c as [c0 c1 c2 c3 c4 c5 c6 c7].
  unfold count_value, zeroCounters, addC.
  repeat match goal with
  | |- context [if ?b then _ else _] => destruct b
  end; cbn; f_equal; lia.
Qed.

Lemma addC_assoc a b c : addC (addC a b) c = addC a (addC b c).
Proof. destruct a, b, c. unfold addC. cbn. f_equal; lia. Qed.

Lemma addC_comm a b : addC a b = addC b a.
Proof. destruct a, b. unfold addC. cbn. f_equal; lia. Qed.

Lemma addC_zero c : addC c zeroCounters = c.
Proof. destruct c. unfold addC, zeroCounters. cbn. f_equal; lia. Qed.

Lemma count_values_add sample c :
  count_values c sample = addC c (count_values zeroCounters sample).
Proof.
  revert c. induction sample as [|value sample IH]; intros c.
  - cbn. symmetry. apply addC_zero.
  - change (count_values c (value :: sample))
      with (count_values (count_value c value) sample).
    change (count_values zeroCounters (value :: sample))
      with (count_values (count_value zeroCounters value) sample).
    rewrite (IH (count_value c value)), (IH (count_value zeroCounters value)).
    rewrite (count_value_add c value). apply addC_assoc.
Qed.

Lemma tempPointsList_addC a b :
  tempPointsList (addC a b) = zip_with Z.add (tempPointsList a) (tempPointsList b).
Proof. destruct a, b. reflexivity. Qed.

(** X2. The histogram of a concatenated sample is the bucket-wise sum of
    the histograms of its parts. *)
Theorem histogram_app (sample1 sample2 : list float) :
  histogram (sample1 ++ sample2)
  = zip_with Z.add (histogram sample1) (histogram sample2).
Proof.
  unfold histogram, count_values. rewrite fold_left_app.
  fold (count_values zeroCounters sample1).
  fold (count_values (count_values zeroCounters sample1) sample2).
  rewrite count_values_add. apply tempPointsList_addC.
Qed.

(** X3. The histogram does not depend on the order of the sample. *)
Theorem histogram_Permutation (sample1 sample2 : list float) :
  Permutation sample1 sample2 -> histogram sample1 = histogram sample2.
Proof.
  intros H. unfold histogram. f_equal.
  generalize zeroCounters.
  induction H as [|x l l' _ IH|x y l|l l' l'' _ IH1 _ IH2]; intros c.
  - reflexivity.
  - apply (IH (count_value c x)).
  - change (count_values (count_value (count_value c y) x) l
            = count_values (count_value (count_value c x) y) l).
    f_equal. rewrite (count_value_add (count_value c y) x), (count_value_add c y),
      (count_value_add (count_value c x) y), (count_value_add c x).
    rewrite !addC_assoc. f_equal. apply addC_comm.
  - rewrite IH1. apply IH2.
Qed.

Lemma histogram_Permutation_witness :
  histogram [61%float; 15%float; (-5)%float; 9%float; 0%float]
  = histogram [(-5)%float; 0%float; 9%float; 15%float; 61%float].
Proof.
  apply histogram_Permutation.
  apply (Permutation_trans (l' := [15%float; (-5)%float; 9%float; 0%float; 61%float])).
  - apply Permutation_cons_append.
  - apply (Permutation_trans (l' := [(-5)%float; 9%float; 0%float; 61%float; 15%float])).
    + apply Permutation_cons_append.
    + apply perm_skip. apply (Permutation_trans (l' := [0%float; 61%float; 15%float; 9%float])).
      * apply Permutation_cons_append.
      * apply perm_skip. apply (Permutation_trans (l' := [15%float; 9%float; 61%float])).
        -- apply Permutation_cons_append.
        -- apply (Permutation_trans (l' := [9%float; 61%float; 15%float])).
           ++ apply Permutation_cons_append.
           ++ apply perm_skip. apply Permutation_cons_append.
Defined.

(** ** The NFL passes: what the gate lets through *)

(** X4. The output of either DraftKings NFL pass is a sub-sequence of the
    rows assembled for the in-lineup slots of the listing: every row of the
    output was assembled from a slot of the listing whose in-lineup flag is
    set, and the rows appear in the order of the listing. *)
Theorem nfl_output_sublist (Keys : gmap string ServiceKey)
    (nfl_players : gmap string NFLsim.Player) (draftables : list DK.Draftable) :
  NFL.classic Keys nfl_players draftables
    `sublist_of` List.filter NFL.Inlineup
                   (map (NFL.classic_record Keys nfl_players) draftables)
  /\ NFL.showdown Keys nfl_players draftables
       `sublist_of` List.filter NFL.Inlineup
                      (map (NFL.showdown_record Keys nfl_players) draftables).
Proof.
  split.
  - destruct (pass_emits (NFL.classic_record Keys nfl_players) draftables NFL.emptyAcc)
      as (out & E & Hs).
    unfold NFL.classic. rewrite E. exact Hs.
  - destruct (pass_emits (NFL.showdown_record Keys nfl_players) draftables NFL.emptyAcc)
      as (out & E & Hs).
    unfold NFL.showdown. rewrite E. exact Hs.
Qed.

Lemma pass_distinct (assemble : DK.Draftable -> NFL.NflPlayer) l :
  forall acc,
    NFL.FinalNFLPlayerKeys acc = map NFL.Draftable_uid (NFL.Data acc) ->
    NoDup (map NFL.Draftable_uid
             (NFL.Data acc ++ List.filter NFL.Inlineup (map assemble l))) ->
    NFL.Data (NFL.pass assemble l acc)
    = NFL.Data acc ++ List.filter NFL.Inlineup (map assemble l).
Proof.
  induction l as [|s l IH]; intros acc Hk Hn.
  - symmetry. apply app_nil_r.
  - cbn [NFL.pass fold_left map List.filter] in *.
    change (fold_left (fun acc0 s0 => NFL.gate acc0 (assemble s0)) l
              (NFL.gate acc (assemble s)))
      with (NFL.pass assemble l (NFL.gate acc (assemble s))).
    destruct (NFL.Inlineup (assemble s)) eqn:He.
    + assert (Hnew : implContains (NFL.FinalNFLPlayerKeys acc)
                       (NFL.Draftable_uid (assemble s)) = false).
      { apply implContains_not_elem. rewrite Hk. intros Hin.
        rewrite map_app in Hn. apply NoDup_app in Hn as (_ & Hd & _).
        apply (Hd _ Hin). left. }
      rewrite IH.
      * rewrite gate_eq, Hnew, He. cbn [negb andb NFL.Data].
        rewrite <- app_assoc. reflexivity.
      * rewrite gate_eq, Hnew, He. cbn [negb andb NFL.Data NFL.FinalNFLPlayerKeys].
        rewrite map_app, Hk. reflexivity.
      * rewrite gate_eq, Hnew, He. cbn [negb andb NFL.Data].
        rewrite <- app_assoc. exact Hn.
    + rewrite (gate_not_eligible _ _ He). apply IH; assumption.
Qed.

(** X5. When no two in-lineup slots of the listing are assembled to the
    same UID, the classic pass drops nothing but the slots that are not in
    the lineup: its output is exactly the list of the rows assembled for the
    in-lineup slots. *)
Theorem classic_distinct_uids_all_emitted (Keys : gmap string ServiceKey)
    (nfl_players : gmap string NFLsim.Player) (draftables : list DK.Draftable) :
  NoDup (map NFL.Draftable_uid
           (List.filter NFL.Inlineup
              (map (NFL.classic_record Keys nfl_players) draftables))) ->
  NFL.classic Keys nfl_players draftables
  = List.filter NFL.Inlineup (map (NFL.classic_record Keys nfl_players) draftables).
Proof.
  intros Hn. unfold NFL.classic.
  rewrite pass_distinct; [reflexivity | reflexivity | exact Hn].
Qed.

Lemma classic_distinct_uids_all_emitted_witness :
  NFL.classic Feed.Keys Feed.nfl_players [Feed.benched; Feed.active; Feed.stranger]
  = List.filter NFL.Inlineup
      (map (NFL.classic_record Feed.Keys Feed.nfl_players)
         [Feed.benched; Feed.active; Feed.stranger]).
Proof.
  apply classic_distinct_uids_all_emitted.
  vm_compute. apply NoDup_cons. split.
  - intros H. apply list_elem_of_In in H. simpl in H.
    destruct H as [H|H]; [discriminate H | exact H].
  - apply NoDup_singleton.
Defined.

Lemma pass_nothing_new (assemble : DK.Draftable -> NFL.NflPlayer) l :
  forall acc,
    (forall s, s ∈ l -> NFL.Inlineup (assemble s) = true ->
               NFL.Draftable_uid (assemble s) ∈ NFL.FinalNFLPlayerKeys acc) ->
    NFL.pass assemble l acc = acc.
Proof.
  induction l as [|s l IH]; intros acc H; [reflexivity|].
  cbn [NFL.pass fold_left].
  change (fold_left (fun acc0 s0 => NFL.gate acc0 (assemble s0)) l
            (NFL.gate acc (assemble s)))
    with (NFL.pass assemble l (NFL.gate acc (assemble s))).
  assert (G : NFL.gate acc (assemble s) = acc).
  { destruct (NFL.Inlineup (assemble s)) eqn:He.
    - apply gate_seen_skip, H; [left | exact He].
    - apply gate_not_eligible, He. }
  rewrite G. apply IH. intros s' Hin. apply H. right. exact Hin.
Qed.

(** X6. Slots that repeat slots of the listing add nothing: a pass over the
    listing followed by slots that all occur in it already gives the output
    of the listing alone.  In particular a listing delivered twice over
    gives the output of one copy. *)
Theorem classic_repeated_slots (Keys : gmap string ServiceKey)
    (nfl_players : gmap string NFLsim.Player) (draftables again : list DK.Draftable) :
  again ⊆ draftables ->
  NFL.classic Keys nfl_players (draftables ++ again)
  = NFL.classic Keys nfl_players draftables.
Proof.
  intros Hsub. unfold NFL.classic. rewrite pass_app.
  rewrite pass_nothing_new; [reflexivity|].
  intros s Hin He. apply pass_eligible_seen; [apply Hsub, Hin | exact He].
Qed.

Lemma classic_repeated_slots_witness :
  NFL.classic Feed.Keys Feed.nfl_players
    ([Feed.benched; Feed.active; Feed.stranger]
     ++ [Feed.benched; Feed.active; Feed.stranger])
  = NFL.classic Feed.Keys Feed.nfl_players [Feed.benched; Feed.active; Feed.stranger].
Proof.
  apply classic_repeated_slots. intros s Hs. exact Hs.
Defined.

(** X7. Of the slots that are assembled to one UID it is the first
    in-lineup one whose row is output: an in-lineup slot that no in-lineup
    slot with the same UID precedes has its own row in the output of the
    showdown pass, and that row is the only one of the output with its UID. *)
Theorem showdown_first_eligible_emitted (Keys : gmap string ServiceKey)
    (nfl_players : gmap string NFLsim.Player) (pre post : list DK.Draftable)
    (s : DK.Draftable) :
  NFL.Inlineup (NFL.showdown_record Keys nfl_players s) = true ->
  (forall s', s' ∈ pre ->
              NFL.Inlineup (NFL.showdown_record Keys nfl_players s') = true ->
              NFL.Draftable_uid (NFL.showdown_record Keys nfl_players s')
              <> NFL.Draftable_uid (NFL.showdown_record Keys nfl_players s)) ->
  NFL.showdown_record Keys nfl_players s
    ∈ NFL.showdown Keys nfl_players (pre ++ s :: post)
  /\ forall r, r ∈ NFL.showdown Keys nfl_players (pre ++ s :: post) ->
               NFL.Draftable_uid r
               = NFL.Draftable_uid (NFL.showdown_record Keys nfl_players s) ->
               r = NFL.showdown_record Keys nfl_players s.
Proof.
  intros He Hpre.
  assert (Hin : NFL.showdown_record Keys nfl_players s
                  ∈ NFL.showdown Keys nfl_players (pre ++ s :: post)).
  { unfold NFL.showdown. rewrite pass_app. cbn [NFL.pass fold_left].
    apply pass_data_mono.
    rewrite gate_eq, He, andb_true_r.
    destruct (implContains _ _) eqn:E; cbn [negb NFL.Data].
    - apply implContains_elem, pass_keys_eligible in E as (s' & Hs' & He' & Hu).
      destruct (Hpre s' Hs' He' Hu).
    - apply elem_of_app. right. left. }
  split; [exact Hin|].
  intros r Hr Hu.
  apply (NoDup_fmap_eq NFL.Draftable_uid
           (NFL.showdown Keys nfl_players (pre ++ s :: post)));
    [apply pass_uids_NoDup | exact Hr | exact Hin | exact Hu].
Qed.

Lemma showdown_first_eligible_emitted_witness :
  NFL.showdown_record Feed.Keys Feed.nfl_players Feed.flex
    ∈ NFL.showdown Feed.Keys Feed.nfl_players
        ([Feed.captain; Feed.benched] ++ Feed.flex :: [Feed.flex]).
Proof.
  apply (showdown_first_eligible_emitted Feed.Keys Feed.nfl_players
           [Feed.captain; Feed.benched] [Feed.flex] Feed.flex).
  - reflexivity.
  - intros s' Hs' He'.
    apply elem_of_cons in Hs' as [->|Hs'].
    + vm_compute. discriminate.
    + apply list_elem_of_singleton in Hs'. subst s'. vm_compute in He'. discriminate He'.
Defined.

(** ** The in-lineup flag *)

Lemma inlineup_of_cleared (attrs : list DK.PlayerGameAttribute) :
  NFL.inlineup_of attrs = false
  <-> exists value, value ∈ attrs /\ DK.Id value = 100 /\ DK.Value value = "false"%string.
Proof.
  unfold NFL.inlineup_of.
  assert (G : forall b, fold_left
     (fun (b : bool) value =>
        if (DK.Id value =? 100)%Z
        then if String.eqb (DK.Value value) "false" then false else b
        else b) attrs b = false
     <-> b = false
         \/ exists value, value ∈ attrs /\ DK.Id value = 100
                          /\ DK.Value value = "false"%string).
  { induction attrs as [|a attrs IH]; intros b; cbn [fold_left].
    - split; [auto|]. intros [H|(v & H & _)]; [exact H | inversion H].
    - rewrite IH. split.
      + intros [H|(v & Hin & H1 & H2)].
        * destruct (Z.eqb_spec (DK.Id a) 100) as [E1|]; [|auto].
          destruct (String.eqb_spec (DK.Value a) "false") as [E2|]; [|auto].
          right. exists a. split; [left|auto].
        * right. exists v. split; [right; exact Hin|auto].
      + intros [H|(v & Hin & H1 & H2)].
        * left. subst b. destruct (_ =? _)%Z; [|reflexivity].
          destruct (String.eqb _ _); reflexivity.
        * apply elem_of_cons in Hin as [->|Hin].
          -- left. rewrite H1, H2. reflexivity.
          -- right. exists v. auto. }
  rewrite G. split; [intros [H|H]; [discriminate|exact H] | auto].
Qed.

(** X8. The in-lineup flag of a slot is cleared exactly when one of its
    game attributes has the id 100 and the value "false", wherever it
    stands among the attributes and whatever follows it; and a slot whose
    flag is cleared leaves no trace in either pass: the output is that of
    the listing without the slot. *)
Theorem not_in_lineup_slot_ignored (Keys : gmap string ServiceKey)
    (nfl_players : gmap string NFLsim.Player) (s : DK.Draftable) :
  (NFL.Inlineup (NFL.classic_record Keys nfl_players s) = false
   <-> exists value, value ∈ DK.PlayerGameAttributes s
                     /\ DK.Id value = 100 /\ DK.Value value = "false"%string)
  /\ (NFL.Inlineup (NFL.showdown_record Keys nfl_players s) = false
      <-> exists value, value ∈ DK.PlayerGameAttributes s
                        /\ DK.Id value = 100 /\ DK.Value value = "false"%string)
  /\ forall value pre post,
       value ∈ DK.PlayerGameAttributes s ->
       DK.Id value = 100 -> DK.Value value = "false"%string ->
       NFL.classic Keys nfl_players (pre ++ s :: post)
       = NFL.classic Keys nfl_players (pre ++ post)
       /\ NFL.showdown Keys nfl_players (pre ++ s :: post)
          = NFL.showdown Keys nfl_players (pre ++ post).
Proof.
  split; [apply inlineup_of_cleared|]. split; [apply inlineup_of_cleared|].
  intros value pre post Hin Hid Hval.
  assert (Hc : NFL.inlineup_of (DK.PlayerGameAttributes s) = false)
    by (apply inlineup_of_cleared; eauto).
  unfold NFL.classic, NFL.showdown. rewrite !pass_app. cbn [NFL.pass fold_left].
  rewrite !gate_not_eligible by exact Hc. split; reflexivity.
Qed.

(** ** Rendering of integers and the composition of a UID *)

Lemma to_int_normal (z : Z) :
  Z.to_int z <> Decimal.Pos Decimal.Nil /\ Z.to_int z <> Decimal.Neg Decimal.Nil.
Proof.
  assert (E : Z.to_int z = Decimal.norm (Z.to_int z))
    by (rewrite <- DecimalZ.to_of, DecimalZ.of_to; reflexivity).
  split; intros H; rewrite H in E; discriminate E.
Qed.

Lemma Sprint_int_inj (a b : Z) : Sprint_int a = Sprint_int b -> a = b.
Proof.
  unfold Sprint_int. intros E.
  apply (f_equal NilZero.int_of_string) in E.
  rewrite !NilZero.isi in E by apply to_int_normal.
  injection E as E. apply DecimalZ.to_int_inj, E.
Qed.

Lemma chars_inj (a b : string) : chars a = chars b -> a = b.
Proof.
  unfold chars. intros E. apply (f_equal string_of_list_ascii) in E.
  rewrite !string_of_list_ascii_of_string in E. exact E.
Qed.

Lemma chars_uid_of dkid lookup position nfl_id salary :
  chars (NFL.uid_of dkid lookup position nfl_id salary)
  = chars (Sprint_int dkid) ++ underscore :: chars (Sprint_int lookup)
      ++ underscore :: chars position ++ underscore :: underscore :: chars nfl_id
      ++ underscore :: chars (Sprint_int salary).
Proof. unfold NFL.uid_of. rewrite !chars_app. reflexivity. Qed.

Lemma not_elem_rev {A} (x : A) (l : list A) : x ∉ l -> x ∉ rev l.
Proof. rewrite !list_elem_of_In, <- in_rev. auto. Qed.

Lemma uid_of_inj d1 l1 p1 s1 d2 l2 p2 s2 :
  NFL.uid_of d1 l1 p1 (Sprint_int l1) s1 = NFL.uid_of d2 l2 p2 (Sprint_int l2) s2 ->
  d1 = d2 /\ l1 = l2 /\ p1 = p2 /\ s1 = s2.
Proof.
  intros E. apply (f_equal chars) in E. rewrite !chars_uid_of in E.
  apply first_underscore in E as [Ed E]; try apply Sprint_int_no_underscore.
  apply first_underscore in E as [El E]; try apply Sprint_int_no_underscore.
  apply chars_inj, Sprint_int_inj in Ed, El. subst d2 l2.
  apply (f_equal (@rev ascii)) in E.
  repeat (rewrite ?rev_app_distr in E; cbn [rev] in E).
  rewrite <- !app_assoc in E. cbn [app] in E.
  apply first_underscore in E as [Es E];
    try apply not_elem_rev, Sprint_int_no_underscore.
  apply app_inv_head in E. injection E as E.
  apply (f_equal (@rev ascii)) in Es, E. rewrite !rev_involutive in Es, E.
  apply chars_inj in Es, E. apply Sprint_int_inj in Es.
  auto.
Qed.

(** X9. In the classic pass the UID of a row determines the slot's provider
    id, position string and salary, and is determined by them: two slots
    are assembled to the same UID exactly when they agree in these three.
    So the gate collapses only rows of one provider id at one position and
    salary. *)
Theorem classic_uid_injective (Keys : gmap string ServiceKey)
    (nfl_players : gmap string NFLsim.Player) (s1 s2 : DK.Draftable) :
  NFL.Draftable_uid (NFL.classic_record Keys nfl_players s1)
  = NFL.Draftable_uid (NFL.classic_record Keys nfl_players s2)
  <-> DK.PlayerDkId s1 = DK.PlayerDkId s2
      /\ DK.Position s1 = DK.Position s2
      /\ DK.Salary s1 = DK.Salary s2.
Proof.
  unfold NFL.classic_record. cbn [NFL.Draftable_uid]. split.
  - intros E. apply uid_of_inj in E as (Hd & _ & Hp & Hs). auto.
  - intros (Hd & Hp & Hs). unfold NFL.nfl_lookup_of. rewrite Hd, Hp, Hs. reflexivity.
Qed.

(** ** The pitchers path: further properties *)

Section PitcherExtras.

Variable time_Parse : string -> option Z.
Variable Keys : gmap string ServiceKey.
Variable pitchers : gmap string MLBsim.Pitcher.
Variable oddsDat : gmap string ODDS.Team.
Variable TeamKeys : gmap string TeamPoints.

#[local] Abbreviation game_body := (MLB.game_body time_Parse oddsDat TeamKeys).
#[local] Abbreviation game_loop := (MLB.game_loop time_Parse oddsDat TeamKeys).
#[local] Abbreviation assemble := (MLB.assemble time_Parse Keys pitchers oddsDat TeamKeys).
#[local] Abbreviation slot := (MLB.slot time_Parse Keys pitchers oddsDat TeamKeys).
#[local] Abbreviation slots := (MLB.slots time_Parse Keys pitchers oddsDat TeamKeys).
#[local] Abbreviation handler := (MLB.handler time_Parse Keys pitchers oddsDat TeamKeys).
#[local] Abbreviation sim_of := (MLB.sim_of Keys pitchers).
#[local] Abbreviation team_of := (fun s => MLBsim.Team_id (MLB.sim_of Keys pitchers s)).
#[local] Abbreviation odds_of := (fun k => ODDS.Games (index ODDS.zero oddsDat k)).

Lemma gate_FinalPitcher keys data p : MLB.FinalPitcher (MLB.gate keys data p) = p.
Proof. rewrite pitcher_gate_eq. destruct (_ && _)%bool; reflexivity. Qed.

Lemma slot_keys st s st' :
  MLB.FinalPitcherKeys st = map MLB.Draftable_uid (MLB.Data st) ->
  NoDup (MLB.FinalPitcherKeys st) ->
  slot st s = Ok st' ->
  MLB.FinalPitcherKeys st' = map MLB.Draftable_uid (MLB.Data st')
  /\ NoDup (MLB.FinalPitcherKeys st').
Proof.
  intros Hk Hn. unfold MLB.slot.
  destruct (MLB.is_pitcher_slot s); [|intros [= <-]; auto].
  destruct (assemble (MLB.FinalPitcher st) s) as [r|m]; [|discriminate].
  cbn [rbind]. rewrite pitcher_gate_eq. intros [= <-].
  destruct (implContains _ _) eqn:E; cbn [negb andb MLB.FinalPitcherKeys MLB.Data];
    [auto|].
  destruct (MLB.ProbablePitcher r); cbn [MLB.FinalPitcherKeys MLB.Data]; [|auto].
  split.
  - rewrite map_app, Hk. reflexivity.
  - apply NoDup_app. split; [exact Hn|]. split; [|apply NoDup_singleton].
    intros x Hx Hx'. apply list_elem_of_singleton in Hx'. subst x.
    apply implContains_not_elem in E. contradiction.
Qed.

Lemma slots_keys draftables :
  forall st st',
    MLB.FinalPitcherKeys st = map MLB.Draftable_uid (MLB.Data st) ->
    NoDup (MLB.FinalPitcherKeys st) ->
    slots draftables st = Ok st' ->
    MLB.FinalPitcherKeys st' = map MLB.Draftable_uid (MLB.Data st')
    /\ NoDup (MLB.FinalPitcherKeys st').
Proof.
  induction draftables as [|s l IH]; intros st st' Hk Hn H; cbn [MLB.slots] in H.
  - inversion H; subst. auto.
  - destruct (slot st s) as [st1|m] eqn:E; [|discriminate]. cbn [rbind] in H.
    destruct (slot_keys _ _ _ Hk Hn E) as [Hk1 Hn1].
    apply (IH st1 st' Hk1 Hn1 H).
Qed.

(** X10. No two rows of the output of the pitchers path share a UID. *)
Theorem pitchers_output_NoDup (draftables : list DK.Draftable) (out : list MLB.Pitcher) :
  handler draftables = Ok out -> NoDup (map MLB.Draftable_uid out).
Proof.
  unfold MLB.handler. intros H.
  destruct (slots draftables MLB.initial) as [st|m] eqn:E; [|discriminate].
  cbn [rbind] in H. inversion H; subst.
  destruct (slots_keys draftables MLB.initial st) as [Hk Hn];
    [reflexivity | apply NoDup_nil_2 | exact E |].
  rewrite <- Hk. exact Hn.
Qed.

Lemma slots_filter draftables :
  forall st, slots draftables st = slots (List.filter MLB.is_pitcher_slot draftables) st.
Proof.
  induction draftables as [|s l IH]; intros st; [reflexivity|].
  cbn [List.filter]. destruct (MLB.is_pitcher_slot s) eqn:E.
  - cbn [MLB.slots]. destruct (slot st s) as [st1|m]; cbn [rbind]; [apply IH | reflexivity].
  - cbn [MLB.slots]. unfold MLB.slot at 1. rewrite E. cbn [rbind]. apply IH.
Qed.

(** X11. The pitchers path reads only the slots whose position string
    contains "SP" or "RP": the outcome of the request, rows or panic, is the
    one of the listing with every other slot removed.  Whatever such a slot
    carries (a start time that does not parse, an unknown provider id) has
    no effect. *)
Theorem pitchers_other_positions_unread (draftables : list DK.Draftable) :
  handler draftables = handler (List.filter MLB.is_pitcher_slot draftables).
Proof. unfold MLB.handler. rewrite slots_filter. reflexivity. Qed.

(** X12. The histogram is the one field the block before the ledger scan
    does not reset.  When a pitcher slot whose ledger has the upcoming game
    [gs] is followed by a pitcher slot whose ledger has no upcoming game,
    the row assembled for the second slot has the default game context and
    carries the histogram of the first slot's game. *)
Theorem histogram_carried_over (st : MLB.State) (s1 s2 : DK.Draftable)
    (t1 t2 ts : Z) (pre post : list MLBsim.Game) (gs : MLBsim.Game) :
  MLB.is_pitcher_slot s1 = true ->
  time_Parse (DK.StartTime (DK.Competition s1)) = Some t1 ->
  MLBsim.Games (sim_of s1) = pre ++ gs :: post ->
  Forall (past time_Parse t1) pre ->
  time_Parse (MLBsim.GameDate gs) = Some ts ->
  After (ts + Hour) t1 = true ->
  Forall (opponent_listed oddsDat) (pre ++ [gs]) ->
  MLB.is_pitcher_slot s2 = true ->
  time_Parse (DK.StartTime (DK.Competition s2)) = Some t2 ->
  Forall (past time_Parse t2) (MLBsim.Games (sim_of s2)) ->
  Forall (opponent_listed oddsDat) (MLBsim.Games (sim_of s2)) ->
  exists st1 r2,
    slot st s1 = Ok st1
    /\ slot st1 s2 = Ok (MLB.gate (MLB.FinalPitcherKeys st1) (MLB.Data st1) r2)
    /\ game_context r2 = default_context
    /\ MLB.ProjPointsList r2 = histogram (MLBsim.Dk_points_list gs).
Proof.
  intros Hp1 Ht1 Hg Hpast Hparse Hafter Hlisted Hp2 Ht2 Hpast2 Hlisted2.
  destruct (assemble_selected time_Parse Keys pitchers oddsDat TeamKeys
              (MLB.FinalPitcher st) s1 t1 pre gs post ts Ht1 Hg Hpast Hparse Hafter Hlisted)
    as (r1 & Hr1 & _ & Hh1 & _).
  destruct (assemble_none time_Parse Keys pitchers oddsDat TeamKeys
              r1 s2 t2 Ht2 Hpast2 Hlisted2) as (r2 & Hr2 & Hc2 & Hh2).
  exists (MLB.gate (MLB.FinalPitcherKeys st) (MLB.Data st) r1), r2.
  split; [unfold MLB.slot; rewrite Hp1, Hr1; reflexivity|].
  split.
  - unfold MLB.slot. rewrite Hp2, gate_FinalPitcher, Hr2. reflexivity.
  - split; [exact Hc2 | congruence].
Qed.

(** The scan of a ledger whose team has no odds entry never reads the
    odds of an opponent and leaves the odds fields as they are. *)
Lemma game_loop_no_odds tmpTeamId t games :
  odds_of tmpTeamId = [] ->
  Forall (fun g => time_Parse (MLBsim.GameDate g) <> None) games ->
  forall ix p c, exists p' c',
    range_loop (game_body tmpTeamId t) ix games (p, c) = Ok (p', c')
    /\ odds_fields p' = odds_fields p.
Proof.
  intros Hodds Hparse. induction Hparse as [|g games Hg _ IH]; intros ix p c.
  - exists p, c. split; reflexivity.
  - cbn [range_loop]. rewrite game_body_eq.
    destruct (time_Parse (MLBsim.GameDate g)) as [tg|]; [|contradiction].
    rewrite odds_scan_eq, Hodds.
    destruct (After (tg + Hour) t).
    + eexists _, _. split; reflexivity.
    + apply IH.
Qed.

(** X13. A slot whose team has no entry in the odds table gets the odds
    fields zero, and its row is assembled whatever the odds table holds for
    the opponents: with no entry to scan, no opponent's list is indexed.
    (The start time and the ledger dates parse.) *)
Theorem no_team_odds_zero_fields (FinalPitcher : MLB.Pitcher) (s : DK.Draftable) (t : Z) :
  odds_of (team_of s) = [] ->
  time_Parse (DK.StartTime (DK.Competition s)) = Some t ->
  Forall (fun g => time_Parse (MLBsim.GameDate g) <> None) (MLBsim.Games (sim_of s)) ->
  exists r, assemble FinalPitcher s = Ok r /\ odds_fields r = (0, 0, 0)%float.
Proof.
  intros Hodds Ht Hparse.
  rewrite (assemble_eq _ _ _ _ _ _ _ t Ht). unfold MLB.game_loop.
  destruct (game_loop_no_odds (team_of s) t _ Hodds Hparse 0%nat
              (MLB.reset FinalPitcher s) zeroCounters) as (p' & c' & -> & Hf).
  eexists. split; [reflexivity|]. cbn [fst].
  change (odds_fields p' = (0, 0, 0)%float). rewrite Hf. reflexivity.
Qed.

(** X14. The odds of the opponent are read at the index of the team's
    entry without a bounds test.  If the team's first odds entry commences
    before the adjusted time of a ledger entry that the scan of a pitcher
    slot reaches, and the odds table has no entry for that game's opponent,
    the request panics: no row is output for any slot. *)
Theorem opponent_without_odds_aborts (draftables : list DK.Draftable) (s : DK.Draftable)
    (t tg : Z) (pre post : list MLBsim.Game) (g : MLBsim.Game)
    (odds_values : ODDS.Game) (rest : list ODDS.Game) :
  s ∈ draftables ->
  MLB.is_pitcher_slot s = true ->
  time_Parse (DK.StartTime (DK.Competition s)) = Some t ->
  MLBsim.Games (sim_of s) = pre ++ g :: post ->
  Forall (past time_Parse t) pre ->
  Forall (opponent_listed oddsDat) pre ->
  time_Parse (MLBsim.GameDate g) = Some tg ->
  odds_of (team_of s) = odds_values :: rest ->
  After (tg + Hour) (time_Unix (ODDS.Commence_time odds_values)) = true ->
  odds_of (Sprint_int (MLBsim.Opponent g)) = [] ->
  exists m, handler draftables = Panic m.
Proof.
  intros Hin Hpos Ht Hg Hpast Hlisted Hparse Hodds Hcond Hopp.
  apply (handler_panic time_Parse Keys pitchers oddsDat TeamKeys draftables s Hin).
  intros st. unfold MLB.slot. rewrite Hpos.
  rewrite (assemble_eq _ _ _ _ _ _ _ t Ht), Hg. unfold MLB.game_loop.
  destruct (game_loop_past time_Parse oddsDat TeamKeys (team_of s) t pre Hpast Hlisted
              0%nat (MLB.reset (MLB.FinalPitcher st) s) zeroCounters)
    as (p1 & _ & _ & Hloop).
  destruct (Hloop (g :: post)) as [ix' E]. rewrite E.
  cbn [range_loop]. rewrite game_body_eq, Hparse, odds_scan_eq, Hodds, Hcond, Hopp.
  cbn [rbind]. eauto.
Qed.


(** X16. A pitcher slot whose provider id has no crosswalk row resolves to
    the athlete id 0.  The simulation table having no entry under 0, the
    ledger is empty: the row is assembled without a fault, with the athlete
    id 0 (also in the captain and utility slots, whose multiples of 0 are
    0), an empty team name, the default game context, zero odds fields and
    the histogram left by the slot processed before it. *)
Theorem unresolved_pitcher_defaults (FinalPitcher : MLB.Pitcher) (s : DK.Draftable) (t : Z) :
  Keys !! Sprint_int (DK.PlayerDkId s) = None ->
  pitchers !! "0"%string = None ->
  time_Parse (DK.StartTime (DK.Competition s)) = Some t ->
  exists r,
    assemble FinalPitcher s = Ok r
    /\ MLB.Mlb_id r = 0
    /\ MLB.Team_name r = ""%string
    /\ game_context r = default_context
    /\ odds_fields r = (0, 0, 0)%float
    /\ MLB.ProjPointsList r = MLB.ProjPointsList FinalPitcher
    /\ MLB.ProbablePitcher r = MLB.probable_of (DK.PlayerGameAttributes s)
    /\ MLB.Draftable_uid r
       = MLB.uid_of (DK.PlayerDkId s) 0 (DK.Position s) 0 (DK.Salary s).
Proof.
  intros HK Hsim Ht.
  assert (Hl : MLB.lookup_of Keys s = 0)
    by (unfold MLB.lookup_of, index; rewrite HK; reflexivity).
  assert (Hz : sim_of s = MLBsim.zero).
  { unfold MLB.sim_of, index. rewrite Hl. change (Sprint_int 0) with "0"%string.
    rewrite Hsim. reflexivity. }
  rewrite (assemble_eq _ _ _ _ _ _ _ t Ht), Hz, Hl.
  cbn [MLBsim.Games MLBsim.zero MLB.game_loop range_loop fst].
  eexists. split; [reflexivity|].
  unfold MLB.finish.
  cbn [MLB.Mlb_id MLB.Team_name MLB.ProjPointsList MLB.ProbablePitcher MLB.Draftable_uid].
  assert (Hm : (if (DK.RosterSlotId s =? 574)%Z then wrap_int (0 * 10000)
                else if (DK.RosterSlotId s =? 573)%Z then wrap_int (0 * 1000) else 0) = 0)
    by (destruct (_ =? 574)%Z; [reflexivity|]; destruct (_ =? 573)%Z; reflexivity).
  rewrite Hm. repeat (split; [reflexivity|]). reflexivity.
Qed.

End PitcherExtras.

Lemma pitchers_output_NoDup_witness :
  exists out,
    MLB.handler parseRFC3339 Feed.Keys Feed.pitchers Feed.oddsDat Feed.TeamKeys
      [Feed.ace; Feed.idle; Feed.ace; Feed.idle] = Ok out
    /\ length out = 2%nat
    /\ NoDup (map MLB.Draftable_uid out).
Proof.
  eexists. split; [vm_compute; reflexivity|]. split; [reflexivity|].
  apply (pitchers_output_NoDup parseRFC3339 Feed.Keys Feed.pitchers Feed.oddsDat
           Feed.TeamKeys [Feed.ace; Feed.idle; Feed.ace; Feed.idle]).
  vm_compute. reflexivity.
Defined.

Lemma histogram_carried_over_witness :
  exists st1 r2,
    MLB.slot parseRFC3339 Feed.Keys Feed.pitchers Feed.oddsDat Feed.TeamKeys
      MLB.initial Feed.ace = Ok st1
    /\ MLB.slot parseRFC3339 Feed.Keys Feed.pitchers Feed.oddsDat Feed.TeamKeys
         st1 Feed.idle
       = Ok (MLB.gate (MLB.FinalPitcherKeys st1) (MLB.Data st1) r2)
    /\ game_context r2 = default_context
    /\ MLB.ProjPointsList r2 = [0; 1; 0; 1; 0; 0; 0; 0].
Proof.
  destruct (histogram_carried_over parseRFC3339 Feed.Keys Feed.pitchers Feed.oddsDat
              Feed.TeamKeys MLB.initial Feed.ace Feed.idle
              Feed.kickoff_ns Feed.kickoff_ns Feed.tonight_ns
              [Feed.last_week] [Feed.next_week] Feed.tonight)
    as (st1 & r2 & H1 & H2 & Hc & Hh).
  - reflexivity.
  - reflexivity.
  - reflexivity.
  - constructor; [|constructor]. eexists. split; reflexivity.
  - reflexivity.
  - reflexivity.
  - repeat constructor; discriminate.
  - reflexivity.
  - reflexivity.
  - constructor; [|constructor]. eexists. split; reflexivity.
  - repeat constructor; discriminate.
  - exists st1, r2. split; [exact H1|]. split; [exact H2|]. split; [exact Hc | exact Hh].
Defined.

Lemma no_team_odds_zero_fields_witness :
  exists r,
    MLB.assemble parseRFC3339 Feed.Keys Feed.pitchers ∅ Feed.TeamKeys
      MLB.zeroPitcher Feed.ace = Ok r
    /\ odds_fields r = (0, 0, 0)%float.
Proof.
  apply (no_team_odds_zero_fields parseRFC3339 Feed.Keys Feed.pitchers ∅ Feed.TeamKeys
           MLB.zeroPitcher Feed.ace Feed.kickoff_ns).
  - reflexivity.
  - reflexivity.
  - repeat constructor; discriminate.
Defined.

Lemma opponent_without_odds_aborts_witness :
  exists m,
    MLB.handler parseRFC3339 Feed.Keys Cases.pitchers_tonight Cases.oddsDat_home_only
      Feed.TeamKeys [Feed.idle; Feed.ace] = Panic m.
Proof.
  apply (opponent_without_odds_aborts parseRFC3339 Feed.Keys Cases.pitchers_tonight
           Cases.oddsDat_home_only Feed.TeamKeys
           [Feed.idle; Feed.ace] Feed.ace Feed.kickoff_ns Feed.tonight_ns
           [] [Feed.next_week] Feed.tonight
           {| ODDS.Commence_time := 1696183200; ODDS.Points := 4.5 |} []).
  - right. left.
  - reflexivity.
  - reflexivity.
  - reflexivity.
  - constructor.
  - constructor.
  - reflexivity.
  - reflexivity.
  - reflexivity.
  - reflexivity.
Defined.


Lemma unresolved_pitcher_defaults_witness :
  exists r,
    MLB.assemble parseRFC3339 Feed.Keys Feed.pitchers Feed.oddsDat Feed.TeamKeys
      MLB.zeroPitcher Cases.unknown_pitcher = Ok r
    /\ MLB.Mlb_id r = 0
    /\ MLB.Draftable_uid r = "9999_0_SP__0_7000"%string.
Proof.
  destruct (unresolved_pitcher_defaults parseRFC3339 Feed.Keys Feed.pitchers Feed.oddsDat
              Feed.TeamKeys MLB.zeroPitcher Cases.unknown_pitcher Feed.kickoff_ns)
    as (r & Hr & Hm & _ & _ & _ & _ & _ & Hu).
  - reflexivity.
  - reflexivity.
  - reflexivity.
  - exists r. split; [exact Hr|]. split; [exact Hm | exact Hu].
Defined.

(** ** Loading the crosswalk and the team averages *)

Lemma fold_scan_key_skip rows d :
  Forall (fun row : Z * Z => snd row <> d) rows ->
  forall Keys, fold_left scan_key rows Keys !! Sprint_int d = Keys !! Sprint_int d.
Proof.
  induction 1 as [|[player_id playerid] rows Hne _ IH]; intros Keys; [reflexivity|].
  cbn [fold_left]. rewrite IH. unfold scan_key.
  apply lookup_insert_ne. intros E. apply Sprint_int_inj in E. exact (Hne E).
Qed.

(** X17. The crosswalk is keyed by the rendered provider id, and a later
    row of the query replaces an earlier one with the same provider id: a
    slot resolves to the athlete id of the last row that carries its provider
    id, and to 0 when no row does. *)
Theorem crosswalk_last_row_wins :
  (forall rows s,
     Forall (fun row : Z * Z => snd row <> DK.PlayerDkId s) rows ->
     index zeroServiceKey (load_Keys rows) (Sprint_int (DK.PlayerDkId s)) = zeroServiceKey
     /\ NFL.nfl_lookup_of (load_Keys rows) s = 0
     /\ MLB.lookup_of (load_Keys rows) s = 0)
  /\ (forall pre player_id post s,
        Forall (fun row : Z * Z => snd row <> DK.PlayerDkId s) post ->
        index zeroServiceKey (load_Keys (pre ++ (player_id, DK.PlayerDkId s) :: post))
          (Sprint_int (DK.PlayerDkId s))
        = {| PlayerID := player_id; Dkid := DK.PlayerDkId s |}
        /\ NFL.nfl_lookup_of (load_Keys (pre ++ (player_id, DK.PlayerDkId s) :: post)) s
           = player_id
        /\ MLB.lookup_of (load_Keys (pre ++ (player_id, DK.PlayerDkId s) :: post)) s
           = player_id).
Proof.
  split.
  - intros rows s Hno.
    assert (E : index zeroServiceKey (load_Keys rows) (Sprint_int (DK.PlayerDkId s))
                = zeroServiceKey).
    { unfold index, load_Keys. rewrite (fold_scan_key_skip rows _ Hno), lookup_empty.
      reflexivity. }
    unfold NFL.nfl_lookup_of, MLB.lookup_of. rewrite E. auto.
  - intros pre player_id post s Hno.
    assert (E : index zeroServiceKey
                  (load_Keys (pre ++ (player_id, DK.PlayerDkId s) :: post))
                  (Sprint_int (DK.PlayerDkId s))
                = {| PlayerID := player_id; Dkid := DK.PlayerDkId s |}).
    { unfold index, load_Keys. rewrite fold_left_app. cbn [fold_left].
      rewrite (fold_scan_key_skip post _ Hno). unfold scan_key at 1.
      rewrite lookup_insert_eq. reflexivity. }
    unfold NFL.nfl_lookup_of, MLB.lookup_of. rewrite E. auto.
Qed.

Lemma crosswalk_last_row_wins_witness :
  NFL.nfl_lookup_of (load_Keys ([(41, 1001); (43, 1002)] ++ (42, 1001) :: [])) Feed.active = 42
  /\ NFL.nfl_lookup_of (load_Keys Cases.key_rows) Feed.stranger = 0.
Proof.
  split.
  - apply (proj2 crosswalk_last_row_wins [(41, 1001); (43, 1002)] 42 [] Feed.active).
    constructor.
  - apply (proj1 crosswalk_last_row_wins Cases.key_rows Feed.stranger).
    repeat constructor; discriminate.
Defined.

Lemma fold_scan_team_skip rows d :
  Forall (fun row : Z * string * float => fst (fst row) <> d) rows ->
  forall TeamKeys,
    fold_left scan_team rows TeamKeys !! Sprint_int d = TeamKeys !! Sprint_int d.
Proof.
  induction 1 as [|[[teamId team_name] avg_points] rows Hne _ IH]; intros TeamKeys;
    [reflexivity|].
  cbn [fold_left]. rewrite IH. unfold scan_team.
  apply lookup_insert_ne. intros E. apply Sprint_int_inj in E. exact (Hne E).
Qed.

(** X18. The team averages are keyed by the rendered team id.  A team
    without a row in the result of the query reads as the average 0, the
    divisor of the odds factor; of several rows for one team id (the query
    groups by id and name) the last one gives the average. *)
Theorem team_average_last_row_wins :
  (forall rows teamId,
     Forall (fun row : Z * string * float => fst (fst row) <> teamId) rows ->
     Avg_points (index zeroTeamPoints (load_TeamKeys rows) (Sprint_int teamId)) = 0%float)
  /\ (forall pre team_name avg_points post teamId,
        Forall (fun row : Z * string * float => fst (fst row) <> teamId) post ->
        index zeroTeamPoints (load_TeamKeys (pre ++ (teamId, team_name, avg_points) :: post))
          (Sprint_int teamId)
        = {| TeamID := teamId; Team_name := team_name; Avg_points := avg_points |}).
Proof.
  split.
  - intros rows teamId Hno. unfold index, load_TeamKeys.
    rewrite (fold_scan_team_skip rows _ Hno), lookup_empty. reflexivity.
  - intros pre team_name avg_points post teamId Hno. unfold index, load_TeamKeys.
    rewrite fold_left_app. cbn [fold_left].
    rewrite (fold_scan_team_skip post _ Hno). unfold scan_team at 1.
    rewrite lookup_insert_eq. reflexivity.
Qed.

Lemma team_average_last_row_wins_witness :
  Avg_points (index zeroTeamPoints (load_TeamKeys Cases.team_rows) (Sprint_int 9)) = 0%float
  /\ index zeroTeamPoints
       (load_TeamKeys ([(7, "Cubs"%string, 4.5%float); (8, "Reds"%string, 4%float)]
                       ++ (7, "Chicago Cubs"%string, 5%float) :: []))
       (Sprint_int 7)
     = {| TeamID := 7; Team_name := "Chicago Cubs"; Avg_points := 5 |}.
Proof.
  split.
  - apply (proj1 team_average_last_row_wins Cases.team_rows 9).
    repeat constructor; discriminate.
  - apply (proj2 team_average_last_row_wins
             [(7, "Cubs"%string, 4.5%float); (8, "Reds"%string, 4%float)]
             "Chicago Cubs"%string 5%float [] 7).
    constructor.
Defined.

(** ** Selection of the slate *)

Lemma select_fold_skip contextDraftgroup slates :
  Forall (fun s => Sprint_int (Draft_group s) <> contextDraftgroup) slates ->
  forall selected,
    fold_left
      (fun selected s =>
         if String.eqb (Sprint_int (Draft_group s)) contextDraftgroup
         then (Game_type s, Date_string s)
         else selected)
      slates selected = selected.
Proof.
  induction 1 as [|s slates Hne _ IH]; intros selected; [reflexivity|].
  cbn [fold_left]. destruct (String.eqb_spec (Sprint_int (Draft_group s)) contextDraftgroup);
    [contradiction | apply IH].
Qed.

(** X19. Of the slates whose draft group renders to the requested one the
    last in the feed gives the game type and the date string. *)
Theorem slate_last_match_selected (draftgroup : Z) (pre post : list Slate) (s : Slate) :
  Draft_group s = draftgroup ->
  Forall (fun s' => Draft_group s' <> draftgroup) post ->
  select_slate "NFL" (Sprint_int draftgroup) (pre ++ s :: post)
  = (Game_type s, Date_string s).
Proof.
  intros Hs Hpost. unfold select_slate. cbn [String.eqb Ascii.eqb Bool.eqb].
  rewrite fold_left_app. cbn [fold_left]. rewrite Hs, String.eqb_refl.
  apply select_fold_skip.
  eapply Forall_impl; [exact Hpost|]. intros s' Hne E. apply Sprint_int_inj in E. exact (Hne E).
Qed.

Lemma slate_last_match_selected_witness :
  select_slate "NFL" (Sprint_int 98765)
    ([ {| Draft_group := 98765; Game_type := "Showdown Captain Mode"; Date_string := "Sun" |};
       {| Draft_group := 11111; Game_type := "Classic"; Date_string := "Mon" |} ]
     ++ {| Draft_group := 98765; Game_type := "Classic"; Date_string := "Thu" |} :: [])
  = ("Classic"%string, "Thu"%string).
Proof.
  apply (slate_last_match_selected 98765
           [ {| Draft_group := 98765; Game_type := "Showdown Captain Mode";
                Date_string := "Sun" |};
             {| Draft_group := 11111; Game_type := "Classic"; Date_string := "Mon" |} ]
           []
           {| Draft_group := 98765; Game_type := "Classic"; Date_string := "Thu" |}).
  - reflexivity.
  - constructor.
Defined.


(** X21. The two DraftKings blocks test the game type independently and
    share the accumulators.  A game type that names one format gives one
    response, the output of that pass.  A game type that names both gives
    two responses: the classic output, and then the classic output again,
    followed by the showdown rows that the gate passed after it; over the
    whole of the second response no UID repeats. *)
Theorem nfl_draftkings_responses (game_type : string) (Keys : gmap string ServiceKey)
    (nfl_players : gmap string NFLsim.Player) (draftables : list DK.Draftable) :
  (Contains game_type "Classic" = true -> Contains game_type "Showdown" = false ->
   nfl_draftkings game_type Keys nfl_players draftables
   = [NFL.classic Keys nfl_players draftables])
  /\ (Contains game_type "Classic" = false -> Contains game_type "Showdown" = true ->
      nfl_draftkings game_type Keys nfl_players draftables
      = [NFL.showdown Keys nfl_players draftables])
  /\ (Contains game_type "Classic" = true -> Contains game_type "Showdown" = true ->
      exists rows,
        nfl_draftkings game_type Keys nfl_players draftables
        = [NFL.classic Keys nfl_players draftables;
           NFL.classic Keys nfl_players draftables ++ rows]
        /\ rows `sublist_of`
             List.filter NFL.Inlineup (map (NFL.showdown_record Keys nfl_players) draftables)
        /\ NoDup (map NFL.Draftable_uid (NFL.classic Keys nfl_players draftables ++ rows))).
Proof.
  unfold nfl_draftkings. split; [|split].
  - intros -> ->. reflexivity.
  - intros -> ->. reflexivity.
  - intros -> ->. cbn [app].
    destruct (pass_emits (NFL.showdown_record Keys nfl_players) draftables
                (NFL.pass (NFL.classic_record Keys nfl_players) draftables NFL.emptyAcc))
      as (rows & E & Hs).
    exists rows. split; [rewrite E; reflexivity|]. split; [exact Hs|].
    unfold NFL.classic. rewrite <- E.
    destruct (pass_consistent (NFL.showdown_record Keys nfl_players) draftables
                (NFL.pass (NFL.classic_record Keys nfl_players) draftables NFL.emptyAcc))
      as [Hk Hn].
    + apply pass_consistent, consistent_empty.
    + rewrite <- Hk. exact Hn.
Qed.

Lemma nfl_draftkings_responses_witness :
  nfl_draftkings "Showdown Captain Mode" Feed.Keys Feed.nfl_players [Feed.captain; Feed.flex]
  = [NFL.showdown Feed.Keys Feed.nfl_players [Feed.captain; Feed.flex]].
Proof.
  apply (proj1 (proj2 (nfl_draftkings_responses "Showdown Captain Mode" Feed.Keys
                         Feed.nfl_players [Feed.captain; Feed.flex]))); reflexivity.
Defined.

(** ** NFL: FanDuel full roster *)

Lemma Split_no_sep (s : string) (sep : ascii) :
  sep ∉ chars s -> Split s sep = [s].
Proof.
  induction s as [|c s IH]; intros H; [reflexivity|].
  cbn [Split]. destruct (Ascii.eqb_spec c sep) as [->|Hne].
  - exfalso. apply H. left.
  - rewrite IH; [reflexivity|]. intros Hin. apply H. right. exact Hin.
Qed.

Lemma Split_nonempty (s : string) (sep : ascii) : Split s sep <> [].
Proof.
  destruct s as [|c s]; cbn [Split]; [discriminate|].
  destruct (Ascii.eqb c sep); [discriminate|].
  destruct (Split s sep); discriminate.
Qed.

Lemma Split_sep (s : string) (sep : ascii) :
  sep ∈ chars s -> exists a b rest, Split s sep = a :: b :: rest.
Proof.
  induction s as [|c s IH]; intros H; [inversion H|].
  cbn [Split]. destruct (Ascii.eqb_spec c sep) as [->|Hne].
  - destruct (Split s sep) as [|b rest] eqn:E; [destruct (Split_nonempty _ _ E)|].
    eauto.
  - destruct IH as (a & b & rest & ->).
    + apply elem_of_cons in H as [H|H]; [congruence | exact H].
    + eauto.
Qed.

Lemma Split_two (a b : string) (sep : ascii) :
  sep ∉ chars a -> sep ∉ chars b ->
  Split (a ++ String sep b) sep = [a; b].
Proof.
  intros Ha Hb. induction a as [|c a IH].
  - change (Split (String sep b) sep = [EmptyString; b]).
    cbn [Split]. rewrite Ascii.eqb_refl, (Split_no_sep b sep Hb). reflexivity.
  - change (Split (String c (a ++ String sep b)) sep = [String c a; b]).
    cbn [Split]. destruct (Ascii.eqb_spec c sep) as [->|Hne].
    + exfalso. apply Ha. left.
    + rewrite IH; [reflexivity|]. intros Hin. apply Ha. right. exact Hin.
Qed.

Section FullRoster.

Variable Keys : gmap string ServiceKey.
Variable nfl_players : gmap string FD.Sim.
Variable fd_game_date : string.

#[local] Abbreviation fullroster_record := (FD.fullroster_record Keys nfl_players fd_game_date).
#[local] Abbreviation fd_pass := (FD.pass Keys nfl_players fd_game_date).
#[local] Abbreviation fullroster := (FD.fullroster Keys nfl_players fd_game_date).

Lemma fd_pass_panic players s :
  s ∈ players -> dash ∉ chars (FD.Id s) ->
  forall acc, exists m, fd_pass players acc = Panic m.
Proof.
  intros Hin Hs. induction players as [|s' l IH]; intros acc; [inversion Hin|].
  cbn [FD.pass]. apply elem_of_cons in Hin as [<-|Hin].
  - unfold FD.fullroster_record, FD.FDidLookup. unfold dash in Hs.
    rewrite (Split_no_sep _ _ Hs). cbn [rbind]. eauto.
  - destruct (fullroster_record s') as [r|m]; cbn [rbind]; [apply IH, Hin | eauto].
Qed.

Lemma fd_record_ok s :
  dash ∈ chars (FD.Id s) -> exists r, fullroster_record s = Ok r.
Proof.
  intros Hs. unfold FD.fullroster_record, FD.FDidLookup. unfold dash in Hs.
  destruct (Split_sep _ _ Hs) as (a & b & rest & ->). cbn [rbind]. eauto.
Qed.

Lemma fd_pass_ok players :
  Forall (fun s => dash ∈ chars (FD.Id s)) players ->
  forall acc, exists acc', fd_pass players acc = Ok acc'.
Proof.
  induction 1 as [|s l Hs _ IH]; intros acc; cbn [FD.pass]; [eauto|].
  destruct (fd_record_ok s Hs) as [r ->]. cbn [rbind]. apply IH.
Qed.

(** X22. The full-roster block takes the crosswalk key of an entry from
    its id, as the segment after the first dash, without testing that there
    is one.  If the id of any entry of the listing has no dash, the request
    panics and no row is output, whether or not the entry is draftable; if
    every id has a dash, the block completes.  For an id of two segments the
    athlete is the one the crosswalk has under the second. *)
Theorem fullroster_id_without_dash_aborts :
  (forall players s,
     s ∈ players -> dash ∉ chars (FD.Id s) ->
     exists m, fullroster players = Panic m)
  /\ (forall players,
        Forall (fun s => dash ∈ chars (FD.Id s)) players ->
        exists out, fullroster players = Ok out)
  /\ (forall s sport number,
        FD.Id s = (sport ++ String dash number)%string ->
        dash ∉ chars sport -> dash ∉ chars number ->
        exists r, fullroster_record s = Ok r
                  /\ NFL.Nfl_id r
                     = Sprint_int (PlayerID (index zeroServiceKey Keys number))).
Proof.
  split; [|split].
  - intros players s Hin Hs. unfold FD.fullroster.
    destruct (fd_pass_panic players s Hin Hs NFL.emptyAcc) as [m ->]. cbn [rbind]. eauto.
  - intros players Hall. unfold FD.fullroster.
    destruct (fd_pass_ok players Hall NFL.emptyAcc) as [acc ->]. cbn [rbind]. eauto.
  - intros s sport number Hid Ha Hb. unfold FD.fullroster_record, FD.FDidLookup.
    rewrite Hid. unfold dash in *. rewrite (Split_two sport number _ Ha Hb). cbn [rbind].
    eexists. split; reflexivity.
Qed.

End FullRoster.

Lemma fullroster_id_without_dash_aborts_witness :
  (exists m, FD.fullroster Cases.fd_keys Cases.fd_sims "Sun"
               [Cases.fd_player "98765-5501"; Cases.fd_player "5501"] = Panic m)
  /\ (exists out, FD.fullroster Cases.fd_keys Cases.fd_sims "Sun"
                    [Cases.fd_player "98765-5501"] = Ok out).
Proof.
  split.
  - apply (proj1 (fullroster_id_without_dash_aborts Cases.fd_keys Cases.fd_sims "Sun")
             [Cases.fd_player "98765-5501"; Cases.fd_player "5501"]
             (Cases.fd_player "5501")).
    + right. left.
    + vm_compute. intros H. apply list_elem_of_In in H. simpl in H.
      repeat (destruct H as [H|H]; [discriminate H|]). exact H.
  - apply (proj1 (proj2 (fullroster_id_without_dash_aborts Cases.fd_keys Cases.fd_sims "Sun"))
             [Cases.fd_player "98765-5501"]).
    constructor; [|constructor].
    vm_compute. do 5 right. left.
Defined.

(** X23. The full-roster block hands the gate the listing's own flag: an
    entry that is not draftable leaves no trace, and no two rows of the
    output share a UID. *)
Theorem fullroster_gate (Keys : gmap string ServiceKey)
    (nfl_players : gmap string FD.Sim) (fd_game_date : string) :
  (forall s r, FD.fullroster_record Keys nfl_players fd_game_date s = Ok r ->
               NFL.Inlineup r = FD.Draftable s)
  /\ (forall pre s post,
        FD.Draftable s = false -> dash ∈ chars (FD.Id s) ->
        FD.fullroster Keys nfl_players fd_game_date (pre ++ s :: post)
        = FD.fullroster Keys nfl_players fd_game_date (pre ++ post))
  /\ (forall players out,
        FD.fullroster Keys nfl_players fd_game_date players = Ok out ->
        NoDup (map NFL.Draftable_uid out)).
Proof.
  assert (Hflag : forall s r, FD.fullroster_record Keys nfl_players fd_game_date s = Ok r ->
                              NFL.Inlineup r = FD.Draftable s).
  { intros s r. unfold FD.fullroster_record.
    destruct (FD.FDidLookup s) as [k|m]; cbn [rbind]; [|discriminate].
    intros [= <-]. reflexivity. }
  split; [exact Hflag|]. split.
  - intros pre s post Hd Hs. unfold FD.fullroster. f_equal.
    generalize NFL.emptyAcc. induction pre as [|s' pre IH]; intros acc.
    + cbn [app FD.pass]. destruct (fd_record_ok Keys nfl_players fd_game_date s Hs) as [r E].
      rewrite E. cbn [rbind]. rewrite gate_not_eligible; [reflexivity|].
      rewrite (Hflag s r E). exact Hd.
    + cbn [app FD.pass].
      destruct (FD.fullroster_record Keys nfl_players fd_game_date s') as [r|m];
        cbn [rbind]; [apply IH | reflexivity].
  - intros players out. unfold FD.fullroster.
    destruct (FD.pass Keys nfl_players fd_game_date players NFL.emptyAcc) as [acc|m] eqn:E;
      cbn [rbind]; [|discriminate].
    intros [= <-].
    assert (G : forall l acc0 acc1, consistent acc0 ->
                  FD.pass Keys nfl_players fd_game_date l acc0 = Ok acc1 -> consistent acc1).
    { induction l as [|s l IH]; intros acc0 acc1 Hc H; cbn [FD.pass] in H.
      - inversion H; subst. exact Hc.
      - destruct (FD.fullroster_record Keys nfl_players fd_game_date s) as [r|m];
          cbn [rbind] in H; [|discriminate].
        apply (IH _ _ (gate_consistent _ r Hc) H). }
    destruct (G players NFL.emptyAcc acc consistent_empty E) as [Hk Hn].
    rewrite <- Hk. exact Hn.
Qed.

(** ** The activities handler *)

Lemma Prim2SF_nan_eq (x : float) : Prim2SF x = S754_nan -> x = nan.
Proof. intros H. apply Prim2SF_inj. rewrite H. reflexivity. Qed.

Lemma nan_sub (y : float) : (nan - y)%float = nan.
Proof. apply Prim2SF_nan_eq. rewrite sub_spec. reflexivity. Qed.

Lemma infinity_sub (y : float) :
  (y <? infinity)%float = true -> (infinity - y)%float = infinity.
Proof.
  intros H. apply Prim2SF_inj. rewrite sub_spec.
  rewrite FloatAxioms.ltb_spec in H.
  change (Prim2SF infinity) with (S754_infinity false) in *.
  destruct (Prim2SF y) as [s|[|]| |s m e]; try reflexivity; discriminate H.
Qed.

Lemma zero_miles : (0 * 0x1.45c700fd4d6a9p-11)%float = 0%float.
Proof. reflexivity. Qed.

Section StravaProperties.

Variable time_Parse : string -> option Z.
Variable int_unrepresentable : float -> Z.

#[local] Abbreviation finalAct := (Strava.finalAct time_Parse int_unrepresentable).
#[local] Abbreviation finalActs := (Strava.finalActs time_Parse int_unrepresentable).
#[local] Abbreviation getStravaData := (Strava.getStravaData time_Parse int_unrepresentable).

Lemma finalAct_unparsed a :
  time_Parse (ActivitySummary.StartDateLocal a) = None ->
  finalAct a = Panic "time.Parse".
Proof.
  intros H. unfold Strava.finalAct, MLB.parse_or_panic. rewrite H. reflexivity.
Qed.

Lemma finalAct_parsed a t :
  time_Parse (ActivitySummary.StartDateLocal a) = Some t ->
  exists row, finalAct a = Ok row /\ copied a row
              /\ FinalActivity.StartDateUnix row = Unix t.
Proof.
  intros H. unfold Strava.finalAct, MLB.parse_or_panic. rewrite H. cbn [rbind].
  eexists. split; [reflexivity|]. split; [|reflexivity].
  repeat split.
Qed.

Lemma finalActs_panic athActs a :
  a ∈ athActs -> time_Parse (ActivitySummary.StartDateLocal a) = None ->
  forall Data, finalActs athActs Data = Panic "time.Parse".
Proof.
  intros Hin Ha. induction athActs as [|a' l IH]; intros Data; [inversion Hin|].
  cbn [Strava.finalActs].
  destruct (time_Parse (ActivitySummary.StartDateLocal a')) as [t|] eqn:E.
  - destruct (finalAct_parsed a' t E) as (row & -> & _). cbn [rbind].
    apply IH. apply elem_of_cons in Hin as [->|Hin]; [congruence | exact Hin].
  - rewrite (finalAct_unparsed a' E). reflexivity.
Qed.

(** X24. The handler parses the local start of every activity and panics
    on the first that does not parse: if any activity of the feed has such a
    start, the request is aborted and nothing is output, whatever the other
    activities are. *)
Theorem activities_unparsed_start_aborts (athActs : list ActivitySummary.t)
    (a : ActivitySummary.t) :
  a ∈ athActs ->
  time_Parse (ActivitySummary.StartDateLocal a) = None ->
  getStravaData athActs = Panic "time.Parse".
Proof.
  intros Hin Ha. unfold Strava.getStravaData.
  rewrite (finalActs_panic athActs a Hin Ha). reflexivity.
Qed.

Lemma finalActs_rows athActs :
  Forall (fun a => time_Parse (ActivitySummary.StartDateLocal a) <> None) athActs ->
  forall Data, exists rows,
    finalActs athActs Data = Ok (Data ++ rows)
    /\ Forall2 (fun a row => finalAct a = Ok row) athActs rows.
Proof.
  induction 1 as [|a l Ha _ IH]; intros Data.
  - exists []. split; [rewrite app_nil_r; reflexivity | constructor].
  - cbn [Strava.finalActs].
    destruct (time_Parse (ActivitySummary.StartDateLocal a)) as [t|] eqn:E; [|contradiction].
    destruct (finalAct_parsed a t E) as (row & Hrow & _). rewrite Hrow. cbn [rbind].
    destruct (IH (Data ++ [row])) as (rows & -> & Hrows).
    exists (row :: rows). split; [rewrite <- app_assoc; reflexivity|].
    constructor; [exact Hrow | exact Hrows].
Qed.

Lemma finalAct_copies a row :
  finalAct a = Ok row ->
  copied a row
  /\ forall t, time_Parse (ActivitySummary.StartDateLocal a) = Some t ->
               FinalActivity.StartDateUnix row = Unix t.
Proof.
  intros Hrow.
  destruct (time_Parse (ActivitySummary.StartDateLocal a)) as [t|] eqn:E.
  - destruct (finalAct_parsed a t E) as (row' & Hrow' & Hc & Hu).
    assert (row' = row) by congruence. subst row'.
    split; [exact Hc|]. intros t' [= <-]. exact Hu.
  - rewrite (finalAct_unparsed a E) in Hrow. discriminate Hrow.
Qed.

(** X25. When the local start of every activity parses, the handler
    assembles one row for each activity of the feed, in the order of the
    feed: nothing is filtered or merged.  Each row holds the distance,
    moving time, start strings, time zone and offset of its activity
    unchanged, and its Unix time is that of the local start as parsed, the
    offset not being applied.  The rows are then encoded: when every
    [float64] field of every row is finite, the body of the response holds
    exactly these rows; when some field of some row is an infinity or NaN,
    the encoder refuses it and the response has no body. *)
Theorem activities_one_row_each (athActs : list ActivitySummary.t) :
  Forall (fun a => time_Parse (ActivitySummary.StartDateLocal a) <> None) athActs ->
  exists rows,
    finalActs athActs [] = Ok rows
    /\ length rows = length athActs
    /\ Forall2 (fun a row =>
                  copied a row
                  /\ forall t, time_Parse (ActivitySummary.StartDateLocal a) = Some t ->
                               FinalActivity.StartDateUnix row = Unix t)
         athActs rows
    /\ (Forall (fun row => Forall (fun x => json_number x = true) (Strava.floats row)) rows ->
        getStravaData athActs = Ok (Body rows))
    /\ (forall row x, row ∈ rows -> x ∈ Strava.floats row -> json_number x = false ->
        getStravaData athActs = Ok (NoBody "json: unsupported value")).
Proof.
  intros Hall. destruct (finalActs_rows athActs Hall []) as (rows & E & Hrows).
  cbn [app] in E.
  exists rows. split; [exact E|]. split; [|split; [|split]].
  - symmetry. apply (Forall2_length _ _ _ Hrows).
  - eapply Forall2_impl; [exact Hrows|]. intros a row Hrow. apply finalAct_copies, Hrow.
  - intros Hfin. unfold Strava.getStravaData. rewrite E. cbn [rbind]. f_equal.
    unfold IndentedJSON.
    assert (G : forallb (fun row => forallb json_number (Strava.floats row)) rows = true).
    { apply forallb_forall. intros row Hrow. apply forallb_forall. intros x Hx.
      rewrite Forall_forall in Hfin.
      specialize (Hfin row (proj2 (list_elem_of_In _ _) Hrow)).
      rewrite Forall_forall in Hfin.
      apply (Hfin x (proj2 (list_elem_of_In _ _) Hx)). }
    rewrite G. reflexivity.
  - intros row x Hrow Hx Hno. unfold Strava.getStravaData. rewrite E. cbn [rbind].
    f_equal. apply (IndentedJSON_unsupported Strava.floats rows row x Hrow Hx Hno).
Qed.

(** X26. The pace is a quotient of binary64 values and its divisor is not
    tested.  An activity of distance zero has zero miles and a pace that is
    an infinity or NaN; the division raises no panic and the row is
    assembled: with a positive moving time its pace is +Inf, and its display
    pace ends in ":+Inf" (the integer that the conversion of +Inf gives
    being one whose binary64 value is not +Inf, as that of every 64-bit
    integer is); with a moving time of zero its pace is NaN and its display
    pace ends in ":NaN".  The part before the colon renders the integer
    that the implementation gives for the conversion of the pace.  The
    encoder refuses such a pace: a feed that holds an activity of distance
    zero, and whose local starts all parse, gets a response without body,
    whatever its other activities are. *)
Theorem activities_zero_distance (a : ActivitySummary.t) (t : Z) :
  time_Parse (ActivitySummary.StartDateLocal a) = Some t ->
  ActivitySummary.Distance a = 0%float ->
  exists row,
    finalAct a = Ok row
    /\ FinalActivity.Miles row = 0%float
    /\ json_number (FinalActivity.Pace row) = false
    /\ ((0 <? FinalActivity.Minutes row)%float = true ->
        FinalActivity.Pace row = infinity
        /\ ((float64_of_int (int_unrepresentable infinity) <? infinity)%float = true ->
            FinalActivity.DisplayPace row
            = (Sprintf_0f (float64_of_int (int_unrepresentable infinity)) ++ ":+Inf")%string))
    /\ (ActivitySummary.MovingTime a = 0 ->
        FinalActivity.Pace row = nan
        /\ FinalActivity.DisplayPace row
           = (Sprintf_0f (float64_of_int (int_unrepresentable nan)) ++ ":NaN")%string)
    /\ (forall athActs,
          a ∈ athActs ->
          Forall (fun a' => time_Parse (ActivitySummary.StartDateLocal a') <> None) athActs ->
          getStravaData athActs = Ok (NoBody "json: unsupported value")).
Proof.
  intros Ht Hd.
  assert (Hrow : exists row, finalAct a = Ok row
                             /\ FinalActivity.Pace row
                                = (float64_of_int (ActivitySummary.MovingTime a) / 60 / 0)%float).
  { unfold Strava.finalAct, MLB.parse_or_panic. rewrite Ht, Hd, zero_miles.
    cbn [rbind]. eexists. split; reflexivity. }
  destruct Hrow as (row0 & Hrow0 & Hpace0).
  assert (Hno : json_number (FinalActivity.Pace row0) = false).
  { rewrite Hpace0. apply div_by_zero_unsupported. reflexivity. }
  revert Hrow0 Hno. clear Hpace0.
  unfold Strava.finalAct, MLB.parse_or_panic. rewrite Ht, Hd, zero_miles.
  cbn [rbind]. intros [= <-] Hno. eexists. split; [reflexivity|].
  cbn [FinalActivity.Miles FinalActivity.Minutes FinalActivity.Pace FinalActivity.DisplayPace]
    in *.
  split; [reflexivity|]. split; [exact Hno|]. split; [|split].
  - intros Hpos. rewrite (div_zero_positive _ Hpos). split; [reflexivity|].
    intros Hfin.
    change (Strava.int_of_float64 int_unrepresentable infinity)
      with (int_unrepresentable infinity).
    rewrite (infinity_sub _ Hfin). reflexivity.
  - intros Hm. rewrite Hm.
    change (float64_of_int 0 / 60 / 0)%float with nan. split; [reflexivity|].
    change (Strava.int_of_float64 int_unrepresentable nan)
      with (int_unrepresentable nan).
    rewrite nan_sub. reflexivity.
  - intros athActs Hin Hall.
    destruct (finalActs_rows athActs Hall []) as (rows & E & Hrows). cbn [app] in E.
    unfold Strava.getStravaData. rewrite E. cbn [rbind]. f_equal.
    apply list_elem_of_lookup in Hin as [i Hi].
    destruct (Forall2_lookup_l _ _ _ _ _ Hrows Hi) as (row & Hrow & Ha).
    apply (IndentedJSON_unsupported Strava.floats rows row (FinalActivity.Pace row)).
    + apply list_elem_of_lookup. exists i. exact Hrow.
    + unfold Strava.floats. do 3 right. left.
    + unfold Strava.finalAct, MLB.parse_or_panic in Ha. rewrite Ht, Hd, zero_miles in Ha.
      cbn [rbind] in Ha. injection Ha as <-. exact Hno.
Qed.

End StravaProperties.

Lemma activities_unparsed_start_aborts_witness :
  Strava.getStravaData parseRFC3339 Cases.int_amd64 [Cases.run; Cases.undated_run; Cases.run]
  = Panic "time.Parse".
Proof.
  apply (activities_unparsed_start_aborts parseRFC3339 Cases.int_amd64
           [Cases.run; Cases.undated_run; Cases.run] Cases.undated_run).
  - right. left.
  - reflexivity.
Defined.

Lemma activities_one_row_each_witness :
  exists rows,
    Strava.finalActs parseRFC3339 Cases.int_amd64 [Cases.run; Cases.jog] [] = Ok rows
    /\ length rows = 2%nat
    /\ Strava.getStravaData parseRFC3339 Cases.int_amd64 [Cases.run; Cases.jog]
       = Ok (Body rows).
Proof.
  destruct (activities_one_row_each parseRFC3339 Cases.int_amd64
              [Cases.run; Cases.jog]) as (rows & E & Hl & _ & Hbody & _).
  - repeat constructor; discriminate.
  - exists rows. split; [exact E|]. split; [exact Hl|].
    apply Hbody. vm_compute in E. injection E as <-.
    repeat constructor.
Defined.

Lemma activities_zero_distance_witness :
  (exists row,
     Strava.finalAct parseRFC3339 Cases.int_amd64 Cases.standing = Ok row
     /\ FinalActivity.Pace row = infinity
     /\ FinalActivity.DisplayPace row = "-9223372036854775808:+Inf"%string)
  /\ Strava.getStravaData parseRFC3339 Cases.int_amd64
       [Cases.run; Cases.standing; Cases.jog]
     = Ok (NoBody "json: unsupported value").
Proof.
  destruct (activities_zero_distance parseRFC3339 Cases.int_amd64 Cases.standing
              Feed.kickoff_ns eq_refl eq_refl) as (row & E & _ & _ & Hinf & _ & Hbody).
  split.
  - exists row. split; [exact E|].
    assert (Hm : (0 <? FinalActivity.Minutes row)%float = true).
    { vm_compute in E. injection E as <-. reflexivity. }
    destruct (Hinf Hm) as [Hp Hd]. split; [exact Hp|].
    apply (Hd eq_refl).
  - apply Hbody.
    + right. left.
    + repeat constructor; discriminate.
Defined.
